(** * Dynamic content types: the PL/pgSQL functions of readme.md

    The four functions [create_content_type], [insert_into_content_type],
    [delete_content_type_data] and [update_content_type_data] build the text
    of one SQL statement from a table name and a JSONB argument and hand it
    to [EXECUTE].  This file embeds them, together with the PostgreSQL
    built-ins they call ([quote_ident], [quote_literal], [format], [TRIM],
    [jsonb_each], [->>]), and states what the statement text and the
    returned value are.  The functions on users and roles
    ([initialize_database], [register_super_admin], [register_user],
    [assign_role_to_user], [get_user_role], [authenticate_user]) are
    embedded as operations on their five tables. *)

From Stdlib Require Import ZArith List String Ascii Bool Lia.
From Stdlib Require Import DecimalString DecimalPos.
Import ListNotations.
Open Scope string_scope.

(** ** Characters and strings *)

Module Chars.

Definition code (c : ascii) : nat := nat_of_ascii c.

Definition between (lo hi : nat) (c : ascii) : bool :=
  (lo <=? code c)%nat && (code c <=? hi)%nat.

Definition is_lower (c : ascii) : bool := between 97 122 c.
Definition is_upper (c : ascii) : bool := between 65 90 c.
Definition is_digit (c : ascii) : bool := between 48 57 c.

Definition dquote : ascii := Eval cbv in ascii_of_nat 34.
Definition squote : ascii := Eval cbv in ascii_of_nat 39.
Definition backslash : ascii := Eval cbv in ascii_of_nat 92.
Definition underscore : ascii := Eval cbv in ascii_of_nat 95.

(** ASCII-only case folding, as the scanner does for bare words. *)
Definition to_lower (c : ascii) : ascii :=
  if is_upper c then ascii_of_nat (code c + 32) else c.

Fixpoint mem (c : ascii) (set : string) : bool :=
  match set with
  | EmptyString => false
  | String d set' => Ascii.eqb c d || mem c set'
  end.

Fixpoint all_chars (p : ascii -> bool) (s : string) : bool :=
  match s with
  | EmptyString => true
  | String c s' => p c && all_chars p s'
  end.

Fixpoint any_char (p : ascii -> bool) (s : string) : bool :=
  match s with
  | EmptyString => false
  | String c s' => p c || any_char p s'
  end.

Fixpoint lower_string (s : string) : string :=
  match s with
  | EmptyString => EmptyString
  | String c s' => String (to_lower c) (lower_string s')
  end.

End Chars.

(** ** PostgreSQL built-ins on text *)

Module Pg.
Import Chars.

Section QuoteIdent.

(** [ScanKeywordLookup] of the server: true for the keywords that are
    not in the unreserved category.  The table depends on the server
    version, so it stays a variable. *)
Variable reserved_keyword : string -> bool.

(** The characters that need no quoting: [a-z], [0-9], [_]. *)
Definition ident_char (c : ascii) : bool :=
  is_lower c || is_digit c || Ascii.eqb c underscore.

Definition ident_start (c : ascii) : bool :=
  is_lower c || Ascii.eqb c underscore.

(** [safe] of [quote_identifier]: the first character is a lower-case
    letter or an underscore, every character is an [ident_char], and the
    word is no reserved keyword.  The empty string is not safe. *)
Definition ident_safe (ident : string) : bool :=
  match ident with
  | EmptyString => false
  | String c _ =>
      ident_start c && all_chars ident_char ident
      && negb (reserved_keyword ident)
  end.

(** Doubles every double quote. *)
Fixpoint double_dquotes (s : string) : string :=
  match s with
  | EmptyString => EmptyString
  | String c s' =>
      if Ascii.eqb c dquote
      then String dquote (String dquote (double_dquotes s'))
      else String c (double_dquotes s')
  end.

(** [quote_ident(text)]: the name itself when it is safe, else the name
    between double quotes with embedded double quotes doubled. *)
Definition quote_ident (ident : string) : string :=
  if ident_safe ident then ident
  else String dquote (double_dquotes ident ++ String dquote EmptyString).

End QuoteIdent.

(** Doubles every single quote and every backslash. *)
Fixpoint double_specials (s : string) : string :=
  match s with
  | EmptyString => EmptyString
  | String c s' =>
      if Ascii.eqb c squote || Ascii.eqb c backslash
      then String c (String c (double_specials s'))
      else String c (double_specials s')
  end.

(** [quote_literal(text)]: the text between single quotes, single quotes
    and backslashes doubled, and an [E] in front when the text holds a
    backslash. *)
Definition quote_literal (s : string) : string :=
  (if any_char (Ascii.eqb backslash) s then "E" else "")
  ++ String squote (double_specials s ++ String squote EmptyString).

(** [ltrim(s, chars)], [rtrim(s, chars)] and [btrim(s, chars)], which is
    [TRIM(BOTH chars FROM s)]: the longest prefix and suffix made of
    characters of [chars] are removed. *)
Fixpoint ltrim (s chars : string) : string :=
  match s with
  | EmptyString => EmptyString
  | String c s' => if mem c chars then ltrim s' chars else s
  end.

Fixpoint rtrim (s chars : string) : string :=
  match s with
  | EmptyString => EmptyString
  | String c s' =>
      match rtrim s' chars with
      | EmptyString => if mem c chars then EmptyString else String c EmptyString
      | r => String c r
      end
  end.

Definition btrim (s chars : string) : string := rtrim (ltrim s chars) chars.

(** [int4out]: the decimal text of an integer. *)
Definition int_out (z : Z) : string := NilZero.string_of_int (Z.to_int z).

(** What [format] puts for a [%s]: the text, or nothing for NULL. *)
Definition format_s (arg : option string) : string :=
  match arg with Some s => s | None => "" end.

End Pg.

(** ** Errors a function body can raise *)

Inductive error : Type :=
| UnsupportedDataType (col_type : string)
    (* RAISE EXCEPTION 'Unsupported data type: %', col_type *)
| SchemaWithoutColumn
    (* RAISE EXCEPTION 'Schema must contain at least one column' *)
| DataWithoutColumn
    (* RAISE EXCEPTION 'Data must contain at least one column' *)
| NullIdentifier
    (* format: a NULL argument for %I *)
| NotAnObject
    (* jsonb_each called on a scalar or an array *)
| StoreError (msg : string)
    (* the executed statement failed in the store *)
| QueryCanceled.
    (* the executed statement was ended by QUERY_CANCELED (statement
       timeout, cancel request) or by ASSERT_FAILURE, the two conditions
       that WHEN OTHERS does not match *)

Inductive result (A : Type) : Type :=
| Ok (a : A)
| Err (e : error).
Arguments Ok {A} a.
Arguments Err {A} e.

(** ** JSONB values *)

Module Jsonb.
Import Chars.

(** A number is [mantissa / 10 ^ scale], printed with [scale] digits
    after the point.  An object lists its pairs in the order in which
    the server stores and iterates them. *)
#[warnings="-register-all"]
Inductive json : Type :=
| JNull
| JBool (b : bool)
| JNumber (mantissa : Z) (scale : nat)
| JString (s : string)
| JArray (items : list json)
| JObject (pairs : list (string * json)).

Fixpoint zeros (n : nat) : string :=
  match n with
  | O => EmptyString
  | S n' => String (ascii_of_nat 48) (zeros n')
  end.

Definition nat_out (n : N) : string := NilZero.string_of_uint (N.to_uint n).

(** [numeric_out]: sign, integer part, and [scale] fractional digits. *)
Definition numeric_out (mantissa : Z) (scale : nat) : string :=
  let a := Z.abs mantissa in
  let p := (10 ^ Z.of_nat scale)%Z in
  let int_part := nat_out (Z.to_N (a / p)) in
  let frac := nat_out (Z.to_N (a mod p)) in
  (if (mantissa <? 0)%Z then "-" else "")
  ++ int_part
  ++ match scale with
     | O => ""
     | S _ => "." ++ zeros (scale - String.length frac) ++ frac
     end.

Definition hex_digit (n : nat) : ascii :=
  if (n <? 10)%nat then ascii_of_nat (48 + n) else ascii_of_nat (87 + n).

(** [escape_json]: the text between double quotes, with the JSON escapes
    for the double quote, the backslash and the control characters. *)
Definition escape_char (c : ascii) : string :=
  match code c with
  | 8 => "\b"
  | 12 => "\f"
  | 10 => "\n"
  | 13 => "\r"
  | 9 => "\t"
  | 34 => String backslash (String dquote "")
  | 92 => String backslash (String backslash "")
  | n =>
      if (n <? 32)%nat
      then "\u00" ++ String (hex_digit (n / 16)) (String (hex_digit (n mod 16)) "")
      else String c ""
  end.

Fixpoint escape_chars (s : string) : string :=
  match s with
  | EmptyString => EmptyString
  | String c s' => escape_char c ++ escape_chars s'
  end.

Definition escape_json (s : string) : string :=
  String dquote (escape_chars s ++ String dquote "").

(** [jsonb_out], the cast of a JSONB value to text. *)
Fixpoint jsonb_out (v : json) : string :=
  match v with
  | JNull => "null"
  | JBool true => "true"
  | JBool false => "false"
  | JNumber m sc => numeric_out m sc
  | JString s => escape_json s
  | JArray items => "[" ++ String.concat ", " (map jsonb_out items) ++ "]"
  | JObject pairs =>
      "{" ++ String.concat ", "
               (map (fun kv => escape_json (fst kv) ++ ": " ++ jsonb_out (snd kv))
                    pairs)
          ++ "}"
  end.

(** [jsonb_each(j)] in a FROM clause: the pairs of an object, no row for
    a NULL argument (the function is strict), an error for a value that
    is no object. *)
Definition jsonb_each (j : option json) : result (list (string * json)) :=
  match j with
  | None => Ok []
  | Some (JObject pairs) => Ok pairs
  | Some _ => Err NotAnObject
  end.

Fixpoint field (key : string) (pairs : list (string * json)) : option json :=
  match pairs with
  | [] => None
  | (k, v) :: rest => if k =? key then Some v else field key rest
  end.

(** [j ->> key]: the field as text; NULL when [j] is no object, when the
    field is missing and when it is the JSON null.  A string comes out
    without its quotes. *)
Definition get_text (j : json) (key : string) : option string :=
  match j with
  | JObject pairs =>
      match field key pairs with
      | None | Some JNull => None
      | Some (JString s) => Some s
      | Some v => Some (jsonb_out v)
      end
  | _ => None
  end.

End Jsonb.

(** ** Function bodies and their execution

    Each of the four functions computes a statement text, runs it with one
    [EXECUTE] and returns a value computed from the number of rows the
    statement processed.  A body is therefore a returned value, a raised
    exception, or one statement with the function of [ROW_COUNT] that gives
    the returned value. *)

Inductive body (A : Type) : Type :=
| Return (a : A)
| Raise (e : error)
| Execute (stmt : string) (ret : nat -> A).
Arguments Return {A} a.
Arguments Raise {A} e.
Arguments Execute {A} stmt ret.

Inductive outcome (A : Type) : Type :=
| Returned (a : A)
| Raised (e : error).
Arguments Returned {A} a.
Arguments Raised {A} e.

(** What the store answers to a statement: the new state and the number of
    rows processed, a failure, or the end of the statement by one of the
    two conditions that WHEN OTHERS does not match, QUERY_CANCELED (a
    statement timeout or a cancel request) and ASSERT_FAILURE; [Canceled]
    and the error [QueryCanceled] stand for both.  A statement that does
    not complete is undone by the store; the state it leaves (a sequence
    value may be spent) comes with the answer. *)
Inductive exec_result (store : Type) : Type :=
| Done (st : store) (row_count : nat)
| Failed (st : store) (msg : string)
| Canceled (st : store).
Arguments Done {store} st row_count.
Arguments Failed {store} st msg.
Arguments Canceled {store} st.

(** The statement a body sends to the store, if any. *)
Definition statement_of {A : Type} (b : body A) : option string :=
  match b with
  | Execute stmt _ => Some stmt
  | _ => None
  end.

(** What a function with the EXCEPTION clause makes of the errors of its
    body [b]: an error the body raises before its statement, and a
    failure of the statement, give false; a statement ended by a
    condition that WHEN OTHERS does not match leaves the function as
    raised. *)
Definition caught_unless_canceled {store : Type}
           (execute : store -> string -> exec_result store)
           (b : body bool) (st : store) (res : outcome bool * store) : Prop :=
  (forall e, b = Raise e -> res = (Returned false, st))
  /\ (forall stmt st' msg,
         statement_of b = Some stmt -> execute st stmt = Failed st' msg ->
         res = (Returned false, st'))
  /\ (forall stmt st',
         statement_of b = Some stmt -> execute st stmt = Canceled st' ->
         res = (Raised QueryCanceled, st')).

Section Functions.

Import Pg Jsonb.

Variable reserved_keyword : string -> bool.
Variable store : Type.
Variable execute : store -> string -> exec_result store.

Definition run_body {A : Type} (b : body A) (st : store) : outcome A * store :=
  match b with
  | Return a => (Returned a, st)
  | Raise e => (Raised e, st)
  | Execute stmt ret =>
      match execute st stmt with
      | Done st' row_count => (Returned (ret row_count), st')
      | Failed st' msg => (Raised (StoreError msg), st')
      | Canceled st' => (Raised QueryCanceled, st')
      end
  end.

(** [EXCEPTION WHEN OTHERS THEN RETURN FALSE]: the function returns false
    for every error the body raises; OTHERS matches every error condition
    but QUERY_CANCELED and ASSERT_FAILURE, for which [QueryCanceled]
    stands and which go through. *)
Definition exception_when_others (b : body bool) (st : store)
  : outcome bool * store :=
  match run_body b st with
  | (Raised QueryCanceled, st') => (Raised QueryCanceled, st')
  | (Raised _, st') => (Returned false, st')
  | r => r
  end.

(** [format]'s [%I]: [quote_ident] of the argument, an error for NULL. *)
Definition format_I (arg : option string) : result string :=
  match arg with
  | Some s => Ok (quote_ident reserved_keyword s)
  | None => Err NullIdentifier
  end.

Definition supported_types : list string :=
  ["TEXT"; "INTEGER"; "BOOLEAN"; "TIMESTAMP"; "DATE"; "NUMERIC"; "JSONB"].

(** [x NOT IN (...)] is NULL for a NULL [x], and [IF] takes a NULL
    condition as false. *)
Definition not_in (x : option string) (l : list string) : option bool :=
  match x with
  | Some s => Some (negb (existsb (String.eqb s) l))
  | None => None
  end.

Definition if_true (cond : option bool) : bool :=
  match cond with
  | Some true => true
  | _ => false
  end.

Definition coalesce (x : option string) (default : string) : string :=
  match x with Some s => s | None => default end.

(** *** create_content_type *)

(** The FOR loop over [jsonb_each(schema)], with [column_definitions] as
    the accumulator. *)
Fixpoint create_loop (entries : list (string * json))
         (column_definitions : string) : result string :=
  match entries with
  | [] => Ok column_definitions
  | (key, value) :: rest =>
      let col_name := quote_ident reserved_keyword key in
      let col_type := get_text value "type" in
      let constraints := coalesce (get_text value "constraints") "" in
      if if_true (not_in col_type supported_types)
      then Err (UnsupportedDataType (format_s col_type))
      else create_loop rest
             (column_definitions
              ++ col_name ++ " " ++ format_s col_type ++ " " ++ constraints ++ ", ")
  end.

Definition create_content_type_body (table_name : option string)
           (schema : option json) : body string :=
  match jsonb_each schema with
  | Err e => Raise e
  | Ok entries =>
      match create_loop entries "" with
      | Err e => Raise e
      | Ok column_definitions =>
          let column_definitions := btrim column_definitions ", " in
          if column_definitions =? "" then Raise SchemaWithoutColumn
          else
            match format_I table_name with
            | Err e => Raise e
            | Ok tn =>
                Execute
                  ("CREATE TABLE IF NOT EXISTS " ++ tn
                   ++ " (id SERIAL PRIMARY KEY, " ++ column_definitions ++ ");")
                  (fun _ => "Table " ++ tn
                            ++ " created successfully (or already exists)")
            end
      end
  end.

(** The function has no EXCEPTION clause: what the body raises leaves the
    function. *)
Definition create_content_type (table_name : option string)
           (schema : option json) (st : store) : outcome string * store :=
  run_body (create_content_type_body table_name schema) st.

(** *** insert_into_content_type *)

Fixpoint insert_loop (entries : list (string * json))
         (column_names column_values : string) : string * string :=
  match entries with
  | [] => (column_names, column_values)
  | (key, value) :: rest =>
      insert_loop rest
        (column_names ++ quote_ident reserved_keyword key ++ ", ")
        (column_values ++ quote_literal (jsonb_out value) ++ ", ")
  end.

Definition insert_into_content_type_body (table_name : option string)
           (data : option json) : body bool :=
  match jsonb_each data with
  | Err e => Raise e
  | Ok entries =>
      let (column_names, column_values) := insert_loop entries "" "" in
      let column_names := btrim column_names ", " in
      let column_values := btrim column_values ", " in
      if (column_names =? "") || (column_values =? "")
      then Raise DataWithoutColumn
      else
        match format_I table_name with
        | Err e => Raise e
        | Ok tn =>
            Execute
              ("INSERT INTO " ++ tn ++ " (" ++ column_names
               ++ ") VALUES (" ++ column_values ++ ");")
              (fun _ => true)
        end
  end.

Definition insert_into_content_type (table_name : option string)
           (data : option json) (st : store) : outcome bool * store :=
  exception_when_others (insert_into_content_type_body table_name data) st.

(** *** delete_content_type_data *)

Definition delete_content_type_data_body (table_name : option string)
           (record_id : option Z) : body bool :=
  match format_I table_name with
  | Err e => Raise e
  | Ok tn =>
      Execute
        ("DELETE FROM " ++ tn ++ " WHERE id = "
         ++ format_s (option_map int_out record_id) ++ ";")
        (fun row_count => if (0 <? row_count)%nat then true else false)
  end.

Definition delete_content_type_data (table_name : option string)
           (record_id : option Z) (st : store) : outcome bool * store :=
  exception_when_others (delete_content_type_data_body table_name record_id) st.

(** *** update_content_type_data *)

Fixpoint update_loop (entries : list (string * json))
         (update_pairs : string) : string :=
  match entries with
  | [] => update_pairs
  | (key, value) :: rest =>
      update_loop rest
        (update_pairs ++ quote_ident reserved_keyword key ++ " = "
         ++ quote_literal (jsonb_out value) ++ ", ")
  end.

Definition update_content_type_data_body (table_name : option string)
           (id : option Z) (update_data : option json) : body bool :=
  match jsonb_each update_data with
  | Err e => Raise e
  | Ok entries =>
      let update_pairs := btrim (update_loop entries "") ", " in
      if update_pairs =? "" then Return false
      else
        match format_I table_name with
        | Err e => Raise e
        | Ok tn =>
            Execute
              ("UPDATE " ++ tn ++ " SET " ++ update_pairs
               ++ " WHERE id = " ++ format_s (option_map int_out id) ++ ";")
              (fun row_count => (0 <? row_count)%nat)
        end
  end.

Definition update_content_type_data (table_name : option string)
           (id : option Z) (update_data : option json) (st : store)
  : outcome bool * store :=
  exception_when_others (update_content_type_data_body table_name id update_data) st.

End Functions.

Arguments run_body {store} execute {A} b st.
Arguments exception_when_others {store} execute b st.
Arguments create_content_type reserved_keyword {store} execute table_name schema st.
Arguments insert_into_content_type reserved_keyword {store} execute table_name data st.
Arguments delete_content_type_data reserved_keyword {store} execute table_name record_id st.
Arguments update_content_type_data reserved_keyword {store} execute table_name id update_data st.

(** ** The scanner of the store

    The part of the SQL scanner that the generated statements reach: bare
    words (keywords, names and numbers; folded to lower case), identifiers
    between double quotes, string literals between single quotes (with and
    without the [E] prefix; a backslash is an escape only with the
    prefix), and one-character symbols.  Comments, dollar quoting, the
    other literal prefixes and the octal, hexadecimal and Unicode escapes
    are left out.  The cut of a name at 63 bytes is made where the token is
    read as a name ([Store.ident_of]). *)

Module Scanner.
Import Chars.

Inductive token : Type :=
| TWord (w : string)
| TQuoted (name : string)
| TString (text : string)
| TSym (c : ascii).

Inductive mode : Type :=
| Default
| InWord (acc : string)
| InQuoted (acc : string)
| InQuotedQ (acc : string)     (* after a double quote inside a quoted name *)
| InString (esc : bool) (acc : string)
| InStringQ (esc : bool) (acc : string)  (* after a single quote inside a literal *)
| InStringB (acc : string).    (* after a backslash inside an E literal *)

Record state : Type := mk { toks : list token; md : mode }.

Definition is_word_char (c : ascii) : bool :=
  is_lower c || is_upper c || is_digit c || Ascii.eqb c underscore
  || Ascii.eqb c (ascii_of_nat 36) || (128 <=? code c)%nat.

Definition is_space (c : ascii) : bool :=
  match code c with
  | 32 | 9 | 10 | 13 | 12 => true
  | _ => false
  end.

Definition snoc (s : string) (c : ascii) : string := s ++ String c EmptyString.

Definition unescape (c : ascii) : ascii :=
  match code c with
  | 98 => ascii_of_nat 8
  | 102 => ascii_of_nat 12
  | 110 => ascii_of_nat 10
  | 114 => ascii_of_nat 13
  | 116 => ascii_of_nat 9
  | _ => c
  end.

(** A character read outside any token. *)
Definition start (ts : list token) (c : ascii) : state :=
  if Ascii.eqb c dquote then mk ts (InQuoted "")
  else if Ascii.eqb c squote then mk ts (InString false "")
  else if is_word_char c then mk ts (InWord (String c ""))
  else if is_space c then mk ts Default
  else mk (TSym c :: ts) Default.

Definition step (st : state) (c : ascii) : state :=
  let ts := toks st in
  match md st with
  | Default => start ts c
  | InWord acc =>
      if is_word_char c then mk ts (InWord (snoc acc c))
      else if Ascii.eqb c squote && (lower_string acc =? "e")
      then mk ts (InString true "")
      else start (TWord (lower_string acc) :: ts) c
  | InQuoted acc =>
      if Ascii.eqb c dquote then mk ts (InQuotedQ acc)
      else mk ts (InQuoted (snoc acc c))
  | InQuotedQ acc =>
      if Ascii.eqb c dquote then mk ts (InQuoted (snoc acc dquote))
      else start (TQuoted acc :: ts) c
  | InString esc acc =>
      if Ascii.eqb c squote then mk ts (InStringQ esc acc)
      else if esc && Ascii.eqb c backslash then mk ts (InStringB acc)
      else mk ts (InString esc (snoc acc c))
  | InStringQ esc acc =>
      if Ascii.eqb c squote then mk ts (InString esc (snoc acc squote))
      else start (TString acc :: ts) c
  | InStringB acc => mk ts (InString true (snoc acc (unescape c)))
  end.

Fixpoint run (st : state) (s : string) : state :=
  match s with
  | EmptyString => st
  | String c s' => run (step st c) s'
  end.

(** The end of the text closes a word, a quoted name or a literal whose
    closing quote was read; an open quote is an error. *)
Definition finish (st : state) : option (list token) :=
  match md st with
  | Default => Some (rev (toks st))
  | InWord acc => Some (rev (TWord (lower_string acc) :: toks st))
  | InQuotedQ acc => Some (rev (TQuoted acc :: toks st))
  | InStringQ _ acc => Some (rev (TString acc :: toks st))
  | InQuoted _ | InString _ _ | InStringB _ => None
  end.

Definition scan (s : string) : option (list token) :=
  finish (run (mk [] Default) s).

End Scanner.

(** ** The store

    A relational store for the four statement shapes the functions
    generate: tables with an [id] column fed by a sequence, typed columns,
    rows addressed by [id].  A column definition is a name, one of the
    seven types and any number of [NOT NULL], [NULL] and [DEFAULT literal].
    This is the part of the server that the statements of the functions
    reach on such tables: other constraints (UNIQUE, CHECK, REFERENCES),
    triggers, and a statement text that holds more than one command are
    outside it and are refused here, so what is proved of a successful
    call is stated for tables and schemas without them.  The input
    functions of the column types are a variable of the model. *)

Module Store.
Import Chars Scanner Jsonb.

Inductive sqltype : Type :=
| TEXT | INTEGER | BOOLEAN | TIMESTAMP | DATE | NUMERIC | JSONB.

Inductive value : Type :=
| VText (s : string)
| VInt (z : Z)
| VBool (b : bool)
| VNumeric (mantissa : Z) (scale : nat)
| VTime (s : string)
| VJson (j : json).

Record column : Type :=
  { col_name : string; col_type : sqltype;
    col_not_null : bool; col_default : option string }.

Record row : Type :=
  { row_id : Z; row_fields : list (string * option value) }.

Record table : Type :=
  { tbl_columns : list column; tbl_rows : list row; tbl_next_id : Z }.

Definition store : Type := list (string * table).

Inductive stmt : Type :=
| SCreate (name : string) (cols : list column)
| SInsert (name : string) (cols : list string) (vals : list string)
| SUpdate (name : string) (sets : list (string * string)) (id : Z)
| SDelete (name : string) (id : Z).

(** *** Names

    A name of 64 bytes or more is cut to 63 bytes, at the end of a whole
    character of the server encoding (UTF-8 here). *)

Definition name_bytes : nat := 63.

(** The number of bytes of the UTF-8 character that starts with [c]. *)
Definition mblen (c : ascii) : nat :=
  let n := code c in
  if (n <? 192)%nat then 1
  else if (n <? 224)%nat then 2
  else if (n <? 240)%nat then 3
  else if (n <? 248)%nat then 4
  else 1.

(** The whole characters that fit in [room] bytes; [pending] bytes of
    the current character are still to come. *)
Fixpoint clip_bytes (s : string) (room pending : nat) : string :=
  match s with
  | EmptyString => EmptyString
  | String c s' =>
      match pending with
      | S p => String c (clip_bytes s' room p)
      | O =>
          let l := mblen c in
          if (l <=? room)%nat then String c (clip_bytes s' (room - l) (l - 1))
          else EmptyString
      end
  end.

Definition clip_name (name : string) : string :=
  if (String.length name <=? name_bytes)%nat then name
  else clip_bytes name name_bytes 0.

(** A name the store reads as it is: not empty, at most 63 bytes. *)
Definition kept_name (name : string) : Prop :=
  name <> "" /\ (String.length name <=? name_bytes)%nat = true.

(** The columns every table has without being asked for. *)
Definition system_columns : list string :=
  ["tableoid"; "cmax"; "xmax"; "cmin"; "xmin"; "ctid"].

Definition is_system_column (name : string) : bool :=
  existsb (String.eqb name) system_columns.

(** A table has at most 1600 columns. *)
Definition max_columns : nat := 1600.

(** The largest value of the sequence of a SERIAL column. *)
Definition sequence_max : Z := 2147483647.

(** *** Parsing *)

Definition token_eqb (a b : token) : bool :=
  match a, b with
  | TWord x, TWord y => x =? y
  | TQuoted x, TQuoted y => x =? y
  | TString x, TString y => x =? y
  | TSym x, TSym y => Ascii.eqb x y
  | _, _ => false
  end.

Definition sym (s : string) : token :=
  match s with
  | String c _ => TSym c
  | EmptyString => TSym (ascii_of_nat 0)
  end.

(** Removes the expected tokens from the front. *)
Fixpoint expect (pattern ts : list token) : option (list token) :=
  match pattern, ts with
  | [], _ => Some ts
  | p :: pattern', t :: ts' =>
      if token_eqb p t then expect pattern' ts' else None
  | _ :: _, [] => None
  end.

(** What follows a list of items is no comma. *)
Definition not_comma (r : list token) : Prop :=
  match r with
  | t :: _ => token_eqb t (sym ",") = false
  | [] => True
  end.

Definition type_of_word (w : string) : option sqltype :=
  if w =? "text" then Some TEXT
  else if w =? "integer" then Some INTEGER
  else if w =? "boolean" then Some BOOLEAN
  else if w =? "timestamp" then Some TIMESTAMP
  else if w =? "date" then Some DATE
  else if w =? "numeric" then Some NUMERIC
  else if w =? "jsonb" then Some JSONB
  else None.

Definition string_of (t : token) : option string :=
  match t with
  | TString s => Some s
  | _ => None
  end.

Definition number_of (t : token) : option Z :=
  match t with
  | TWord w => option_map Z.of_uint (NilZero.uint_of_string w)
  | _ => None
  end.

Section Parser.

Variable reserved_keyword : string -> bool.

Definition name_start (w : string) : bool :=
  match w with
  | String c _ => negb (is_digit c) && negb (Ascii.eqb c (ascii_of_nat 36))
  | EmptyString => false
  end.

(** The name a token denotes where a name is expected: a quoted name
    of non-zero length, or a bare word that is no number and no
    reserved keyword, cut to 63 bytes. *)
Definition ident_of (t : token) : option string :=
  match t with
  | TQuoted EmptyString => None
  | TQuoted name => Some (clip_name name)
  | TWord w =>
      if name_start w && negb (reserved_keyword w) then Some (clip_name w) else None
  | _ => None
  end.

(** [item (, item)*]; gives the items and what follows them. *)
Fixpoint sep_list {A : Type} (item : token -> option A) (ts : list token)
  : option (list A * list token) :=
  match ts with
  | [] => None
  | t :: rest =>
      match item t with
      | None => None
      | Some a =>
          match rest with
          | s :: rest' =>
              if token_eqb s (sym ",")
              then match sep_list item rest' with
                   | Some (l, r) => Some (a :: l, r)
                   | None => None
                   end
              else Some ([a], rest)
          | [] => Some ([a], [])
          end
      end
  end.

(** [name = 'literal' (, name = 'literal')*]. *)
Fixpoint parse_sets (ts : list token)
  : option (list (string * string) * list token) :=
  match ts with
  | c :: e :: v :: rest =>
      match ident_of c, token_eqb e (sym "="), string_of v with
      | Some n, true, Some s =>
          match rest with
          | sep :: rest' =>
              if token_eqb sep (sym ",")
              then match parse_sets rest' with
                   | Some (l, r) => Some ((n, s) :: l, r)
                   | None => None
                   end
              else Some ([(n, s)], rest)
          | [] => Some ([(n, s)], [])
          end
      | _, _, _ => None
      end
  | _ => None
  end.

(** [n ;] or [- n ;] at the end of the statement. *)
Definition parse_id (ts : list token) : option Z :=
  match ts with
  | [n; semi] =>
      if token_eqb semi (sym ";") then number_of n else None
  | [minus; n; semi] =>
      if token_eqb minus (sym "-") && token_eqb semi (sym ";")
      then option_map Z.opp (number_of n) else None
  | _ => None
  end.

(** The column definitions after [id serial primary key ,], read one
    token at a time. *)
Inductive cstate : Type :=
| CName
| CType (name : string)
| CCons (c : column)
| CNot (c : column)
| CDefault (c : column)
| CClosed
| CDone
| CBad.

Definition with_not_null (c : column) : column :=
  {| col_name := col_name c; col_type := col_type c;
     col_not_null := true; col_default := col_default c |}.

Definition with_default (c : column) (d : string) : column :=
  {| col_name := col_name c; col_type := col_type c;
     col_not_null := col_not_null c; col_default := Some d |}.

Definition cstep (acc : list column * cstate) (t : token)
  : list column * cstate :=
  let (cols, s) := acc in
  match s with
  | CName =>
      match ident_of t with
      | Some n => (cols, CType n)
      | None => (cols, CBad)
      end
  | CType n =>
      match t with
      | TWord w =>
          match type_of_word w with
          | Some ty =>
              (cols, CCons {| col_name := n; col_type := ty;
                              col_not_null := false; col_default := None |})
          | None => (cols, CBad)
          end
      | _ => (cols, CBad)
      end
  | CCons c =>
      if token_eqb t (TWord "not") then (cols, CNot c)
      else if token_eqb t (TWord "null") then (cols, CCons c)
      else if token_eqb t (TWord "default") then (cols, CDefault c)
      else if token_eqb t (sym ",") then (c :: cols, CName)
      else if token_eqb t (sym ")") then (c :: cols, CClosed)
      else (cols, CBad)
  | CNot c =>
      if token_eqb t (TWord "null") then (cols, CCons (with_not_null c))
      else (cols, CBad)
  | CDefault c =>
      match t with
      | TString d => (cols, CCons (with_default c d))
      | TWord w =>
          match NilZero.uint_of_string w with
          | Some _ => (cols, CCons (with_default c w))
          | None => (cols, CBad)
          end
      | _ => (cols, CBad)
      end
  | CClosed =>
      if token_eqb t (sym ";") then (cols, CDone) else (cols, CBad)
  | CDone => (cols, CBad)
  | CBad => (cols, CBad)
  end.

Definition parse_columns (ts : list token) : option (list column) :=
  match fold_left cstep ts ([], CName) with
  | (cols, CDone) => Some (rev cols)
  | _ => None
  end.

Definition parse_create (ts : list token) : option stmt :=
  match expect [TWord "table"; TWord "if"; TWord "not"; TWord "exists"] ts with
  | Some (t :: rest) =>
      match ident_of t,
            expect [sym "("; TWord "id"; TWord "serial"; TWord "primary";
                    TWord "key"; sym ","] rest with
      | Some name, Some rest' => option_map (SCreate name) (parse_columns rest')
      | _, _ => None
      end
  | _ => None
  end.

Definition parse_insert (ts : list token) : option stmt :=
  match expect [TWord "into"] ts with
  | Some (t :: lp :: rest) =>
      match ident_of t, token_eqb lp (sym "("), sep_list ident_of rest with
      | Some name, true, Some (cols, rest1) =>
          match expect [sym ")"; TWord "values"; sym "("] rest1 with
          | Some rest2 =>
              match sep_list string_of rest2 with
              | Some (vals, rest3) =>
                  match expect [sym ")"; sym ";"] rest3 with
                  | Some [] => Some (SInsert name cols vals)
                  | _ => None
                  end
              | None => None
              end
          | None => None
          end
      | _, _, _ => None
      end
  | _ => None
  end.

Definition parse_update (ts : list token) : option stmt :=
  match ts with
  | t :: set :: rest =>
      match ident_of t, token_eqb set (TWord "set"), parse_sets rest with
      | Some name, true, Some (sets, rest1) =>
          match expect [TWord "where"; TWord "id"; sym "="] rest1 with
          | Some rest2 => option_map (SUpdate name sets) (parse_id rest2)
          | None => None
          end
      | _, _, _ => None
      end
  | _ => None
  end.

Definition parse_delete (ts : list token) : option stmt :=
  match expect [TWord "from"] ts with
  | Some (t :: rest) =>
      match ident_of t, expect [TWord "where"; TWord "id"; sym "="] rest with
      | Some name, Some rest1 => option_map (SDelete name) (parse_id rest1)
      | _, _ => None
      end
  | _ => None
  end.

Definition parse (ts : list token) : option stmt :=
  match ts with
  | TWord w :: rest =>
      if w =? "create" then parse_create rest
      else if w =? "insert" then parse_insert rest
      else if w =? "update" then parse_update rest
      else if w =? "delete" then parse_delete rest
      else None
  | _ => None
  end.

End Parser.

(** *** Execution *)

Fixpoint find_table (name : string) (st : store) : option table :=
  match st with
  | [] => None
  | (n, t) :: st' => if n =? name then Some t else find_table name st'
  end.

Fixpoint set_table (name : string) (t : table) (st : store) : store :=
  match st with
  | [] => []
  | (n, t0) :: st' =>
      if n =? name then (n, t) :: st' else (n, t0) :: set_table name t st'
  end.

Fixpoint distinct (l : list string) : bool :=
  match l with
  | [] => true
  | x :: l' => negb (existsb (String.eqb x) l') && distinct l'
  end.

Fixpoint distinct_ids (l : list Z) : bool :=
  match l with
  | [] => true
  | x :: l' => negb (existsb (Z.eqb x) l') && distinct_ids l'
  end.

Fixpoint assoc {A : Type} (key : string) (l : list (string * A)) : option A :=
  match l with
  | [] => None
  | (k, a) :: l' => if k =? key then Some a else assoc key l'
  end.

Definition find_column (t : table) (c : string) : option column :=
  find (fun col => col_name col =? c) (tbl_columns t).

(** The type of a column of the table; [id] is an integer. *)
Definition type_of_column (t : table) (c : string) : option sqltype :=
  if c =? "id" then Some INTEGER else option_map col_type (find_column t c).

Definition find_row (t : table) (id : Z) : option row :=
  find (fun r => (row_id r =? id)%Z) (tbl_rows t).

(** [SELECT * FROM name WHERE id = id]. *)
Definition lookup (st : store) (name : string) (id : Z) : option row :=
  match find_table name st with
  | Some t => find_row t id
  | None => None
  end.

Definition field_of (r : row) (c : string) : option value :=
  match assoc c (row_fields r) with
  | Some v => v
  | None => None
  end.

Section Executor.

Variable reserved_keyword : string -> bool.

(** The input functions of the column types: the value a literal of
    unknown type is read as, or nothing when the text is refused. *)
Variable col_input : sqltype -> string -> option value.

(** The literals of the statement, read for their columns. *)
Fixpoint convert (t : table) (cols vals : list string)
  : option (list (string * value)) :=
  match cols, vals with
  | [], [] => Some []
  | c :: cs, v :: vs =>
      match type_of_column t c with
      | Some ty =>
          match col_input ty v, convert t cs vs with
          | Some x, Some l => Some ((c, x) :: l)
          | _, _ => None
          end
      | None => None
      end
  | _, _ => None
  end.

Definition default_ok (c : column) : bool :=
  match col_default c with
  | Some d => match col_input (col_type c) d with Some _ => true | None => false end
  | None => true
  end.

Definition exec_create (name : string) (cols : list column) (st : store)
  : exec_result store :=
  match find_table name st with
  | Some _ => Done st 0
  | None =>
      if distinct ("id" :: map col_name cols)
         && negb (existsb is_system_column (map col_name cols))
         && (S (List.length cols) <=? max_columns)%nat
         && forallb default_ok cols
      then Done ((name, {| tbl_columns := cols; tbl_rows := [];
                           tbl_next_id := 1 |}) :: st) 0
      else Failed st "column definitions refused"
  end.

Definition new_field (given : list (string * value)) (c : column)
  : string * option value :=
  (col_name c,
   match assoc (col_name c) given with
   | Some v => Some v
   | None =>
       match col_default c with
       | Some d => col_input (col_type c) d
       | None => None
       end
   end).

Definition not_null_ok (cols : list column)
           (fields : list (string * option value)) : bool :=
  forallb (fun c =>
             negb (col_not_null c)
             || match assoc (col_name c) fields with
                | Some (Some _) => true
                | _ => false
                end) cols.

Definition add_row (t : table) (r : row) (next : Z) : table :=
  {| tbl_columns := tbl_columns t; tbl_rows := tbl_rows t ++ [r];
     tbl_next_id := next |}.

Definition with_next (t : table) (next : Z) : table :=
  {| tbl_columns := tbl_columns t; tbl_rows := tbl_rows t;
     tbl_next_id := next |}.

Definition exec_insert (name : string) (cols vals : list string) (st : store)
  : exec_result store :=
  match find_table name st with
  | None => Failed st "relation does not exist"
  | Some t =>
      if negb (distinct cols) then Failed st "column specified more than once"
      else
        match convert t cols vals with
        | None => Failed st "column or literal refused"
        | Some given =>
            let fields := map (new_field given) (tbl_columns t) in
            match assoc "id" given with
            | Some (VInt z) =>
                if not_null_ok (tbl_columns t) fields
                   && negb (existsb (fun r => (row_id r =? z)%Z) (tbl_rows t))
                then Done (set_table name
                             (add_row t {| row_id := z; row_fields := fields |}
                                      (tbl_next_id t)) st) 1
                else Failed st "constraint violated"
            | Some _ => Failed st "column or literal refused"
            | None =>
                let z := tbl_next_id t in
                if (sequence_max <? z)%Z then Failed st "sequence exhausted"
                else
                if not_null_ok (tbl_columns t) fields
                   && negb (existsb (fun r => (row_id r =? z)%Z) (tbl_rows t))
                then Done (set_table name
                             (add_row t {| row_id := z; row_fields := fields |}
                                      (z + 1)%Z) st) 1
                else Failed (set_table name (with_next t (z + 1)%Z) st)
                            "constraint violated"
            end
        end
  end.

Definition update_row (given : list (string * value)) (id : Z) (r : row) : row :=
  if (row_id r =? id)%Z
  then {| row_id := match assoc "id" given with
                    | Some (VInt z) => z
                    | _ => row_id r
                    end;
          row_fields :=
            map (fun f => match assoc (fst f) given with
                          | Some v => (fst f, Some v)
                          | None => f
                          end) (row_fields r) |}
  else r.

Definition id_value_ok (given : list (string * value)) : bool :=
  match assoc "id" given with
  | Some (VInt _) | None => true
  | Some _ => false
  end.

Definition count_rows (t : table) (id : Z) : nat :=
  List.length (filter (fun r => (row_id r =? id)%Z) (tbl_rows t)).

Definition exec_update (name : string) (sets : list (string * string))
           (id : Z) (st : store) : exec_result store :=
  match find_table name st with
  | None => Failed st "relation does not exist"
  | Some t =>
      if negb (distinct (map fst sets))
      then Failed st "multiple assignments to same column"
      else
        match convert t (map fst sets) (map snd sets) with
        | None => Failed st "column or literal refused"
        | Some given =>
            let rows := map (update_row given id) (tbl_rows t) in
            if id_value_ok given && distinct_ids (map row_id rows)
            then Done (set_table name
                         {| tbl_columns := tbl_columns t; tbl_rows := rows;
                            tbl_next_id := tbl_next_id t |} st)
                      (count_rows t id)
            else Failed st "constraint violated"
        end
  end.

Definition exec_delete (name : string) (id : Z) (st : store)
  : exec_result store :=
  match find_table name st with
  | None => Failed st "relation does not exist"
  | Some t =>
      Done (set_table name
              {| tbl_columns := tbl_columns t;
                 tbl_rows := filter (fun r => negb (row_id r =? id)%Z) (tbl_rows t);
                 tbl_next_id := tbl_next_id t |} st)
           (count_rows t id)
  end.

Definition exec (s : stmt) (st : store) : exec_result store :=
  match s with
  | SCreate name cols => exec_create name cols st
  | SInsert name cols vals => exec_insert name cols vals st
  | SUpdate name sets id => exec_update name sets id st
  | SDelete name id => exec_delete name id st
  end.

(** [EXECUTE text]: scan, parse, run. *)
Definition execute (st : store) (text : string) : exec_result store :=
  match scan text with
  | None => Failed st "syntax error"
  | Some ts =>
      match parse reserved_keyword ts with
      | None => Failed st "syntax error"
      | Some s => exec s st
      end
  end.

End Executor.

(** Input functions for the text, integer and boolean columns, enough to
    run the examples on the JSON texts the functions pass; the other
    types are refused here.  An integer is a decimal numeral within the
    32-bit range; a boolean is one of the spellings of the server, in
    either case of letters. *)
Definition int4in (s : string) : option value :=
  match NilZero.int_of_string s with
  | Some d =>
      let z := Z.of_int d in
      if ((-2147483648 <=? z) && (z <=? 2147483647))%Z then Some (VInt z) else None
  | None => None
  end.

Definition true_words : list string :=
  ["true"; "tru"; "tr"; "t"; "yes"; "ye"; "y"; "on"; "1"].

Definition false_words : list string :=
  ["false"; "fals"; "fal"; "fa"; "f"; "no"; "n"; "off"; "of"; "0"].

Definition boolin (s : string) : option value :=
  let w := lower_string s in
  if existsb (String.eqb w) true_words then Some (VBool true)
  else if existsb (String.eqb w) false_words then Some (VBool false)
  else None.

Definition basic_input (ty : sqltype) (s : string) : option value :=
  match ty with
  | TEXT => Some (VText s)
  | INTEGER => int4in s
  | BOOLEAN => boolin s
  | _ => None
  end.

End Store.

(** ** Vocabulary of the statements *)

Module Text.
Import Chars Pg Jsonb.

(** Every item followed by [", "], as the loops accumulate them. *)
Fixpoint terminated (items : list string) : string :=
  match items with
  | [] => ""
  | x :: rest => x ++ ", " ++ terminated rest
  end.

Fixpoint terminated_with (sep : string) (items : list string) : string :=
  match items with
  | [] => ""
  | x :: rest => x ++ sep ++ terminated_with sep rest
  end.

(** The first character is neither a comma nor a space. *)
Definition starts_clean (s : string) : bool :=
  match s with
  | String c _ => negb (mem c ", ")
  | EmptyString => false
  end.

(** The last character is neither a comma nor a space. *)
Fixpoint ends_clean (s : string) : bool :=
  match s with
  | EmptyString => false
  | String c EmptyString => negb (mem c ", ")
  | String _ s' => ends_clean s'
  end.

Section Items.
Variable reserved_keyword : string -> bool.

Definition name_item (kv : string * json) : string :=
  quote_ident reserved_keyword (fst kv).

Definition value_item (kv : string * json) : string :=
  quote_literal (jsonb_out (snd kv)).

Definition set_item (kv : string * json) : string :=
  quote_ident reserved_keyword (fst kv) ++ " = "
  ++ quote_literal (jsonb_out (snd kv)).

Definition column_item (kv : string * json) : string :=
  quote_ident reserved_keyword (fst kv) ++ " "
  ++ format_s (get_text (snd kv) "type") ++ " "
  ++ coalesce (get_text (snd kv) "constraints") "".

(** The statement texts, with the items joined by [", "]. *)
Definition insert_text (tn : string) (entries : list (string * json)) : string :=
  "INSERT INTO " ++ quote_ident reserved_keyword tn
  ++ " (" ++ String.concat ", " (map name_item entries)
  ++ ") VALUES (" ++ String.concat ", " (map value_item entries) ++ ");".

Definition update_text (tn : string) (id : option Z)
           (entries : list (string * json)) : string :=
  "UPDATE " ++ quote_ident reserved_keyword tn
  ++ " SET " ++ String.concat ", " (map set_item entries)
  ++ " WHERE id = " ++ format_s (option_map int_out id) ++ ";".

Definition delete_text (tn : string) (id : option Z) : string :=
  "DELETE FROM " ++ quote_ident reserved_keyword tn
  ++ " WHERE id = " ++ format_s (option_map int_out id) ++ ";".

Definition create_text (tn : string) (entries : list (string * json)) : string :=
  "CREATE TABLE IF NOT EXISTS " ++ quote_ident reserved_keyword tn
  ++ " (id SERIAL PRIMARY KEY, "
  ++ btrim (terminated (map column_item entries)) ", " ++ ");".

(** The type text of the entry passes the check of the loop. *)
Definition type_passes (kv : string * json) : bool :=
  negb (if_true (not_in (get_text (snd kv) "type") supported_types)).
End Items.

End Text.

(** ** Vocabulary of the token sequences *)

Module Tokens.
Import Chars Pg Jsonb Scanner.

(** A character that ends a word, a quoted name or a literal. *)
Definition delimiter (c : ascii) : bool :=
  negb (is_word_char c) && negb (Ascii.eqb c dquote) && negb (Ascii.eqb c squote).

(** The text scans, from outside any token, to the tokens [tk], and leaves
    the scanner outside any token. *)
Definition closed_as (text : string) (tk : list token) : Prop :=
  forall ts rest,
    run (mk ts Default) (text ++ rest) = run (mk (rev tk ++ ts) Default) rest.

(** The text scans to the tokens [tk], the last of which is ended by the
    delimiter that follows. *)
Definition open_as (text : string) (tk : list token) : Prop :=
  forall ts c rest,
    delimiter c = true ->
    run (mk ts Default) (text ++ String c rest) = run (start (rev tk ++ ts) c) rest.

(** Groups of tokens with a comma between them. *)
Fixpoint separated (items : list (list token)) : list token :=
  match items with
  | [] => []
  | [x] => x
  | x :: rest => x ++ TSym ","%char :: separated rest
  end.

Definition id_tokens (id : option Z) : list token :=
  match id with
  | None => []
  | Some z =>
      if (z <? 0)%Z then [TSym "-"%char; TWord (int_out (Z.abs z))]
      else [TWord (int_out z)]
  end.

Section WithKeywords.

Variable reserved_keyword : string -> bool.

(** The token of a name: the bare word when the name is safe, the quoted
    name otherwise. *)
Definition ident_token (name : string) : token :=
  if ident_safe reserved_keyword name then TWord name else TQuoted name.

Definition name_tokens (kv : string * json) : list token :=
  [ident_token (fst kv)].

Definition value_tokens (kv : string * json) : list token :=
  [TString (jsonb_out (snd kv))].

Definition set_tokens (kv : string * json) : list token :=
  [ident_token (fst kv); TSym "="%char; TString (jsonb_out (snd kv))].

Definition delete_tokens (tn : string) (id : option Z) : list token :=
  [TWord "delete"; TWord "from"; ident_token tn;
   TWord "where"; TWord "id"; TSym "="%char]
  ++ id_tokens id ++ [TSym ";"%char].

Definition insert_tokens (tn : string) (entries : list (string * json))
  : list token :=
  [TWord "insert"; TWord "into"; ident_token tn; TSym "("%char]
  ++ separated (map name_tokens entries)
  ++ [TSym ")"%char; TWord "values"; TSym "("%char]
  ++ separated (map value_tokens entries)
  ++ [TSym ")"%char; TSym ";"%char].

Definition update_tokens (tn : string) (id : option Z)
           (entries : list (string * json)) : list token :=
  [TWord "update"; ident_token tn; TWord "set"]
  ++ separated (map set_tokens entries)
  ++ [TWord "where"; TWord "id"; TSym "="%char]
  ++ id_tokens id ++ [TSym ";"%char].

Definition create_head (tn : string) : list token :=
  [TWord "create"; TWord "table"; TWord "if"; TWord "not"; TWord "exists";
   ident_token tn; TSym "("%char; TWord "id"; TWord "serial";
   TWord "primary"; TWord "key"; TSym ","%char].

End WithKeywords.

End Tokens.

(** ** Columns without constraints *)

Module Plain.
Import Chars Pg Jsonb Scanner Tokens Store.

(** The column type a supported type text names. *)
Definition type_of_text (type : string) : option sqltype :=
  if existsb (String.eqb type) supported_types
  then type_of_word (lower_string type) else None.

(** The column an entry of the schema defines when its type text is
    supported and it has no constraints text. *)
Definition plain_column (kv : string * json) : option column :=
  match get_text (snd kv) "type", coalesce (get_text (snd kv) "constraints") "" with
  | Some type, EmptyString =>
      match type_of_text type with
      | Some ty => Some {| col_name := fst kv; col_type := ty;
                           col_not_null := false; col_default := None |}
      | None => None
      end
  | _, _ => None
  end.

Fixpoint columns_of (entries : list (string * json)) : option (list column) :=
  match entries with
  | [] => Some []
  | kv :: rest =>
      match plain_column kv, columns_of rest with
      | Some c, Some cs => Some (c :: cs)
      | _, _ => None
      end
  end.

Section WithKeywords.

Variable reserved_keyword : string -> bool.

Definition plain_item (kv : string * json) : string :=
  quote_ident reserved_keyword (fst kv) ++ " " ++ format_s (get_text (snd kv) "type").

Definition plain_tokens (kv : string * json) : list token :=
  [ident_token reserved_keyword (fst kv);
   TWord (lower_string (format_s (get_text (snd kv) "type")))].

Definition create_tokens (tn : string) (entries : list (string * json))
  : list token :=
  create_head reserved_keyword tn
  ++ separated (map plain_tokens entries) ++ [TSym ")"%char; TSym ";"%char].

End WithKeywords.

Section Reading.

Variable col_input : sqltype -> string -> option value.

(** What the store reads from the literal of an entry, for the column the
    entry names. *)
Definition read_entry (t : table) (kv : string * json) : option value :=
  match type_of_column t (fst kv) with
  | Some ty => col_input ty (jsonb_out (snd kv))
  | None => None
  end.

(** The converted pair [g] is what the store read for the entry. *)
Definition read_as (t : table) (kv : string * json) (g : string * value) : Prop :=
  fst g = fst kv /\ read_entry t kv = Some (snd g).

End Reading.

Definition new_table (cols : list column) : table :=
  {| tbl_columns := cols; tbl_rows := []; tbl_next_id := 1 |}.

Definition success_text (quoted_name : string) : string :=
  "Table " ++ quoted_name ++ " created successfully (or already exists)".

End Plain.

(** ** Sample stores and inputs *)

Module Samples.
Import Jsonb.

(** A few of the reserved keywords of the server. *)
Definition keywords (w : string) : bool :=
  existsb (String.eqb w)
    ["select"; "from"; "where"; "table"; "user"; "order"; "group"; "create";
     "default"; "not"; "null"; "primary"; "and"; "or"; "in"; "all"].

(** A store that fails every statement. *)
Definition refusing (st : unit) (stmt : string) : exec_result unit :=
  Failed st "connection lost".

(** A store whose statements are cancelled by the statement timeout. *)
Definition cancelling (st : unit) (stmt : string) : exec_result unit :=
  Canceled st.

(** A store that keeps the statements it is sent and reports one row. *)
Definition recording (st : list string) (stmt : string) : exec_result (list string) :=
  Done (st ++ [stmt])%list 1.


Definition column (type : string) : json := JObject [("type", JString type)].

(** A store with one table [stats (id, views INTEGER, active BOOLEAN,
    label TEXT)] and no row. *)
Definition stats_store : Store.store :=
  [("stats",
    {| Store.tbl_columns :=
         [ {| Store.col_name := "views"; Store.col_type := Store.INTEGER;
              Store.col_not_null := true; Store.col_default := None |};
           {| Store.col_name := "active"; Store.col_type := Store.BOOLEAN;
              Store.col_not_null := false; Store.col_default := None |};
           {| Store.col_name := "label"; Store.col_type := Store.TEXT;
              Store.col_not_null := false; Store.col_default := None |} ];
       Store.tbl_rows := []; Store.tbl_next_id := 1 |})].

(** A schema without constraints text, and the store with the table
    [notes] that [create_content_type] makes from it. *)
Definition notes_entries : list (string * json) :=
  [("title", column "TEXT"); ("views", column "INTEGER");
   ("active", column "BOOLEAN")].

Definition notes_table : Store.table :=
  {| Store.tbl_columns :=
       [ {| Store.col_name := "title"; Store.col_type := Store.TEXT;
            Store.col_not_null := false; Store.col_default := None |};
         {| Store.col_name := "views"; Store.col_type := Store.INTEGER;
            Store.col_not_null := false; Store.col_default := None |};
         {| Store.col_name := "active"; Store.col_type := Store.BOOLEAN;
            Store.col_not_null := false; Store.col_default := None |} ];
     Store.tbl_rows := []; Store.tbl_next_id := 1 |}.


(** The table of the example query of readme.md: [blog_posts] with
    [title TEXT NOT NULL], [views INTEGER DEFAULT 0] and
    [content JSONB NOT NULL], in the order [jsonb_each] gives the keys. *)
Definition readme_schema : json :=
  JObject [("title", JObject [("type", JString "TEXT");
                              ("constraints", JString "NOT NULL")]);
           ("views", JObject [("type", JString "INTEGER");
                              ("constraints", JString "DEFAULT 0")]);
           ("content", JObject [("type", JString "JSONB");
                                ("constraints", JString "NOT NULL")])].

Definition readme_store : Store.store :=
  [("blog_posts",
    {| Store.tbl_columns :=
         [ {| Store.col_name := "title"; Store.col_type := Store.TEXT;
              Store.col_not_null := true; Store.col_default := None |};
           {| Store.col_name := "views"; Store.col_type := Store.INTEGER;
              Store.col_not_null := false; Store.col_default := Some "0" |};
           {| Store.col_name := "content"; Store.col_type := Store.JSONB;
              Store.col_not_null := true; Store.col_default := None |} ];
       Store.tbl_rows := []; Store.tbl_next_id := 1 |})].

(** The record of the example insert of readme.md. *)
Definition readme_record : json :=
  JObject [("title", JString "First Blog");
           ("content", JString "This is a blog post");
           ("published", JBool true)].

(** A name that tries to close the statement and start another one. *)
Definition hostile_name : string :=
  "x" ++ String Chars.dquote "; DROP TABLE users; --".

Definition blog_schema : json :=
  JObject [("title", JObject [("type", JString "TEXT");
                              ("constraints", JString "NOT NULL")]);
           ("views", JObject [("type", JString "INTEGER");
                              ("constraints", JString "DEFAULT 0")])].

End Samples.

(** ** Vocabulary of the further properties *)

Module Further.
Import Jsonb Text Store.

(** The type text the loop of [create_content_type] stops at: that of the
    first entry, in the order of [jsonb_each], that does not pass. *)
Fixpoint first_unsupported (entries : list (string * json)) : option string :=
  match entries with
  | [] => None
  | kv :: rest =>
      if type_passes kv then first_unsupported rest
      else Some (Pg.format_s (get_text (snd kv) "type"))
  end.

(** No two rows of the table have the same [id]. *)
Definition table_ok (t : table) : Prop :=
  distinct_ids (map row_id (tbl_rows t)) = true.

(** The table is as [create_content_type] makes it from a schema without
    constraints text: [id SERIAL PRIMARY KEY] and the columns of the
    schema, with no constraint of their own and no reference to another
    table. *)
Definition plain_table (t : table) : Prop :=
  exists entries, Plain.columns_of entries = Some (tbl_columns t).

(** Every table of the store is such a table. *)
Definition plain_store (st : store) : Prop :=
  Forall (fun nt => plain_table (snd nt)) st.

(** The same tables with the same rows; the sequences may differ. *)
Definition same_rows (st st' : store) : Prop :=
  forall name,
    option_map tbl_rows (find_table name st') = option_map tbl_rows (find_table name st).

(** The table [stats] of [Samples.stats_store] with two rows. *)
Definition stats_table : table :=
  {| tbl_columns :=
       [ {| col_name := "views"; col_type := INTEGER;
            col_not_null := true; col_default := None |};
         {| col_name := "active"; col_type := BOOLEAN;
            col_not_null := false; col_default := None |};
         {| col_name := "label"; col_type := TEXT;
            col_not_null := false; col_default := None |} ];
     tbl_rows :=
       [ {| row_id := 1;
            row_fields := [("views", Some (VInt 3)); ("active", Some (VBool true));
                           ("label", None)] |};
         {| row_id := 2;
            row_fields := [("views", Some (VInt 8)); ("active", None);
                           ("label", Some (VText "old"))] |} ];
     tbl_next_id := 3 |}.

Definition counted_store : store := [("stats", stats_table)].

(** The table [notes] of [Samples.notes_store] with two rows. *)
Definition notes_rows : table :=
  {| tbl_columns := tbl_columns Samples.notes_table;
     tbl_rows :=
       [ {| row_id := 1;
            row_fields := [("title", None); ("views", Some (VInt 3));
                           ("active", Some (VBool true))] |};
         {| row_id := 2;
            row_fields := [("title", Some (VText "old")); ("views", Some (VInt 8));
                           ("active", None)] |} ];
     tbl_next_id := 3 |}.

Definition noted_store : store := [("notes", notes_rows)].

End Further.

(** ** Users, roles and permissions

    [initialize_database], [register_super_admin], [register_user],
    [assign_role_to_user], [get_user_role] and [authenticate_user] work on
    five tables.  Their statements are fixed, so they are embedded as
    operations on the tables themselves, run one after the other in a
    state and exception monad.  What the server supplies from outside the
    database comes as arguments: the salt of [gen_salt], the value of
    [gen_random_uuid], the time of [NOW]; [crypt] and [LOWER] are
    parameters of the section.  Every statement runs to its end: a
    statement ended by QUERY_CANCELED or ASSERT_FAILURE, which WHEN OTHERS
    does not catch, is not part of this model. *)

Module Auth.

Definition uuid : Type := N.

(** A row of [users]; [created_at] may be NULL. *)
Record user : Type :=
  { user_id : uuid; user_email : string; password_hash : string;
    created_at : option Z }.

(** A row of [roles] or of [permissions]. *)
Record named : Type := { named_id : Z; named_name : string }.

(** A table whose [id] is SERIAL: its rows and the next value of its
    sequence. *)
Record serial_table : Type := { rows : list named; next_id : Z }.

(** The five tables, each of them present or not. *)
Record database : Type :=
  { users : option (list user);
    roles : option serial_table;
    permissions : option serial_table;
    user_roles : option (list (uuid * Z));
    role_permissions : option (list (Z * Z)) }.

Definition set_users (us : list user) (db : database) : database :=
  {| users := Some us; roles := roles db; permissions := permissions db;
     user_roles := user_roles db; role_permissions := role_permissions db |}.

Definition set_roles (t : serial_table) (db : database) : database :=
  {| users := users db; roles := Some t; permissions := permissions db;
     user_roles := user_roles db; role_permissions := role_permissions db |}.

Definition set_permissions (t : serial_table) (db : database) : database :=
  {| users := users db; roles := roles db; permissions := Some t;
     user_roles := user_roles db; role_permissions := role_permissions db |}.

Definition set_user_roles (l : list (uuid * Z)) (db : database) : database :=
  {| users := users db; roles := roles db; permissions := permissions db;
     user_roles := Some l; role_permissions := role_permissions db |}.

Definition set_role_permissions (l : list (Z * Z)) (db : database) : database :=
  {| users := users db; roles := roles db; permissions := permissions db;
     user_roles := user_roles db; role_permissions := Some l |}.

(** The error conditions of the statements. *)
Inductive condition : Type :=
| UndefinedTable (relation : string)
| NotNullViolation (column : string)
| UniqueViolation (constraint : string)
| ForeignKeyViolation (constraint : string)
| SequenceExhausted (sequence : string)
| InvalidSalt.

(** [RAISE NOTICE]: a fixed text, or ['Error: %'] with [SQLERRM]; and the
    notice of the server for [CREATE TABLE IF NOT EXISTS] on a relation
    that exists, which it skips. *)
Inductive notice : Type :=
| Notice (text : string)
| ErrorNotice (e : condition)
| AlreadyExists (relation : string).

(** The database and the notices sent to the client so far. *)
Record session : Type := { data : database; notices : list notice }.

Inductive result (A : Type) : Type :=
| Val (a : A)
| Exc (e : condition).
Arguments Val {A} a.
Arguments Exc {A} e.

Definition M (A : Type) : Type := session -> result A * session.

Definition ret {A : Type} (a : A) : M A := fun s => (Val a, s).

Definition bind {A B : Type} (m : M A) (k : A -> M B) : M B :=
  fun s =>
    match m s with
    | (Val a, s') => k a s'
    | (Exc e, s') => (Exc e, s')
    end.

Definition raise {A : Type} (e : condition) : M A := fun s => (Exc e, s).

Declare Scope sql_scope.
Delimit Scope sql_scope with sql.
Notation "x <- m ;; k" := (bind m (fun x => k))
  (at level 61, m at next level, right associativity) : sql_scope.
Notation "m ;; k" := (bind m (fun _ => k))
  (at level 61, right associativity) : sql_scope.
Open Scope sql_scope.

Definition raise_notice (n : notice) : M unit :=
  fun s => (Val tt, {| data := data s; notices := (notices s ++ [n])%list |}).

Definition get_db : M database := fun s => (Val (data s), s).

Definition put_db (db : database) : M unit :=
  fun s => (Val tt, {| data := db; notices := notices s |}).

(** The table a statement names; the statement fails when it is missing. *)
Definition from {A : Type} (relation : string) (get : database -> option A) : M A :=
  db <- get_db ;;
  match get db with
  | Some t => ret t
  | None => raise (UndefinedTable relation)
  end.

(** What the block had done is undone when the EXCEPTION clause is
    entered; values taken from a sequence are not given back, and a
    sequence of a table the block created goes with the table. *)
Definition keep_sequence (before after : option serial_table)
  : option serial_table :=
  match before, after with
  | Some b, Some a => Some {| rows := rows b; next_id := next_id a |}
  | _, _ => before
  end.

Definition rollback (before after : database) : database :=
  {| users := users before;
     roles := keep_sequence (roles before) (roles after);
     permissions := keep_sequence (permissions before) (permissions after);
     user_roles := user_roles before;
     role_permissions := role_permissions before |}.

(** [BEGIN body EXCEPTION WHEN OTHERS THEN RAISE NOTICE 'Error: %',
    SQLERRM; RETURN value; END]. *)
Definition exception_when_others {A : Type} (body : M A) (value : A)
  : session -> A * session :=
  fun s =>
    match body s with
    | (Val a, s') => (a, s')
    | (Exc e, s') =>
        (value, {| data := rollback (data s) (data s');
                   notices := (notices s' ++ [ErrorNotice e])%list |})
    end.

(** *** The statements *)

(** [SELECT ... FROM users WHERE email = p_email], first row; no row
    matches a NULL. *)
Definition select_user (p_email : option string) : M (option user) :=
  us <- from "users" users ;;
  ret (match p_email with
       | Some e => find (fun u => user_email u =? e) us
       | None => None
       end).

(** [SELECT id FROM roles WHERE ...], first row. *)
Definition select_role_id (matches : string -> bool) : M (option Z) :=
  t <- from "roles" roles ;;
  ret (option_map named_id (find (fun r => matches (named_name r)) (rows t))).

(** [name = p_role]; NULL equals nothing. *)
Definition named_exactly (p_role : option string) (name : string) : bool :=
  match p_role with
  | Some r => name =? r
  | None => false
  end.

(** [INSERT INTO users (email, password_hash, created_at) VALUES (...)
    RETURNING id], the [id] being the default [gen_random_uuid()]. *)
Definition insert_user (p_email hashed_password : option string) (now : Z)
           (new_id : uuid) : M uuid :=
  us <- from "users" users ;;
  match p_email, hashed_password with
  | None, _ => raise (NotNullViolation "email")
  | Some _, None => raise (NotNullViolation "password_hash")
  | Some e, Some h =>
      if existsb (fun u => (user_id u =? new_id)%N) us
      then raise (UniqueViolation "users_pkey")
      else if existsb (fun u => user_email u =? e) us
      then raise (UniqueViolation "users_email_key")
      else
        db <- get_db ;;
        put_db (set_users (us ++ [ {| user_id := new_id; user_email := e;
                                      password_hash := h;
                                      created_at := Some now |} ])%list db) ;;
        ret new_id
  end.

Definition has_user (db : database) (uid : uuid) : bool :=
  match users db with
  | Some us => existsb (fun u => (user_id u =? uid)%N) us
  | None => false
  end.

Definition has_role (db : database) (rid : Z) : bool :=
  match roles db with
  | Some t => existsb (fun r => (named_id r =? rid)%Z) (rows t)
  | None => false
  end.

Definition same_pair (uid : uuid) (rid : Z) (ur : uuid * Z) : bool :=
  (fst ur =? uid)%N && (snd ur =? rid)%Z.

(** [INSERT INTO user_roles (user_id, role_id) VALUES (uid, rid)]: the
    primary key, then the two foreign keys. *)
Definition insert_user_role (uid : uuid) (rid : Z) : M unit :=
  urs <- from "user_roles" user_roles ;;
  if existsb (same_pair uid rid) urs
  then raise (UniqueViolation "user_roles_pkey")
  else
    db <- get_db ;;
    if negb (has_user db uid)
    then raise (ForeignKeyViolation "user_roles_user_id_fkey")
    else if negb (has_role db rid)
    then raise (ForeignKeyViolation "user_roles_role_id_fkey")
    else put_db (set_user_roles (urs ++ [(uid, rid)])%list db).

(** [DELETE FROM user_roles WHERE user_roles.user_id = uid]. *)
Definition delete_user_roles (uid : uuid) : M unit :=
  urs <- from "user_roles" user_roles ;;
  db <- get_db ;;
  put_db (set_user_roles (filter (fun ur => negb (fst ur =? uid)%N) urs) db).

(** [CREATE TABLE IF NOT EXISTS]: an empty table when there is none, a
    notice and nothing else when there is one. *)
Definition create_table_if_not_exists {A : Type} (relation : string)
           (get : database -> option A)
           (set : A -> database -> database) (empty : A) : M unit :=
  db <- get_db ;;
  match get db with
  | Some _ => raise_notice (AlreadyExists relation)
  | None => put_db (set empty db)
  end.

Definition empty_serial : serial_table := {| rows := []; next_id := 1 |}.

(** The largest value of the sequence of a SERIAL column. *)
Definition serial_max : Z := 2147483647.

(** [INSERT INTO t (name) VALUES (n1), (n2), ... ON CONFLICT (name) DO
    NOTHING].  Each row takes its [id] from the sequence first; a row
    whose name is there already is skipped, its [id] spent; an [id] that
    is there already violates the primary key. *)
Fixpoint insert_names (relation : string) (names : list string) (t : serial_table)
  : result unit * serial_table :=
  match names with
  | [] => (Val tt, t)
  | n :: rest =>
      let id := next_id t in
      if (serial_max <? id)%Z then (Exc (SequenceExhausted (relation ++ "_id_seq")), t)
      else if existsb (fun r => named_name r =? n) (rows t)
      then insert_names relation rest {| rows := rows t; next_id := id + 1 |}
      else if existsb (fun r => (named_id r =? id)%Z) (rows t)
      then (Exc (UniqueViolation (relation ++ "_pkey")),
            {| rows := rows t; next_id := id + 1 |})
      else insert_names relation rest
             {| rows := (rows t ++ [ {| named_id := id; named_name := n |} ])%list;
                next_id := id + 1 |}
  end.

Definition insert_on_conflict_do_nothing (relation : string)
           (get : database -> option serial_table)
           (set : serial_table -> database -> database)
           (names : list string) : M unit :=
  t <- from relation get ;;
  db <- get_db ;;
  match insert_names relation names t with
  | (Val _, t') => put_db (set t' db)
  | (Exc e, t') => put_db (set t' db) ;; raise e
  end.

(** *** The functions *)

Definition default_roles : list string := ["Super Admin"; "Content Admin"].

Definition default_permissions : list string :=
  ["Create Content"; "Edit Content"; "Delete Content"].

Definition initialize_database_body : M bool :=
  create_table_if_not_exists "users" users set_users [] ;;
  create_table_if_not_exists "roles" roles set_roles empty_serial ;;
  create_table_if_not_exists "permissions" permissions set_permissions empty_serial ;;
  create_table_if_not_exists "user_roles" user_roles set_user_roles [] ;;
  create_table_if_not_exists "role_permissions" role_permissions
    set_role_permissions [] ;;
  insert_on_conflict_do_nothing "roles" roles set_roles default_roles ;;
  insert_on_conflict_do_nothing "permissions" permissions set_permissions
    default_permissions ;;
  ret true.

Definition initialize_database : session -> bool * session :=
  exception_when_others initialize_database_body false.

Section Functions.

(** [crypt] of pgcrypto on a password and a salt or stored hash; nothing
    when it raises for a salt it cannot use. *)
Variable crypt : string -> string -> option string.

(** [LOWER] in the locale of the database. *)
Variable lower : string -> string.

(** [crypt] is declared STRICT: NULL for a NULL argument. *)
Definition crypt_call (password salt : option string) : M (option string) :=
  match password, salt with
  | Some p, Some s =>
      match crypt p s with
      | Some h => ret (Some h)
      | None => raise InvalidSalt
      end
  | _, _ => ret None
  end.

(** [LOWER(name) = LOWER(p_role)]. *)
Definition named_alike (p_role : option string) (name : string) : bool :=
  match p_role with
  | Some r => lower name =? lower r
  | None => false
  end.

Definition register_super_admin_body (p_email p_password : option string)
           (salt : string) (new_id : uuid) (now : Z) : M bool :=
  hashed_password <- crypt_call p_password (Some salt) ;;
  super_admin_role_id <- select_role_id (named_exactly (Some "Super Admin")) ;;
  match super_admin_role_id with
  | None => raise_notice (Notice "Super Admin role not found") ;; ret false
  | Some role_id =>
      super_admin_id <- insert_user p_email hashed_password now new_id ;;
      insert_user_role super_admin_id role_id ;;
      ret true
  end.

Definition register_super_admin (p_email p_password : option string)
           (salt : string) (new_id : uuid) (now : Z) : session -> bool * session :=
  exception_when_others
    (register_super_admin_body p_email p_password salt new_id now) false.

Definition register_user_body (p_email p_password p_role : option string)
           (salt : string) (new_id : uuid) (now : Z) : M bool :=
  hashed_password <- crypt_call p_password (Some salt) ;;
  user_id <- insert_user p_email hashed_password now new_id ;;
  role_id <- select_role_id (named_alike p_role) ;;
  match role_id with
  | None => raise_notice (Notice "Role not found") ;; ret false
  | Some role_id => insert_user_role user_id role_id ;; ret true
  end.

Definition register_user (p_email p_password p_role : option string)
           (salt : string) (new_id : uuid) (now : Z) : session -> bool * session :=
  exception_when_others
    (register_user_body p_email p_password p_role salt new_id now) false.

(** The function returns SQL NULL (no value) when the comparison with
    the result of [crypt] is NULL. *)
Definition authenticate_user_body (p_email p_password : option string)
  : M (option bool) :=
  found <- select_user p_email ;;
  match found with
  | None => ret (Some false)
  | Some u =>
      let stored_hash := password_hash u in
      hashed <- crypt_call p_password (Some stored_hash) ;;
      ret (option_map (String.eqb stored_hash) hashed)
  end.

Definition authenticate_user (p_email p_password : option string)
  : session -> option bool * session :=
  exception_when_others (authenticate_user_body p_email p_password) (Some false).

End Functions.

(** [assign_role_to_user] has no EXCEPTION clause: an error of one of its
    statements is the error of the call. *)
Definition assign_role_to_user (p_email p_role : option string) : M bool :=
  found <- select_user p_email ;;
  match found with
  | None => ret false
  | Some u =>
      v_role_id <- select_role_id (named_exactly p_role) ;;
      match v_role_id with
      | None => ret false
      | Some role_id =>
          delete_user_roles (user_id u) ;;
          insert_user_role (user_id u) role_id ;;
          ret true
      end
  end.

(** The names of the roles of the users of that email: the join of
    [users], [user_roles] and [roles]. *)
Definition roles_of (us : list user) (urs : list (uuid * Z)) (rs : list named)
           (e : string) : list string :=
  flat_map
    (fun u =>
       if user_email u =? e
       then flat_map
              (fun ur =>
                 if (fst ur =? user_id u)%N
                 then map named_name
                          (filter (fun r => (named_id r =? snd ur)%Z) rs)
                 else [])
              urs
       else [])
    us.

Definition get_user_role (p_email : option string) : M (list string) :=
  us <- from "users" users ;;
  urs <- from "user_roles" user_roles ;;
  t <- from "roles" roles ;;
  ret (match p_email with
       | Some e => roles_of us urs (rows t) e
       | None => []
       end).

(** *** Vocabulary of the properties *)

Definition rows_of (t : option serial_table) : list named :=
  match t with
  | Some t => rows t
  | None => []
  end.

Definition listed {A : Type} (l : option (list A)) : list A :=
  match l with
  | Some l => l
  | None => []
  end.

Definition has_name (n : string) (l : list named) : bool :=
  existsb (fun r => named_name r =? n) l.

Definition or_empty (t : option serial_table) : serial_table :=
  match t with
  | Some t => t
  | None => empty_serial
  end.

(** The database after the five [CREATE TABLE IF NOT EXISTS]. *)
Definition created (db : database) : database :=
  {| users := Some (listed (users db));
     roles := Some (or_empty (roles db));
     permissions := Some (or_empty (permissions db));
     user_roles := Some (listed (user_roles db));
     role_permissions := Some (listed (role_permissions db)) |}.

(** The notice for a table that exists. *)
Definition exists_notice {A : Type} (relation : string) (t : option A)
  : list notice :=
  match t with
  | Some _ => [AlreadyExists relation]
  | None => []
  end.

(** The notices of the five [CREATE TABLE IF NOT EXISTS] of
    [initialize_database], one for each table that is there already. *)
Definition skipped (db : database) : list notice :=
  (exists_notice "users" (users db)
   ++ exists_notice "roles" (roles db)
   ++ exists_notice "permissions" (permissions db)
   ++ exists_notice "user_roles" (user_roles db)
   ++ exists_notice "role_permissions" (role_permissions db))%list.

(** A table whose sequence is behind its rows: the next [id] is taken. *)
Definition stale_roles : database :=
  {| users := None;
     roles := Some {| rows := [ {| named_id := 1%Z; named_name := "Editor" |} ];
                      next_id := 1%Z |};
     permissions := None; user_roles := None; role_permissions := None |}.

(** The five tables are there. *)
Definition initialized (db : database) : Prop :=
  users db <> None /\ roles db <> None /\ permissions db <> None
  /\ user_roles db <> None /\ role_permissions db <> None.


(** What the keys of [users] and [roles] guarantee: no two users of the
    same [id] or of the same email, no two roles of the same [id]. *)
Definition keys_unique (us : list user) (rs : list named) : Prop :=
  NoDup (map user_id us) /\ NoDup (map user_email us) /\ NoDup (map named_id rs).

(** A database after [initialize_database], with one registered user. *)
Definition sample_database : database :=
  {| users := Some [ {| user_id := 7%N; user_email := "admin@example.com";
                        password_hash := "bfSuperSecurePassword";
                        created_at := Some 0%Z |} ];
     roles := Some {| rows := [ {| named_id := 1%Z; named_name := "Super Admin" |};
                                {| named_id := 2%Z; named_name := "Content Admin" |} ];
                      next_id := 3%Z |};
     permissions :=
       Some {| rows := [ {| named_id := 1%Z; named_name := "Create Content" |};
                         {| named_id := 2%Z; named_name := "Edit Content" |};
                         {| named_id := 3%Z; named_name := "Delete Content" |} ];
               next_id := 4%Z |};
     user_roles := Some [(7%N, 1%Z)];
     role_permissions := Some [] |}.

Definition sample_session : session := {| data := sample_database; notices := [] |}.

Definition no_tables : database :=
  {| users := None; roles := None; permissions := None;
     user_roles := None; role_permissions := None |}.

(** A stand-in for [crypt] in the examples: the first two characters of
    the salt, then the password; a salt of fewer characters is refused. *)
Definition sample_crypt (password salt : string) : option string :=
  match salt with
  | String a (String b _) => Some (String a (String b password))
  | _ => None
  end.

Close Scope sql_scope.

End Auth.

(** * Properties *)

(** ** Strings *)

Module TextFacts.
Import Chars Pg Jsonb Text.

#[local] Arguments mem : simpl never.

Lemma append_assoc (a b c : string) : (a ++ b) ++ c = a ++ b ++ c.
Proof. induction a as [|x a IH]; simpl; [reflexivity | now rewrite IH]. Qed.

(** Appends nested to the right, literal prefixes pushed inside. *)
Ltac assoc_right := repeat (progress (rewrite ?append_assoc; cbn [append])).

Lemma append_nil_r (a : string) : a ++ "" = a.
Proof. induction a as [|x a IH]; simpl; [reflexivity | now rewrite IH]. Qed.

Lemma append_empty (a b : string) : a ++ b = "" -> a = "" /\ b = "".
Proof. destruct a; simpl; [auto | discriminate]. Qed.

Lemma rtrim_all s chars : all_chars (fun c => mem c chars) s = true -> rtrim s chars = "".
Proof.
  induction s as [|c s IH]; simpl; [reflexivity|].
  intros H. apply andb_prop in H as [Hc Hs].
  rewrite (IH Hs), Hc. reflexivity.
Qed.

Lemma rtrim_app_trimmed a b chars :
  all_chars (fun c => mem c chars) b = true -> rtrim (a ++ b) chars = rtrim a chars.
Proof.
  intros Hb. induction a as [|c a IH]; simpl.
  - now apply rtrim_all.
  - now rewrite IH.
Qed.

Lemma rtrim_app_kept a b chars :
  rtrim b chars <> "" -> rtrim (a ++ b) chars = a ++ rtrim b chars.
Proof.
  intros Hb. induction a as [|c a IH]; simpl; [reflexivity|].
  rewrite IH. destruct (a ++ rtrim b chars) eqn:E; [|reflexivity].
  apply append_empty in E as [_ E]. contradiction.
Qed.

Lemma ends_clean_rtrim s : ends_clean s = true -> rtrim s ", " = s.
Proof.
  induction s as [|c s IH]; [discriminate|].
  destruct s as [|d s].
  - simpl. intros H. now destruct (mem c ", ").
  - intros H. change (ends_clean (String d s) = true) in H.
    change (rtrim (String c (String d s)) ", ")
      with (match rtrim (String d s) ", " with
            | "" => if mem c ", " then "" else String c ""
            | r => String c r
            end).
    now rewrite (IH H).
Qed.

Lemma ends_clean_app a b : b <> "" -> ends_clean (a ++ b) = ends_clean b.
Proof.
  intros Hb. induction a as [|c a IH]; [reflexivity|].
  simpl. destruct (a ++ b) eqn:E.
  - apply append_empty in E as [_ E]. contradiction.
  - exact IH.
Qed.

Lemma ends_clean_snoc a c : mem c ", " = false -> ends_clean (a ++ String c "") = true.
Proof.
  intros H. rewrite ends_clean_app by discriminate. simpl. now rewrite H.
Qed.

Lemma starts_clean_app a b : starts_clean a = true -> starts_clean (a ++ b) = true.
Proof. destruct a; [discriminate | auto]. Qed.

Lemma starts_clean_nonempty s : starts_clean s = true -> s <> "".
Proof. destruct s; [discriminate | discriminate]. Qed.

Lemma concat_nonempty x rest : x <> "" -> String.concat ", " (x :: rest) <> "".
Proof.
  intros Hx. destruct rest; simpl; [exact Hx|].
  intros E. apply append_empty in E as [E _]. contradiction.
Qed.

Lemma rtrim_terminated items :
  items <> [] ->
  Forall (fun x => starts_clean x = true /\ ends_clean x = true) items ->
  rtrim (terminated items) ", " = String.concat ", " items.
Proof.
  induction items as [|x rest IH]; [congruence|].
  intros _ Hall. inversion Hall as [|? ? [Hs He] Hrest]; subst.
  destruct rest as [|y rest].
  - simpl. rewrite rtrim_app_trimmed by reflexivity. now apply ends_clean_rtrim.
  - change (terminated (x :: y :: rest)) with (x ++ ", " ++ terminated (y :: rest)).
    assert (Hne : rtrim (terminated (y :: rest)) ", " <> "").
    { rewrite IH by (congruence || assumption).
      inversion Hrest as [|? ? [Hy _] _]; subst.
      apply concat_nonempty. now apply starts_clean_nonempty. }
    rewrite <- append_assoc, rtrim_app_kept by exact Hne.
    rewrite IH by (congruence || assumption).
    rewrite append_assoc. reflexivity.
Qed.

(** What [TRIM(BOTH ', ' FROM ...)] leaves of the accumulated items: the
    items with [", "] between them. *)
Lemma btrim_terminated items :
  items <> [] ->
  Forall (fun x => starts_clean x = true /\ ends_clean x = true) items ->
  btrim (terminated items) ", " = String.concat ", " items.
Proof.
  intros Hne Hall. unfold btrim.
  destruct items as [|x rest]; [congruence|].
  inversion Hall as [|? ? [Hs _] _]; subst.
  destruct x as [|c x]; [discriminate|].
  assert (Hl : ltrim (terminated (String c x :: rest)) ", "
               = terminated (String c x :: rest)).
  { simpl in Hs. simpl. destruct (mem c ", "); [discriminate | reflexivity]. }
  rewrite Hl. now apply rtrim_terminated.
Qed.

Lemma btrim_terminated_nonempty items :
  items <> [] ->
  Forall (fun x => starts_clean x = true /\ ends_clean x = true) items ->
  btrim (terminated items) ", " <> "".
Proof.
  intros Hne Hall. rewrite btrim_terminated by assumption.
  destruct items as [|x rest]; [congruence|].
  inversion Hall as [|? ? [Hs _] _]; subst.
  apply concat_nonempty. now apply starts_clean_nonempty.
Qed.

End TextFacts.


(** ** The statement each function builds *)

Module BuilderFacts.
Import Chars Pg Jsonb Text TextFacts.

#[local] Arguments mem : simpl never.

Lemma ident_char_not_separator c : ident_char c = true -> mem c ", " = false.
Proof.
  destruct c as [[] [] [] [] [] [] [] []]; vm_compute; intros H;
    first [reflexivity | discriminate H].
Qed.

Lemma ident_start_char c : ident_start c = true -> ident_char c = true.
Proof.
  unfold ident_start, ident_char. intros H.
  apply orb_true_iff in H as [H|H]; rewrite H; [reflexivity|].
  now rewrite !orb_true_r.
Qed.

Lemma ident_chars_end_clean s :
  s <> "" -> all_chars ident_char s = true -> ends_clean s = true.
Proof.
  induction s as [|c s IH]; [congruence|]. intros _ H.
  simpl in H. apply andb_prop in H as [Hc Hs].
  destruct s as [|d s].
  - simpl. now rewrite ident_char_not_separator.
  - change (ends_clean (String d s) = true). apply IH; [discriminate | exact Hs].
Qed.

Section WithKeywords.

Variable kw : string -> bool.

Lemma quote_ident_cases k :
  (ident_safe kw k = true /\ quote_ident kw k = k)
  \/ (ident_safe kw k = false
      /\ quote_ident kw k = String dquote (double_dquotes k ++ String dquote "")).
Proof. unfold quote_ident. destruct (ident_safe kw k); auto. Qed.

Lemma ident_safe_shape k :
  ident_safe kw k = true ->
  exists c k', k = String c k' /\ ident_start c = true
               /\ all_chars ident_char k = true /\ kw k = false.
Proof.
  destruct k as [|c k']; [discriminate|]. unfold ident_safe.
  intros H. apply andb_prop in H as [H Hk]. apply andb_prop in H as [Hc Ha].
  exists c, k'. repeat split; try assumption.
  now destruct (kw (String c k')).
Qed.

Lemma quote_ident_starts_clean k : starts_clean (quote_ident kw k) = true.
Proof.
  destruct (quote_ident_cases k) as [[Hs ->] | [_ ->]]; [|reflexivity].
  destruct (ident_safe_shape k Hs) as (c & k' & -> & Hc & _ & _).
  simpl. now rewrite (ident_char_not_separator c (ident_start_char c Hc)).
Qed.

Lemma quote_ident_ends_clean k : ends_clean (quote_ident kw k) = true.
Proof.
  destruct (quote_ident_cases k) as [[Hs ->] | [_ ->]].
  - destruct (ident_safe_shape k Hs) as (c & k' & E & _ & Ha & _).
    apply ident_chars_end_clean; [rewrite E; discriminate | exact Ha].
  - change (String dquote (double_dquotes k ++ String dquote ""))
      with ((String dquote (double_dquotes k)) ++ String dquote "").
    now apply ends_clean_snoc.
Qed.

Lemma quote_literal_starts_clean s : starts_clean (quote_literal s) = true.
Proof. unfold quote_literal. now destruct (any_char (Ascii.eqb backslash) s). Qed.

Lemma quote_literal_ends_clean s : ends_clean (quote_literal s) = true.
Proof.
  unfold quote_literal.
  change (String squote (double_specials s ++ String squote ""))
    with ((String squote (double_specials s)) ++ String squote "").
  rewrite <- append_assoc. now apply ends_clean_snoc.
Qed.

Lemma name_item_clean kv :
  starts_clean (name_item kw kv) = true /\ ends_clean (name_item kw kv) = true.
Proof. split; [apply quote_ident_starts_clean | apply quote_ident_ends_clean]. Qed.

Lemma value_item_clean kv :
  starts_clean (value_item kv) = true /\ ends_clean (value_item kv) = true.
Proof. split; [apply quote_literal_starts_clean | apply quote_literal_ends_clean]. Qed.

Lemma set_item_clean kv :
  starts_clean (set_item kw kv) = true /\ ends_clean (set_item kw kv) = true.
Proof.
  unfold set_item. split.
  - apply starts_clean_app, quote_ident_starts_clean.
  - rewrite ends_clean_app.
    + rewrite ends_clean_app; [apply quote_literal_ends_clean|].
      apply starts_clean_nonempty, quote_literal_starts_clean.
    + discriminate.
Qed.

Lemma items_clean {A : Type} (f : A -> string) (l : list A) :
  (forall a, starts_clean (f a) = true /\ ends_clean (f a) = true) ->
  Forall (fun x => starts_clean x = true /\ ends_clean x = true) (map f l).
Proof. intros H. induction l; simpl; constructor; auto. Qed.

(** *** The loops *)

Lemma insert_loop_eq entries names values :
  insert_loop kw entries names values
  = (names ++ terminated (map (name_item kw) entries),
     values ++ terminated (map value_item entries)).
Proof.
  revert names values. induction entries as [|[k v] rest IH]; intros names values.
  - simpl. now rewrite !append_nil_r.
  - simpl. rewrite IH. unfold name_item, value_item. simpl.
    now assoc_right.
Qed.

Lemma update_loop_eq entries pairs :
  update_loop kw entries pairs = pairs ++ terminated (map (set_item kw) entries).
Proof.
  revert pairs. induction entries as [|[k v] rest IH]; intros pairs.
  - simpl. now rewrite append_nil_r.
  - simpl. rewrite IH. unfold set_item. simpl. now assoc_right.
Qed.

Lemma create_loop_passes entries defs :
  forallb type_passes entries = true ->
  create_loop kw entries defs
  = Ok (defs ++ terminated (map (column_item kw) entries)).
Proof.
  revert defs. induction entries as [|[k v] rest IH]; intros defs H.
  - simpl. now rewrite append_nil_r.
  - simpl in H. apply andb_prop in H as [Hp Hrest].
    unfold type_passes in Hp. simpl in Hp. apply negb_true_iff in Hp.
    simpl. rewrite Hp, (IH _ Hrest). unfold column_item. simpl.
    now assoc_right.
Qed.


Lemma btrim_starts_clean_nonempty s : starts_clean s = true -> btrim s ", " <> "".
Proof.
  destruct s as [|c s]; [discriminate|]. simpl. intros H.
  apply negb_true_iff in H. unfold btrim. simpl. rewrite H. simpl.
  destruct (rtrim s ", "); [rewrite H|]; discriminate.
Qed.

(** *** The bodies *)

Lemma insert_body_eq tn entries :
  entries <> [] ->
  insert_into_content_type_body kw (Some tn) (Some (JObject entries))
  = Execute (insert_text kw tn entries) (fun _ => true).
Proof.
  intros Hne. unfold insert_into_content_type_body. simpl jsonb_each. cbv iota.
  rewrite insert_loop_eq. simpl append.
  assert (Hn : map (name_item kw) entries <> []) by (destruct entries; [congruence | discriminate]).
  assert (Hv : map value_item entries <> []) by (destruct entries; [congruence | discriminate]).
  pose proof (btrim_terminated_nonempty _ Hn (items_clean _ _ name_item_clean)) as Hn'.
  pose proof (btrim_terminated_nonempty _ Hv (items_clean _ _ value_item_clean)) as Hv'.
  apply String.eqb_neq in Hn', Hv'. rewrite Hn', Hv'. simpl.
  rewrite (btrim_terminated _ Hn (items_clean _ _ name_item_clean)).
  rewrite (btrim_terminated _ Hv (items_clean _ _ value_item_clean)).
  reflexivity.
Qed.

Lemma update_body_eq tn id entries :
  entries <> [] ->
  update_content_type_data_body kw (Some tn) id (Some (JObject entries))
  = Execute (update_text kw tn id entries) (fun row_count => (0 <? row_count)%nat).
Proof.
  intros Hne. unfold update_content_type_data_body. simpl jsonb_each. cbv iota.
  rewrite update_loop_eq. simpl append.
  assert (Hs : map (set_item kw) entries <> []) by (destruct entries; [congruence | discriminate]).
  pose proof (btrim_terminated_nonempty _ Hs (items_clean _ _ set_item_clean)) as Hs'.
  apply String.eqb_neq in Hs'. rewrite Hs'.
  rewrite (btrim_terminated _ Hs (items_clean _ _ set_item_clean)).
  reflexivity.
Qed.

Lemma delete_body_eq tn id :
  delete_content_type_data_body kw (Some tn) id
  = Execute (delete_text kw tn id) (fun row_count => if (0 <? row_count)%nat then true else false).
Proof. reflexivity. Qed.

Lemma create_body_eq tn entries :
  entries <> [] -> forallb type_passes entries = true ->
  create_content_type_body kw (Some tn) (Some (JObject entries))
  = Execute (create_text kw tn entries)
      (fun _ => "Table " ++ quote_ident kw tn
                ++ " created successfully (or already exists)").
Proof.
  intros Hne Hp. unfold create_content_type_body. simpl jsonb_each. cbv iota.
  rewrite (create_loop_passes _ _ Hp). simpl append.
  assert (Hc : btrim (terminated (map (column_item kw) entries)) ", " <> "").
  { apply btrim_starts_clean_nonempty. destruct entries as [|kv rest]; [congruence|].
    simpl. unfold column_item. rewrite append_assoc.
    apply starts_clean_app, quote_ident_starts_clean. }
  apply String.eqb_neq in Hc. rewrite Hc. reflexivity.
Qed.

End WithKeywords.

End BuilderFacts.


(** ** What the functions return *)

Module Outcome.
Import Pg Jsonb Text BuilderFacts.

Section AnyStore.

Variable kw : string -> bool.
Variable store : Type.
Variable execute : store -> string -> exec_result store.

Lemma handler_catches (b : body bool) (st : store) :
  b <> Raise QueryCanceled ->
  caught_unless_canceled execute b st (exception_when_others execute b st).
Proof.
  intros Hb. unfold caught_unless_canceled, exception_when_others.
  destruct b as [a|e|stmt ret]; cbn [run_body statement_of].
  - repeat split; intros; discriminate.
  - repeat split; intros; try discriminate.
    destruct e; try reflexivity. congruence.
  - repeat split; intros; try discriminate.
    + injection H as <-. now rewrite H0.
    + injection H as <-. now rewrite H0.
Qed.

(** The bodies raise their own exceptions and those of the built-ins,
    never a condition that WHEN OTHERS does not match. *)
Lemma insert_body_not_canceled tn data :
  insert_into_content_type_body kw tn data <> Raise QueryCanceled.
Proof.
  unfold insert_into_content_type_body.
  destruct data as [[| | | | |pairs]|]; cbn [jsonb_each]; try discriminate;
    destruct (insert_loop kw _ "" "") as [names values];
    destruct (_ || _); try discriminate;
    destruct tn; discriminate.
Qed.

Lemma update_body_not_canceled tn id data :
  update_content_type_data_body kw tn id data <> Raise QueryCanceled.
Proof.
  unfold update_content_type_data_body.
  destruct data as [[| | | | |pairs]|]; cbn [jsonb_each]; try discriminate;
    destruct (_ =? _); try discriminate;
    destruct tn; discriminate.
Qed.

Lemma delete_body_not_canceled tn id :
  delete_content_type_data_body kw tn id <> Raise QueryCanceled.
Proof. unfold delete_content_type_data_body. destruct tn; discriminate. Qed.

Lemma handler_on_cancel (b : body bool) stmt st st' :
  statement_of b = Some stmt -> execute st stmt = Canceled st' ->
  exception_when_others execute b st = (Raised QueryCanceled, st').
Proof.
  destruct b as [a|e|s ret]; try discriminate. intros [= ->] H.
  unfold exception_when_others. simpl. now rewrite H.
Qed.



Lemma run_on_failure {A : Type} (b : body A) stmt st st' msg :
  statement_of b = Some stmt -> execute st stmt = Failed st' msg ->
  run_body execute b st = (Raised (StoreError msg), st').
Proof.
  destruct b as [a|e|s ret]; try discriminate. intros [= ->] H.
  simpl. now rewrite H.
Qed.



End AnyStore.

(** C4, as the code has it.  In [insert_into_content_type],
    [update_content_type_data] and [delete_content_type_data] every error
    is caught and the function returns false: the error the body raises
    before its statement, with the store as it was, and the failure of
    the statement in the store, with the store as the failed statement
    left it.  What WHEN OTHERS does not match, QUERY_CANCELED and
    ASSERT_FAILURE, leaves the function as raised when it ends the
    statement.  [create_content_type] has no EXCEPTION clause: its own
    exceptions and a failure of the store leave the function as raised. *)
Theorem store_failure_outcome
        (kw : string -> bool) (store : Type)
        (execute : store -> string -> exec_result store) (st : store) :
  (forall tn data,
      caught_unless_canceled execute (insert_into_content_type_body kw tn data) st
        (insert_into_content_type kw execute tn data st))
  /\ (forall tn id data,
         caught_unless_canceled execute
           (update_content_type_data_body kw tn id data) st
           (update_content_type_data kw execute tn id data st))
  /\ (forall tn id,
         caught_unless_canceled execute (delete_content_type_data_body kw tn id) st
           (delete_content_type_data kw execute tn id st))
  /\ (forall tn schema e,
         create_content_type_body kw tn schema = Raise e ->
         create_content_type kw execute tn schema st = (Raised e, st))
  /\ (forall tn schema stmt st' msg,
         statement_of (create_content_type_body kw tn schema) = Some stmt ->
         execute st stmt = Failed st' msg ->
         create_content_type kw execute tn schema st
         = (Raised (StoreError msg), st')).
Proof.
  repeat apply conj; intros.
  - apply handler_catches, insert_body_not_canceled.
  - apply handler_catches, update_body_not_canceled.
  - apply handler_catches, delete_body_not_canceled.
  - unfold create_content_type. now rewrite H.
  - eapply run_on_failure; eassumption.
Qed.

Lemma store_failure_outcome_witness :
  insert_into_content_type Samples.keywords Samples.refusing
    (Some "posts") (Some (JObject [("title", JString "x")])) tt
  = (Returned false, tt)
  /\ insert_into_content_type Samples.keywords Samples.refusing
       None (Some (JObject [("title", JString "x")])) tt
     = (Returned false, tt)
  /\ update_content_type_data Samples.keywords Samples.cancelling
       (Some "posts") (Some 1%Z) (Some (JObject [("title", JString "x")])) tt
     = (Raised QueryCanceled, tt)
  /\ create_content_type Samples.keywords Samples.refusing
       (Some "posts") (Some Samples.blog_schema) tt
     = (Raised (StoreError "connection lost"), tt).
Proof.
  pose proof (store_failure_outcome Samples.keywords unit Samples.refusing tt)
    as (Hins & _ & _ & _ & Hcreate).
  pose proof (store_failure_outcome Samples.keywords unit Samples.cancelling tt)
    as (_ & Hupd & _).
  split; [|split; [|split]].
  - eapply (proj1 (proj2 (Hins _ _))); reflexivity.
  - eapply (proj1 (Hins _ _)); reflexivity.
  - eapply (proj2 (proj2 (Hupd _ _ _))); reflexivity.
  - eapply Hcreate; reflexivity.
Defined.

(** A statement ended by a condition that WHEN OTHERS does not match goes
    through the handler. *)
Lemma cancellation_is_not_caught :
  delete_content_type_data Samples.keywords Samples.cancelling
    (Some "posts") (Some 7%Z) tt
  = (Raised QueryCanceled, tt).
Proof. reflexivity. Qed.

(** C4 as stated fails for create-collection: with a store that refuses
    the statement, [create_content_type] does not return; the failure of
    the store comes out of it as an exception. *)
Lemma create_failure_propagates :
  create_content_type Samples.keywords Samples.refusing
    (Some "posts") (Some Samples.blog_schema) tt
  = (Raised (StoreError "connection lost"), tt).
Proof. reflexivity. Qed.



(** C7.  With an empty update mapping the body is a plain [RETURN FALSE]:
    no statement is built, none is executed, and the store is the one the
    call started from, whatever the store does with statements.  A NULL
    mapping has no entry either and goes the same way. *)
Theorem empty_update_returns_false
        (kw : string -> bool) (tn : option string) (id : option Z) :
  update_content_type_data_body kw tn id (Some (JObject [])) = Return false
  /\ statement_of (update_content_type_data_body kw tn id (Some (JObject []))) = None
  /\ update_content_type_data_body kw tn id None = Return false
  /\ forall (store : Type) (execute : store -> string -> exec_result store) (st : store),
      update_content_type_data kw execute tn id (Some (JObject [])) st
      = (Returned false, st).
Proof. repeat split. Qed.

(** On a store that keeps what it is sent: the empty update sends nothing,
    an update of one column sends its one statement. *)
Example update_statements_sent :
  update_content_type_data Samples.keywords Samples.recording
    (Some "posts") (Some 1%Z) (Some (JObject [])) []
  = (Returned false, [])
  /\ update_content_type_data Samples.keywords Samples.recording
       (Some "posts") (Some 1%Z) (Some (JObject [("views", JNumber 2 0)])) []
     = (Returned true, ["UPDATE posts SET views = '2' WHERE id = 1;"]).
Proof. split; reflexivity. Qed.

End Outcome.


(** ** Validation of types and names *)

Module Validation.
Import Pg Jsonb Text TextFacts BuilderFacts.








(** A type text in lower case is outside the list: the comparison is
    letter for letter. *)
Example lower_case_type_is_refused :
  create_content_type_body Samples.keywords (Some "posts")
    (Some (JObject [("title", Samples.column "text")]))
  = Raise (UnsupportedDataType "text").
Proof. reflexivity. Qed.

(** C9 as stated fails: the empty name is not refused.  [quote_ident]
    turns it into an empty pair of double quotes and the statement is
    built with it. *)
Lemma empty_name_is_quoted :
  format_I Samples.keywords (Some "") = Ok (String Chars.dquote (String Chars.dquote ""))
  /\ statement_of (delete_content_type_data_body Samples.keywords (Some "") (Some 1%Z))
     = Some ("DELETE FROM " ++ String Chars.dquote (String Chars.dquote " WHERE id = 1;")).
Proof. split; reflexivity. Qed.

(** C9, as the code has it.  Sanitization never fails on a name: every
    table name that is not NULL becomes identifier text, the empty name an
    empty pair of double quotes, and the statement is built with it.
    Only a NULL table name stops a function before its statement is
    built. *)
Theorem names_are_never_refused
        (kw : string -> bool) (name : string) (id : option Z)
        (entries : list (string * json)) :
  format_I kw (Some name) = Ok (quote_ident kw name)
  /\ quote_ident kw name <> ""
  /\ quote_ident kw "" = String Chars.dquote (String Chars.dquote "")
  /\ statement_of (delete_content_type_data_body kw (Some name) id)
     = Some (delete_text kw name id)
  /\ (entries <> [] ->
      statement_of (insert_into_content_type_body kw (Some name) (Some (JObject entries)))
      = Some (insert_text kw name entries)
      /\ statement_of (update_content_type_data_body kw (Some name) id
                         (Some (JObject entries)))
         = Some (update_text kw name id entries))
  /\ (entries <> [] -> forallb type_passes entries = true ->
      statement_of (create_content_type_body kw (Some name) (Some (JObject entries)))
      = Some (create_text kw name entries))
  /\ delete_content_type_data_body kw None id = Raise NullIdentifier.
Proof.
  split; [reflexivity|]. split.
  { apply starts_clean_nonempty, quote_ident_starts_clean. }
  split; [reflexivity|]. split; [reflexivity|]. split.
  { intros Hne. rewrite (insert_body_eq kw name entries Hne).
    rewrite (update_body_eq kw name id entries Hne). split; reflexivity. }
  split; [|reflexivity].
  intros Hne Hp. now rewrite (create_body_eq kw name entries Hne Hp).
Qed.

Lemma names_are_never_refused_witness :
  statement_of (insert_into_content_type_body Samples.keywords (Some "")
                  (Some (JObject [("", JNull)])))
  = Some (insert_text Samples.keywords "" [("", JNull)])
  /\ statement_of (create_content_type_body Samples.keywords (Some "")
                     (Some (JObject [("", Samples.column "TEXT")])))
     = Some (create_text Samples.keywords "" [("", Samples.column "TEXT")]).
Proof.
  pose proof (names_are_never_refused Samples.keywords "" None [("", JNull)])
    as (_ & _ & _ & _ & Hins & _ & _).
  pose proof (names_are_never_refused Samples.keywords "" None
                [("", Samples.column "TEXT")])
    as (_ & _ & _ & _ & _ & Hcreate & _).
  split.
  - apply Hins. discriminate.
  - apply Hcreate; [discriminate | reflexivity].
Defined.

End Validation.


(** ** How the store scans the generated text *)

Module ScannerFacts.
Import Chars Pg Jsonb Scanner Tokens Text TextFacts BuilderFacts.

Lemma run_app st a b : run st (a ++ b) = run (run st a) b.
Proof. revert st. induction a as [|c a IH]; intros st; simpl; auto. Qed.

Lemma snoc_app acc c s : snoc acc c ++ s = acc ++ String c s.
Proof. unfold snoc. now rewrite append_assoc. Qed.

Lemma word_char_starts_word ts c :
  is_word_char c = true -> start ts c = mk ts (InWord (String c "")).
Proof.
  destruct c as [[] [] [] [] [] [] [] []]; vm_compute; intros H;
    first [reflexivity | discriminate H].
Qed.

Lemma delimiter_parts c :
  delimiter c = true ->
  is_word_char c = false /\ Ascii.eqb c dquote = false /\ Ascii.eqb c squote = false.
Proof.
  unfold delimiter. intros H. apply andb_prop in H as [H H3].
  apply andb_prop in H as [H1 H2].
  now rewrite negb_true_iff in H1, H2, H3.
Qed.

Lemma ident_char_word_char c : ident_char c = true -> is_word_char c = true.
Proof.
  destruct c as [[] [] [] [] [] [] [] []]; vm_compute; intros H;
    first [reflexivity | discriminate H].
Qed.

Lemma ident_char_lower c : ident_char c = true -> to_lower c = c.
Proof.
  destruct c as [[] [] [] [] [] [] [] []]; vm_compute; intros H;
    first [reflexivity | discriminate H].
Qed.

Lemma ident_chars_word s :
  all_chars ident_char s = true -> all_chars is_word_char s = true.
Proof.
  induction s as [|c s IH]; simpl; [reflexivity|]. intros H.
  apply andb_prop in H as [Hc Hs]. now rewrite (ident_char_word_char c Hc), IH.
Qed.

Lemma ident_chars_lower s : all_chars ident_char s = true -> lower_string s = s.
Proof.
  induction s as [|c s IH]; simpl; [reflexivity|]. intros H.
  apply andb_prop in H as [Hc Hs]. now rewrite (ident_char_lower c Hc), IH.
Qed.

(** *** Words *)

Lemma run_word ts acc w :
  all_chars is_word_char w = true ->
  run (mk ts (InWord acc)) w = mk ts (InWord (acc ++ w)).
Proof.
  revert acc. induction w as [|c w IH]; intros acc H; simpl.
  - now rewrite append_nil_r.
  - simpl in H. apply andb_prop in H as [Hc Hw].
    unfold step. cbn [md toks]. rewrite Hc. rewrite (IH _ Hw). now rewrite snoc_app.
Qed.

Lemma word_open w :
  w <> "" -> all_chars is_word_char w = true -> open_as w [TWord (lower_string w)].
Proof.
  intros Hne Hw ts c rest Hd. destruct w as [|x w]; [congruence|].
  simpl in Hw. apply andb_prop in Hw as [Hx Hw].
  destruct (delimiter_parts c Hd) as (Hc & _ & Hq).
  cbn [append run]. unfold step at 1. cbn [md toks].
  rewrite (word_char_starts_word ts x Hx), run_app, (run_word _ _ _ Hw).
  cbn [run append]. unfold step at 1. cbn [md toks]. now rewrite Hc, Hq.
Qed.

(** *** Quoted names *)

Lemma run_quoted ts acc s :
  run (mk ts (InQuoted acc)) (double_dquotes s) = mk ts (InQuoted (acc ++ s)).
Proof.
  revert acc. induction s as [|c s IH]; intros acc; simpl.
  - now rewrite append_nil_r.
  - destruct (Ascii.eqb c dquote) eqn:E.
    + apply Ascii.eqb_eq in E. subst c. cbn [run]. unfold step at 2. cbn [md toks].
      rewrite Ascii.eqb_refl. unfold step at 1. cbn [md toks].
      rewrite Ascii.eqb_refl, IH. now rewrite snoc_app.
    + cbn [run]. unfold step at 1. cbn [md toks]. rewrite E, IH. now rewrite snoc_app.
Qed.

Lemma quoted_open name :
  open_as (String dquote (double_dquotes name ++ String dquote "")) [TQuoted name].
Proof.
  intros ts c rest Hd. destruct (delimiter_parts c Hd) as (_ & Hq & _).
  cbn [append run]. rewrite append_assoc, run_app.
  change (step (mk ts Default) dquote) with (mk ts (InQuoted "")).
  rewrite run_quoted. cbn [append run].
  unfold step at 2. cbn [md toks]. rewrite Ascii.eqb_refl.
  unfold step at 1. cbn [md toks]. now rewrite Hq.
Qed.

Section WithKeywords.

Variable kw : string -> bool.

(** A name, whatever its characters, scans to its one token. *)
Lemma ident_open name : open_as (quote_ident kw name) [ident_token kw name].
Proof.
  unfold ident_token.
  destruct (quote_ident_cases kw name) as [[Hs ->] | [Hs ->]]; rewrite Hs.
  - destruct (ident_safe_shape kw name Hs) as (c & k' & E & _ & Ha & _).
    rewrite <- (ident_chars_lower name Ha) at 2.
    apply word_open; [rewrite E; discriminate | now apply ident_chars_word].
  - apply quoted_open.
Qed.

End WithKeywords.

(** *** Literals *)

Lemma run_specials_escaped ts acc s :
  run (mk ts (InString true acc)) (double_specials s) = mk ts (InString true (acc ++ s)).
Proof.
  revert acc. induction s as [|c s IH]; intros acc; simpl.
  - now rewrite append_nil_r.
  - destruct (Ascii.eqb c squote) eqn:Eq.
    + apply Ascii.eqb_eq in Eq. subst c. cbn [orb run].
      unfold step at 2. cbn [md toks]. rewrite Ascii.eqb_refl.
      unfold step at 1. cbn [md toks]. rewrite Ascii.eqb_refl, IH.
      now rewrite snoc_app.
    + destruct (Ascii.eqb c backslash) eqn:Eb.
      * apply Ascii.eqb_eq in Eb. subst c. cbn [orb run].
        unfold step at 2. cbn [md toks].
        change (Ascii.eqb backslash squote) with false. cbn [andb].
        rewrite Ascii.eqb_refl.
        unfold step at 1. cbn [md toks].
        change (unescape backslash) with backslash. rewrite IH.
        now rewrite snoc_app.
      * cbn [orb run]. unfold step at 1. cbn [md toks]. rewrite Eq, Eb. cbn [andb].
        rewrite IH. now rewrite snoc_app.
Qed.

Lemma run_specials_plain ts acc s :
  any_char (Ascii.eqb backslash) s = false ->
  run (mk ts (InString false acc)) (double_specials s) = mk ts (InString false (acc ++ s)).
Proof.
  revert acc. induction s as [|c s IH]; intros acc H; simpl.
  - now rewrite append_nil_r.
  - cbn [any_char] in H. apply orb_false_iff in H as [Hb Hs].
    rewrite Ascii.eqb_sym in Hb. rewrite Hb, orb_false_r.
    destruct (Ascii.eqb c squote) eqn:Eq.
    + apply Ascii.eqb_eq in Eq. subst c. cbn [run].
      unfold step at 2. cbn [md toks]. rewrite Ascii.eqb_refl.
      unfold step at 1. cbn [md toks]. rewrite Ascii.eqb_refl, (IH _ Hs).
      now rewrite snoc_app.
    + cbn [run]. unfold step at 1. cbn [md toks]. rewrite Eq. cbn [andb].
      rewrite (IH _ Hs). now rewrite snoc_app.
Qed.

(** A literal, whatever its characters, scans to one string token that
    holds the text that was quoted. *)
Lemma literal_open s : open_as (quote_literal s) [TString s].
Proof.
  intros ts c rest Hd. destruct (delimiter_parts c Hd) as (_ & _ & Hq).
  unfold quote_literal. destruct (any_char (Ascii.eqb backslash) s) eqn:E.
  - cbn [append run]. rewrite append_assoc, !run_app.
    change (step (step (mk ts Default) "E") squote) with (mk ts (InString true "")).
    rewrite run_specials_escaped. cbn [append run].
    unfold step at 2. cbn [md toks]. rewrite Ascii.eqb_refl.
    unfold step at 1. cbn [md toks]. now rewrite Hq.
  - cbn [append run]. rewrite append_assoc, !run_app.
    change (step (mk ts Default) squote) with (mk ts (InString false "")).
    rewrite (run_specials_plain _ _ _ E). cbn [append run].
    unfold step at 2. cbn [md toks]. rewrite Ascii.eqb_refl.
    unfold step at 1. cbn [md toks]. now rewrite Hq.
Qed.

(** *** Putting fragments together *)

Lemma closed_closed a b ta tb :
  closed_as a ta -> closed_as b tb -> closed_as (a ++ b) (ta ++ tb).
Proof.
  intros Ha Hb ts rest. rewrite append_assoc, Ha, Hb.
  now rewrite rev_app_distr, <- app_assoc.
Qed.

Lemma closed_open a b ta tb :
  closed_as a ta -> open_as b tb -> open_as (a ++ b) (ta ++ tb).
Proof.
  intros Ha Hb ts c rest Hd. rewrite append_assoc, Ha, (Hb _ _ _ Hd).
  now rewrite rev_app_distr, <- app_assoc.
Qed.

Lemma open_closed a c b ta tb :
  open_as a ta -> delimiter c = true -> closed_as (String c b) tb ->
  closed_as (a ++ String c b) (ta ++ tb).
Proof.
  intros Ha Hd Hb ts rest. rewrite append_assoc. cbn [append].
  rewrite (Ha _ _ _ Hd). specialize (Hb (rev ta ++ ts)%list rest).
  cbn [append run] in Hb. unfold step at 1 in Hb. cbn [md toks] in Hb.
  rewrite Hb. now rewrite rev_app_distr, <- app_assoc.
Qed.

Lemma open_open a c b ta tb :
  open_as a ta -> delimiter c = true -> open_as (String c b) tb ->
  open_as (a ++ String c b) (ta ++ tb).
Proof.
  intros Ha Hd Hb ts c' rest Hd'. rewrite append_assoc. cbn [append].
  rewrite (Ha _ _ _ Hd). specialize (Hb (rev ta ++ ts)%list c' rest Hd').
  cbn [append run] in Hb. unfold step at 1 in Hb. cbn [md toks] in Hb.
  rewrite Hb. now rewrite rev_app_distr, <- app_assoc.
Qed.

Lemma closed_scan text tk : closed_as text tk -> scan text = Some tk.
Proof.
  intros H. unfold scan. rewrite <- (append_nil_r text), H. cbn [run].
  unfold finish. cbn [md toks]. now rewrite app_nil_r, rev_involutive.
Qed.

(** *** Numbers *)

Lemma digit_word_char c : is_digit c = true -> is_word_char c = true /\ to_lower c = c.
Proof.
  destruct c as [[] [] [] [] [] [] [] []]; vm_compute; intros H;
    first [split; reflexivity | discriminate H].
Qed.

Lemma digits_word s :
  all_chars is_digit s = true -> all_chars is_word_char s = true /\ lower_string s = s.
Proof.
  induction s as [|c s IH]; simpl; [auto|]. intros H.
  apply andb_prop in H as [Hc Hs]. destruct (digit_word_char c Hc) as [Hw Hl].
  destruct (IH Hs) as [Hw' Hl']. now rewrite Hw, Hl, Hw', Hl'.
Qed.

Lemma uint_digits d : all_chars is_digit (NilEmpty.string_of_uint d) = true.
Proof. induction d; simpl; try reflexivity; exact IHd. Qed.

Lemma uint_text_digits d :
  all_chars is_digit (NilZero.string_of_uint d) = true
  /\ NilZero.string_of_uint d <> "".
Proof.
  destruct d; try (split; [apply uint_digits | discriminate]).
  split; [reflexivity | discriminate].
Qed.

Lemma int_out_nonneg z :
  (0 <= z)%Z -> all_chars is_digit (int_out z) = true /\ int_out z <> "".
Proof.
  intros Hz. destruct z as [|p|p]; try lia.
  - split; [reflexivity | discriminate].
  - apply uint_text_digits.
Qed.

Lemma int_out_negative z :
  (z < 0)%Z -> int_out z = String "-" (int_out (Z.abs z)).
Proof. intros Hz. destruct z as [|p|p]; try lia. reflexivity. Qed.

Lemma number_open z :
  (0 <= z)%Z -> open_as (int_out z) [TWord (int_out z)].
Proof.
  intros Hz. destruct (int_out_nonneg z Hz) as [Hd Hne].
  destruct (digits_word _ Hd) as [Hw Hl].
  rewrite <- Hl at 2. now apply word_open.
Qed.

(** *** The four statements *)

Lemma id_text_scans id :
  closed_as (format_s (option_map int_out id) ++ ";") (id_tokens id ++ [TSym ";"%char]).
Proof.
  destruct id as [z|]; [|intros ts rest; reflexivity].
  cbn [option_map format_s id_tokens]. destruct (z <? 0)%Z eqn:E.
  - apply Z.ltb_lt in E. rewrite (int_out_negative z E).
    change (String "-" (int_out (Z.abs z)) ++ ";")
      with ("-" ++ (int_out (Z.abs z) ++ String ";" "")).
    change ([TSym "-"%char; TWord (int_out (Z.abs z))] ++ [TSym ";"%char])%list
      with ([TSym "-"%char] ++ ([TWord (int_out (Z.abs z))] ++ [TSym ";"%char]))%list.
    apply closed_closed; [intros ts rest; reflexivity|].
    apply open_closed; [apply number_open; lia | reflexivity | intros ts rest; reflexivity].
  - apply Z.ltb_ge in E.
    apply open_closed; [now apply number_open | reflexivity | intros ts rest; reflexivity].
Qed.

Lemma where_id_scans id :
  closed_as (" WHERE id = " ++ format_s (option_map int_out id) ++ ";")
            ([TWord "where"; TWord "id"; TSym "="%char] ++ id_tokens id ++ [TSym ";"%char]).
Proof.
  apply closed_closed; [intros ts rest; reflexivity | apply id_text_scans].
Qed.

Lemma separated_open {A : Type} (f : A -> string) (g : A -> list token) (xs : list A) :
  (forall x, open_as (f x) (g x)) -> xs <> [] ->
  open_as (String.concat ", " (map f xs)) (separated (map g xs)).
Proof.
  intros H. induction xs as [|x rest IH]; [congruence|]. intros _.
  destruct rest as [|y rest]; [apply H|].
  change (String.concat ", " (map f (x :: y :: rest)))
    with (f x ++ String "," (" " ++ String.concat ", " (map f (y :: rest)))).
  change (separated (map g (x :: y :: rest)))
    with (g x ++ ([TSym ","%char] ++ separated (map g (y :: rest))))%list.
  apply open_open; [apply H | reflexivity |].
  change (String "," (" " ++ String.concat ", " (map f (y :: rest))))
    with (", " ++ String.concat ", " (map f (y :: rest))).
  apply closed_open; [intros ts r; reflexivity | apply IH; discriminate].
Qed.

Section Statements.

Variable kw : string -> bool.

Lemma name_item_open kv : open_as (name_item kw kv) (name_tokens kw kv).
Proof. apply ident_open. Qed.

Lemma value_item_open kv : open_as (value_item kv) (value_tokens kv).
Proof. apply literal_open. Qed.

Lemma set_item_open kv : open_as (set_item kw kv) (set_tokens kw kv).
Proof.
  unfold set_item, set_tokens.
  change (quote_ident kw (fst kv) ++ " = " ++ quote_literal (jsonb_out (snd kv)))
    with (quote_ident kw (fst kv)
          ++ String " " ("= " ++ quote_literal (jsonb_out (snd kv)))).
  change [ident_token kw (fst kv); TSym "="%char; TString (jsonb_out (snd kv))]
    with ([ident_token kw (fst kv)]
          ++ ([TSym "="%char] ++ [TString (jsonb_out (snd kv))]))%list.
  apply open_open; [apply ident_open | reflexivity |].
  change (String " " ("= " ++ quote_literal (jsonb_out (snd kv))))
    with (" = " ++ quote_literal (jsonb_out (snd kv))).
  apply closed_open; [intros ts r; reflexivity | apply literal_open].
Qed.

Lemma delete_scans tn id : closed_as (delete_text kw tn id) (delete_tokens kw tn id).
Proof.
  unfold delete_text, delete_tokens.
  change ([TWord "delete"; TWord "from"; ident_token kw tn;
           TWord "where"; TWord "id"; TSym "="%char]
          ++ id_tokens id ++ [TSym ";"%char])%list
    with ([TWord "delete"; TWord "from"]
          ++ ([ident_token kw tn]
              ++ ([TWord "where"; TWord "id"; TSym "="%char]
                  ++ id_tokens id ++ [TSym ";"%char])))%list.
  apply closed_closed; [intros ts rest; reflexivity|].
  change (" WHERE id = " ++ format_s (option_map int_out id) ++ ";")
    with (String " " ("WHERE id = " ++ format_s (option_map int_out id) ++ ";")).
  apply open_closed; [apply ident_open | reflexivity | apply where_id_scans].
Qed.

Lemma update_scans tn id entries :
  entries <> [] ->
  closed_as (update_text kw tn id entries) (update_tokens kw tn id entries).
Proof.
  intros Hne. unfold update_text, update_tokens.
  change ([TWord "update"; ident_token kw tn; TWord "set"]
          ++ separated (map (set_tokens kw) entries)
          ++ [TWord "where"; TWord "id"; TSym "="%char]
          ++ id_tokens id ++ [TSym ";"%char])%list
    with ([TWord "update"]
          ++ ([ident_token kw tn]
              ++ ([TWord "set"]
                  ++ (separated (map (set_tokens kw) entries)
                      ++ ([TWord "where"; TWord "id"; TSym "="%char]
                          ++ id_tokens id ++ [TSym ";"%char])))))%list.
  apply closed_closed; [intros ts rest; reflexivity|].
  change (" SET " ++ String.concat ", " (map (set_item kw) entries)
          ++ " WHERE id = " ++ format_s (option_map int_out id) ++ ";")
    with (String " " ("SET " ++ String.concat ", " (map (set_item kw) entries)
          ++ " WHERE id = " ++ format_s (option_map int_out id) ++ ";")).
  apply open_closed; [apply ident_open | reflexivity |].
  change (String " " ("SET " ++ String.concat ", " (map (set_item kw) entries)
          ++ " WHERE id = " ++ format_s (option_map int_out id) ++ ";"))
    with (" SET " ++ (String.concat ", " (map (set_item kw) entries)
          ++ String " " ("WHERE id = " ++ format_s (option_map int_out id) ++ ";"))).
  apply closed_closed; [intros ts rest; reflexivity|].
  apply open_closed; [|reflexivity | apply where_id_scans].
  apply separated_open; [apply set_item_open | exact Hne].
Qed.

Lemma insert_scans tn entries :
  entries <> [] ->
  closed_as (insert_text kw tn entries) (insert_tokens kw tn entries).
Proof.
  intros Hne. unfold insert_text, insert_tokens.
  change ([TWord "insert"; TWord "into"; ident_token kw tn; TSym "("%char]
          ++ separated (map (name_tokens kw) entries)
          ++ [TSym ")"%char; TWord "values"; TSym "("%char]
          ++ separated (map value_tokens entries)
          ++ [TSym ")"%char; TSym ";"%char])%list
    with ([TWord "insert"; TWord "into"]
          ++ ([ident_token kw tn]
              ++ ([TSym "("%char]
                  ++ (separated (map (name_tokens kw) entries)
                      ++ ([TSym ")"%char; TWord "values"; TSym "("%char]
                          ++ (separated (map value_tokens entries)
                              ++ [TSym ")"%char; TSym ";"%char]))))))%list.
  apply closed_closed; [intros ts rest; reflexivity|].
  change (" (" ++ String.concat ", " (map (name_item kw) entries)
          ++ ") VALUES (" ++ String.concat ", " (map value_item entries) ++ ");")
    with (String " " ("(" ++ String.concat ", " (map (name_item kw) entries)
          ++ ") VALUES (" ++ String.concat ", " (map value_item entries) ++ ");")).
  apply open_closed; [apply ident_open | reflexivity |].
  change (String " " ("(" ++ String.concat ", " (map (name_item kw) entries)
          ++ ") VALUES (" ++ String.concat ", " (map value_item entries) ++ ");"))
    with (" (" ++ (String.concat ", " (map (name_item kw) entries)
          ++ String ")" (" VALUES (" ++ String.concat ", " (map value_item entries)
                         ++ ");"))).
  apply closed_closed; [intros ts rest; reflexivity|].
  apply open_closed;
    [apply separated_open; [apply name_item_open | exact Hne] | reflexivity |].
  change (String ")" (" VALUES (" ++ String.concat ", " (map value_item entries) ++ ");"))
    with (") VALUES (" ++ (String.concat ", " (map value_item entries)
                          ++ String ")" ";")).
  apply closed_closed; [intros ts rest; reflexivity|].
  apply open_closed;
    [apply separated_open; [apply value_item_open | exact Hne] | reflexivity |].
  intros ts rest; reflexivity.
Qed.

(** The head of the create statement, whatever the column definitions are. *)
Lemma create_head_scans tn :
  closed_as ("CREATE TABLE IF NOT EXISTS " ++ quote_ident kw tn
             ++ " (id SERIAL PRIMARY KEY, ")
            (create_head kw tn).
Proof.
  unfold create_head.
  change [TWord "create"; TWord "table"; TWord "if"; TWord "not"; TWord "exists";
          ident_token kw tn; TSym "("%char; TWord "id"; TWord "serial";
          TWord "primary"; TWord "key"; TSym ","%char]
    with ([TWord "create"; TWord "table"; TWord "if"; TWord "not"; TWord "exists"]
          ++ ([ident_token kw tn]
              ++ [TSym "("%char; TWord "id"; TWord "serial";
                  TWord "primary"; TWord "key"; TSym ","%char]))%list.
  apply closed_closed; [intros ts rest; reflexivity|].
  apply open_closed; [apply ident_open | reflexivity | intros ts rest; reflexivity].
Qed.

End Statements.

End ScannerFacts.


(** ** How the store parses the generated statements *)

Module ParserFacts.
Import Chars Pg Jsonb Scanner Tokens Text TextFacts BuilderFacts ScannerFacts Store.

Lemma ident_start_name_start c s :
  ident_start c = true -> name_start (String c s) = true.
Proof.
  destruct c as [[] [] [] [] [] [] [] []]; vm_compute; intros H;
    first [reflexivity | discriminate H].
Qed.

Lemma number_of_int_out z : (0 <= z)%Z -> number_of (TWord (int_out z)) = Some z.
Proof.
  intros Hz. destruct z as [|p|p]; try lia; [reflexivity|].
  unfold number_of, int_out. cbn [Z.to_int NilZero.string_of_int].
  rewrite NilZero.usu by apply DecimalPos.Unsigned.to_uint_nonnil.
  cbn [option_map]. unfold Z.of_uint. now rewrite DecimalPos.Unsigned.of_to.
Qed.

Section WithKeywords.

Variable kw : string -> bool.

Lemma clip_kept name : kept_name name -> clip_name name = name.
Proof. intros [_ H]. unfold clip_name. now rewrite H. Qed.

Lemma ident_of_token name :
  kept_name name -> ident_of kw (ident_token kw name) = Some name.
Proof.
  intros Hk. pose proof (clip_kept name Hk) as Hc. destruct Hk as [Hne _].
  unfold ident_token. destruct (ident_safe kw name) eqn:Hs.
  - destruct (ident_safe_shape kw name Hs) as (c & k' & E & Hc' & _ & Hk).
    unfold ident_of. rewrite Hk, Hc. rewrite E at 1.
    now rewrite (ident_start_name_start c k' Hc').
  - destruct name; [congruence|]. unfold ident_of. now rewrite Hc.
Qed.

Lemma ident_of_clipped name :
  name <> "" -> ident_of kw (ident_token kw name) = Some (clip_name name).
Proof.
  intros Hne. unfold ident_token. destruct (ident_safe kw name) eqn:Hs.
  - destruct (ident_safe_shape kw name Hs) as (c & k' & E & Hc' & _ & Hk).
    unfold ident_of. rewrite Hk. rewrite E at 1.
    now rewrite (ident_start_name_start c k' Hc').
  - destruct name; [congruence | reflexivity].
Qed.

Lemma ident_of_empty : ident_of kw (ident_token kw "") = None.
Proof. reflexivity. Qed.

Lemma parse_id_tokens z : parse_id (id_tokens (Some z) ++ [TSym ";"%char]) = Some z.
Proof.
  cbn [id_tokens]. destruct (z <? 0)%Z eqn:E.
  - apply Z.ltb_lt in E. cbn [app parse_id]. cbn [token_eqb sym].
    change (Ascii.eqb "-" "-" && Ascii.eqb ";" ";") with true. cbv iota.
    rewrite number_of_int_out by lia. cbn [option_map]. f_equal. lia.
  - apply Z.ltb_ge in E. cbn [app parse_id]. cbn [token_eqb sym].
    change (Ascii.eqb ";" ";") with true. cbv iota. now apply number_of_int_out.
Qed.

Lemma parse_id_null : parse_id (id_tokens None ++ [TSym ";"%char]) = None.
Proof. reflexivity. Qed.

Lemma sep_list_separated {A B : Type} (item : token -> option B)
      (tok : A -> token) (val : A -> B) (xs : list A) (r : list token) :
  xs <> [] -> (forall x, In x xs -> item (tok x) = Some (val x)) -> not_comma r ->
  sep_list item (separated (map (fun x => [tok x]) xs) ++ r) = Some (map val xs, r).
Proof.
  intros Hne Hitem Hr. induction xs as [|x rest IH]; [congruence|].
  destruct rest as [|y rest].
  - cbn [map separated app sep_list]. rewrite (Hitem x (or_introl eq_refl)).
    destruct r as [|t r]; [reflexivity|].
    change (token_eqb t (sym ",") = false) in Hr. now rewrite Hr.
  - change (separated (map (fun x => [tok x]) (x :: y :: rest)) ++ r)%list
      with (tok x :: TSym ","%char
            :: (separated (map (fun x => [tok x]) (y :: rest)) ++ r))%list.
    cbn [sep_list]. rewrite (Hitem x (or_introl eq_refl)).
    change (token_eqb (TSym ","%char) (sym ",")) with true. cbv iota.
    rewrite IH; [reflexivity | discriminate |].
    intros z Hz. apply Hitem. now right.
Qed.

Lemma parse_sets_separated (entries : list (string * json)) (r : list token) :
  entries <> [] -> Forall (fun kv => kept_name (fst kv)) entries -> not_comma r ->
  parse_sets kw (separated (map (set_tokens kw) entries) ++ r)
  = Some (map (fun kv => (fst kv, jsonb_out (snd kv))) entries, r).
Proof.
  intros Hne Hkeys Hr. induction entries as [|x rest IH]; [congruence|].
  inversion Hkeys as [|? ? Hx Hrest]; subst.
  destruct rest as [|y rest].
  - cbn [map separated set_tokens app parse_sets].
    rewrite (ident_of_token _ Hx).
    change (token_eqb (TSym "="%char) (sym "=")) with true. cbn [string_of].
    destruct r as [|t r]; [reflexivity|].
    change (token_eqb t (sym ",") = false) in Hr. now rewrite Hr.
  - change (separated (map (set_tokens kw) (x :: y :: rest)) ++ r)%list
      with (ident_token kw (fst x) :: TSym "="%char :: TString (jsonb_out (snd x))
            :: TSym ","%char
            :: (separated (map (set_tokens kw) (y :: rest)) ++ r))%list.
    cbn [parse_sets]. rewrite (ident_of_token _ Hx).
    change (token_eqb (TSym "="%char) (sym "=")) with true. cbn [string_of].
    change (token_eqb (TSym ","%char) (sym ",")) with true. cbv iota.
    rewrite IH; [reflexivity | discriminate | exact Hrest].
Qed.

(** The store reads each statement as an operation on the table that has
    exactly the name given, with exactly the columns and the texts given. *)
Lemma parse_delete_tokens tn z :
  kept_name tn -> parse kw (delete_tokens kw tn (Some z)) = Some (SDelete tn z).
Proof.
  intros Hne. unfold delete_tokens. cbn [app parse]. cbn [String.eqb Ascii.eqb Bool.eqb].
  unfold parse_delete. cbn [expect token_eqb sym String.eqb Ascii.eqb Bool.eqb].
  rewrite (ident_of_token _ Hne).
  now rewrite parse_id_tokens.
Qed.

Lemma parse_delete_null tn : parse kw (delete_tokens kw tn None) = None.
Proof.
  unfold delete_tokens. cbn [app parse]. cbn [String.eqb Ascii.eqb Bool.eqb].
  unfold parse_delete. cbn [expect token_eqb sym String.eqb Ascii.eqb Bool.eqb].
  destruct (ident_of kw (ident_token kw tn)); reflexivity.
Qed.

Lemma parse_delete_unnamed id : parse kw (delete_tokens kw "" id) = None.
Proof. reflexivity. Qed.

Lemma parse_update_tokens tn z entries :
  kept_name tn -> entries <> [] -> Forall (fun kv => kept_name (fst kv)) entries ->
  parse kw (update_tokens kw tn (Some z) entries)
  = Some (SUpdate tn (map (fun kv => (fst kv, jsonb_out (snd kv))) entries) z).
Proof.
  intros Hne He Hkeys. unfold update_tokens. cbn [app parse].
  cbn [String.eqb Ascii.eqb Bool.eqb]. unfold parse_update.
  rewrite (ident_of_token _ Hne). cbn [token_eqb String.eqb Ascii.eqb Bool.eqb].
  rewrite (parse_sets_separated entries _ He Hkeys) by reflexivity.
  cbn [app expect token_eqb sym String.eqb Ascii.eqb Bool.eqb].
  now rewrite parse_id_tokens.
Qed.

Lemma parse_insert_tokens tn entries :
  kept_name tn -> entries <> [] -> Forall (fun kv => kept_name (fst kv)) entries ->
  parse kw (insert_tokens kw tn entries)
  = Some (SInsert tn (map fst entries)
                  (map (fun kv => jsonb_out (snd kv)) entries)).
Proof.
  intros Hne He Hkeys. unfold insert_tokens. cbn [app parse].
  cbn [String.eqb Ascii.eqb Bool.eqb]. unfold parse_insert.
  cbn [expect token_eqb String.eqb Ascii.eqb Bool.eqb].
  rewrite (ident_of_token _ Hne). cbn [sym token_eqb Ascii.eqb Bool.eqb].
  unfold name_tokens.
  rewrite (sep_list_separated (ident_of kw) (fun kv => ident_token kw (fst kv)) fst)
    ; [|exact He| |reflexivity].
  2:{ intros x Hx. apply ident_of_token. rewrite Forall_forall in Hkeys. now apply Hkeys. }
  cbn [expect token_eqb sym String.eqb Ascii.eqb Bool.eqb]. unfold value_tokens.
  rewrite (sep_list_separated string_of (fun kv => TString (jsonb_out (snd kv)))
             (fun kv => jsonb_out (snd kv)))
    ; [|exact He| |reflexivity].
  2:{ intros x _. reflexivity. }
  reflexivity.
Qed.

End WithKeywords.

End ParserFacts.


(** ** Names and values in the statement text *)

Module Shape.
Import Chars Pg Jsonb Scanner Tokens Text TextFacts BuilderFacts ScannerFacts.
Import Store ParserFacts.

Lemma column_name_scans kw name v ts rest :
  run (mk ts Default) (column_item kw (name, v) ++ rest)
  = run (mk (ident_token kw name :: ts) Default)
        (format_s (get_text v "type") ++ " "
         ++ coalesce (get_text v "constraints") "" ++ rest).
Proof.
  unfold column_item. cbn [fst snd]. assoc_right.
  now rewrite (ident_open kw name ts " "%char _ eq_refl).
Qed.

Lemma odd_name_is_quoted kw name :
  any_char (fun c => negb (ident_char c)) name = true ->
  ident_token kw name = TQuoted name
  /\ quote_ident kw name = String dquote (double_dquotes name ++ String dquote "").
Proof.
  intros Hodd. assert (Hs : ident_safe kw name = false).
  { destruct (ident_safe kw name) eqn:Hs; [|reflexivity].
    destruct (ident_safe_shape kw name Hs) as (c & k' & _ & _ & Ha & _).
    exfalso. clear Hs. induction name as [|x name IH]; [discriminate|].
    cbn [any_char all_chars] in Hodd, Ha. apply andb_prop in Ha as [Hx Ha].
    rewrite Hx in Hodd. cbn [negb orb] in Hodd. now apply IH. }
  unfold ident_token, quote_ident. now rewrite Hs.
Qed.

(** C2 as stated fails for numbers, booleans and null: they are quoted
    like every other value, and the JSON null becomes the quoted word. *)
Lemma number_boolean_null_are_quoted :
  statement_of
    (insert_into_content_type_body Samples.keywords (Some "posts")
       (Some (JObject [("views", JNumber 100 0); ("draft", JBool true);
                       ("note", JNull)])))
  = Some "INSERT INTO posts (views, draft, note) VALUES ('100', 'true', 'null');".
Proof. reflexivity. Qed.

(** C2, as the code has it.  Every value of an insert or an update, of
    whatever JSON kind, is written as [quote_literal] of its JSON text:
    one literal between single quotes, its single quotes and backslashes
    doubled, which the store scans back to exactly that JSON text.  A
    number and a boolean are quoted too, and the JSON null is the quoted
    word. *)
Theorem value_is_one_quoted_literal
        (kw : string -> bool) (tn : string) (id : option Z)
        (entries : list (string * json)) :
  (forall kv, value_item kv = quote_literal (jsonb_out (snd kv))
              /\ open_as (value_item kv) [TString (jsonb_out (snd kv))])
  /\ (forall k b, value_item (k, JNull) = "'null'"
                  /\ value_item (k, JBool b) = if b then "'true'" else "'false'")
  /\ (entries <> [] ->
      statement_of (insert_into_content_type_body kw (Some tn) (Some (JObject entries)))
      = Some (insert_text kw tn entries)
      /\ scan (insert_text kw tn entries) = Some (insert_tokens kw tn entries)
      /\ statement_of (update_content_type_data_body kw (Some tn) id
                         (Some (JObject entries)))
         = Some (update_text kw tn id entries)
      /\ scan (update_text kw tn id entries) = Some (update_tokens kw tn id entries)).
Proof.
  split.
  { intros kv. split; [reflexivity | apply literal_open]. }
  split.
  { intros k b. split; [reflexivity | now destruct b]. }
  intros Hne.
  rewrite (insert_body_eq kw tn entries Hne), (update_body_eq kw tn id entries Hne).
  repeat split.
  - now apply closed_scan, insert_scans.
  - now apply closed_scan, update_scans.
Qed.

Lemma value_is_one_quoted_literal_witness :
  scan (update_text Samples.keywords "posts" (Some 1%Z)
          [("title", JString "it's"); ("views", JNumber 100 0)])
  = Some [TWord "update"; TWord "posts"; TWord "set";
          TWord "title"; TSym "="%char;
          TString (String dquote ("it's" ++ String dquote ""));
          TSym ","%char; TWord "views"; TSym "="%char; TString "100";
          TWord "where"; TWord "id"; TSym "="%char; TWord "1"; TSym ";"%char].
Proof.
  pose proof (value_is_one_quoted_literal Samples.keywords "posts" (Some 1%Z)
                [("title", JString "it's"); ("views", JNumber 100 0)])
    as (_ & _ & H).
  destruct H as (_ & _ & _ & H); [discriminate|]. exact H.
Defined.

End Shape.


(** ** The functions on the store *)

Module StoreFacts.
Import Chars Pg Jsonb Scanner Tokens Text TextFacts BuilderFacts ScannerFacts.
Import Store ParserFacts Plain.

(** *** The scanner only adds tokens *)






(** *** Creating twice *)


Section Executor.

Variable kw : string -> bool.
Variable input : sqltype -> string -> option value.





End Executor.

End StoreFacts.


(** ** Creating a table of columns without constraints *)

Module CreateFacts.
Import Chars Pg Jsonb Scanner Tokens Text TextFacts BuilderFacts ScannerFacts.
Import Store ParserFacts Plain StoreFacts.

#[local] Arguments mem : simpl never.

Lemma terminated_plain items : terminated items = terminated_with ", " items.
Proof. induction items as [|x rest IH]; simpl; [reflexivity | now rewrite IH]. Qed.

Lemma rtrim_terminated_with sep items :
  all_chars (fun c => mem c ", ") sep = true ->
  items <> [] ->
  Forall (fun x => starts_clean x = true /\ ends_clean x = true) items ->
  rtrim (terminated_with sep items) ", " = String.concat sep items.
Proof.
  intros Hsep. induction items as [|x rest IH]; [congruence|].
  intros _ Hall. inversion Hall as [|? ? [Hs He] Hrest]; subst.
  destruct rest as [|y rest].
  - cbn [terminated_with String.concat]. rewrite append_nil_r.
    rewrite rtrim_app_trimmed by exact Hsep. now apply ends_clean_rtrim.
  - change (terminated_with sep (x :: y :: rest))
      with (x ++ sep ++ terminated_with sep (y :: rest)).
    assert (Hne : rtrim (terminated_with sep (y :: rest)) ", " <> "").
    { rewrite IH by (congruence || assumption).
      inversion Hrest as [|? ? [Hy _] _]; subst.
      destruct rest; cbn [String.concat].
      - now apply starts_clean_nonempty.
      - intros E. apply append_empty in E as [E _].
        now apply starts_clean_nonempty in Hy. }
    rewrite <- append_assoc, rtrim_app_kept by exact Hne.
    rewrite IH by (congruence || assumption).
    rewrite append_assoc. reflexivity.
Qed.

Lemma btrim_terminated_with sep items :
  all_chars (fun c => mem c ", ") sep = true ->
  items <> [] ->
  Forall (fun x => starts_clean x = true /\ ends_clean x = true) items ->
  btrim (terminated_with sep items) ", " = String.concat sep items.
Proof.
  intros Hsep Hne Hall. unfold btrim.
  destruct items as [|x rest]; [congruence|].
  inversion Hall as [|? ? [Hs _] _]; subst.
  destruct x as [|c x]; [discriminate|].
  assert (Hl : ltrim (terminated_with sep (String c x :: rest)) ", "
               = terminated_with sep (String c x :: rest)).
  { simpl in Hs. simpl. destruct (mem c ", "); [discriminate | reflexivity]. }
  rewrite Hl. now apply rtrim_terminated_with.
Qed.

(** *** What a plain entry is *)

Lemma supported_cases type :
  existsb (String.eqb type) supported_types = true ->
  type = "TEXT" \/ type = "INTEGER" \/ type = "BOOLEAN" \/ type = "TIMESTAMP"
  \/ type = "DATE" \/ type = "NUMERIC" \/ type = "JSONB".
Proof.
  intros H. apply existsb_exists in H as (x & Hin & Heq).
  apply String.eqb_eq in Heq. subst x. simpl in Hin. intuition auto.
Qed.

Lemma plain_column_inv kv c :
  plain_column kv = Some c ->
  exists type ty,
    get_text (snd kv) "type" = Some type
    /\ coalesce (get_text (snd kv) "constraints") "" = ""
    /\ existsb (String.eqb type) supported_types = true
    /\ type_of_word (lower_string type) = Some ty
    /\ c = {| col_name := fst kv; col_type := ty;
              col_not_null := false; col_default := None |}.
Proof.
  unfold plain_column, type_of_text.
  destruct (get_text (snd kv) "type") as [type|]; [|discriminate].
  destruct (coalesce (get_text (snd kv) "constraints") "") eqn:Hc; [|discriminate].
  destruct (existsb (String.eqb type) supported_types) eqn:Hs; [|discriminate].
  destruct (type_of_word (lower_string type)) as [ty|] eqn:Ht; [|discriminate].
  intros [= <-]. exists type, ty. auto 10.
Qed.

Lemma columns_of_cons kv rest cols :
  columns_of (kv :: rest) = Some cols ->
  exists c cs, plain_column kv = Some c /\ columns_of rest = Some cs /\ cols = c :: cs.
Proof.
  cbn [columns_of]. destruct (plain_column kv) as [c|]; [|discriminate].
  destruct (columns_of rest) as [cs|]; [|discriminate].
  intros [= <-]. eauto.
Qed.




Section WithKeywords.

Variable kw : string -> bool.

Lemma plain_item_clean kv c :
  plain_column kv = Some c ->
  starts_clean (plain_item kw kv) = true /\ ends_clean (plain_item kw kv) = true.
Proof.
  intros Hc. destruct (plain_column_inv _ _ Hc) as (type & ty & Ht & _ & Hs & _ & _).
  unfold plain_item. rewrite Ht. cbn [format_s]. split.
  - apply starts_clean_app, quote_ident_starts_clean.
  - destruct (supported_cases _ Hs) as [->|[->|[->|[->|[->|[->| ->]]]]]];
      rewrite ends_clean_app by discriminate; reflexivity.
Qed.

Lemma plain_item_open kv c :
  plain_column kv = Some c -> open_as (plain_item kw kv) (plain_tokens kw kv).
Proof.
  intros Hc. destruct (plain_column_inv _ _ Hc) as (type & ty & Ht & _ & Hs & _ & _).
  unfold plain_item, plain_tokens. rewrite Ht. cbn [format_s].
  change [ident_token kw (fst kv); TWord (lower_string type)]
    with ([ident_token kw (fst kv)] ++ ([] ++ [TWord (lower_string type)]))%list.
  change (quote_ident kw (fst kv) ++ " " ++ type)
    with (quote_ident kw (fst kv) ++ String " " type).
  apply open_open; [apply ident_open | reflexivity |].
  change (String " " type) with (" " ++ type).
  apply closed_open; [intros ts r; reflexivity|].
  destruct (supported_cases _ Hs) as [->|[->|[->|[->|[->|[->| ->]]]]]];
    apply word_open; (discriminate || reflexivity).
Qed.

Lemma column_items_plain entries cols :
  columns_of entries = Some cols ->
  terminated (map (column_item kw) entries)
  = terminated_with " , " (map (plain_item kw) entries).
Proof.
  revert cols. induction entries as [|kv rest IH]; intros cols H; [reflexivity|].
  destruct (columns_of_cons _ _ _ H) as (c & cs & Hc & Hcs & ->).
  destruct (plain_column_inv _ _ Hc) as (type & ty & Ht & Hcons & _).
  cbn [map terminated terminated_with]. rewrite (IH _ Hcs).
  unfold column_item, plain_item. rewrite Hcons. now assoc_right.
Qed.

Lemma plain_items_clean entries cols :
  columns_of entries = Some cols ->
  Forall (fun x => starts_clean x = true /\ ends_clean x = true)
         (map (plain_item kw) entries).
Proof.
  revert cols. induction entries as [|kv rest IH]; intros cols H; [constructor|].
  destruct (columns_of_cons _ _ _ H) as (c & cs & Hc & Hcs & ->).
  cbn [map]. constructor; [exact (plain_item_clean kv c Hc) | exact (IH _ Hcs)].
Qed.

Lemma plain_items_open entries cols :
  columns_of entries = Some cols -> entries <> [] ->
  open_as (String.concat " , " (map (plain_item kw) entries))
          (separated (map (plain_tokens kw) entries)).
Proof.
  revert cols. induction entries as [|kv rest IH]; intros cols H Hne; [congruence|].
  destruct (columns_of_cons _ _ _ H) as (c & cs & Hc & Hcs & ->).
  destruct rest as [|kv' rest]; [exact (plain_item_open kv c Hc)|].
  change (String.concat " , " (map (plain_item kw) (kv :: kv' :: rest)))
    with (plain_item kw kv
          ++ String " " (", " ++ String.concat " , " (map (plain_item kw) (kv' :: rest)))).
  change (separated (map (plain_tokens kw) (kv :: kv' :: rest)))
    with (plain_tokens kw kv
          ++ ([TSym ","%char] ++ separated (map (plain_tokens kw) (kv' :: rest))))%list.
  apply open_open; [exact (plain_item_open kv c Hc) | reflexivity |].
  change (String " " (", " ++ String.concat " , " (map (plain_item kw) (kv' :: rest))))
    with (" , " ++ String.concat " , " (map (plain_item kw) (kv' :: rest))).
  apply closed_open; [intros ts r; reflexivity|].
  apply (IH _ Hcs). discriminate.
Qed.

Lemma create_text_plain tn entries cols :
  columns_of entries = Some cols -> entries <> [] ->
  create_text kw tn entries
  = ("CREATE TABLE IF NOT EXISTS " ++ quote_ident kw tn ++ " (id SERIAL PRIMARY KEY, ")
    ++ String.concat " , " (map (plain_item kw) entries) ++ ");".
Proof.
  intros H Hne. unfold create_text. rewrite (column_items_plain _ _ H).
  rewrite btrim_terminated_with;
    [| reflexivity | destruct entries; [congruence | discriminate]
     | exact (plain_items_clean _ _ H)].
  now assoc_right.
Qed.

Lemma create_scans tn entries cols :
  columns_of entries = Some cols -> entries <> [] ->
  scan (create_text kw tn entries) = Some (create_tokens kw tn entries).
Proof.
  intros H Hne. rewrite (create_text_plain _ _ _ H Hne).
  apply closed_scan. unfold create_tokens.
  apply closed_closed; [apply create_head_scans|].
  change (String.concat " , " (map (plain_item kw) entries) ++ ");")
    with (String.concat " , " (map (plain_item kw) entries) ++ String ")" ";").
  apply open_closed;
    [exact (plain_items_open _ _ H Hne) | reflexivity | intros ts r; reflexivity].
Qed.








End WithKeywords.

End CreateFacts.


(** ** Names in the statements *)

Module Names.
Import Chars Pg Jsonb Scanner Tokens Text TextFacts BuilderFacts ScannerFacts.
Import Store ParserFacts Plain StoreFacts CreateFacts.

(** C1 as stated fails for the statement of create-collection.  The
    constraints text of a column goes into the statement as it is; when
    it leaves a literal open, the quoted name of the next column is read
    from inside that literal: the single quote in the name closes the
    literal, and what follows in the name is scanned as tokens of the
    statement, here the end of the table definition and a command of its
    own. *)
Lemma name_inside_open_literal :
  let text :=
    "CREATE TABLE IF NOT EXISTS t (id SERIAL PRIMARY KEY, a TEXT DEFAULT ', "
    ++ String dquote ("x'); drop table users cascade; select ('"
                      ++ String dquote " TEXT ');") in
    statement_of
      (create_content_type_body Samples.keywords (Some "t")
         (Some (JObject
                  [("a", JObject [("type", JString "TEXT");
                                  ("constraints", JString "DEFAULT '")]);
                   ("x'); drop table users cascade; select ('",
                    JObject [("type", JString "TEXT");
                             ("constraints", JString "'")])])))
    = Some text
    /\ scan text
       = Some [TWord "create"; TWord "table"; TWord "if"; TWord "not";
               TWord "exists"; TWord "t"; TSym "("%char; TWord "id";
               TWord "serial"; TWord "primary"; TWord "key"; TSym ","%char;
               TWord "a"; TWord "text"; TWord "default";
               TString (", " ++ String dquote "x"); TSym ")"%char; TSym ";"%char;
               TWord "drop"; TWord "table"; TWord "users"; TWord "cascade";
               TSym ";"%char;
               TWord "select"; TSym "("%char; TString (String dquote " TEXT ");
               TSym ")"%char; TSym ";"%char].
Proof. split; reflexivity. Qed.

(** C1, as the code has it.  [quote_ident] of a name, whatever characters
    the name holds, scans to the single token of that name wherever the
    scanner reaches it outside any token; a name with a quote, a
    semicolon or any character outside [a-z0-9_] is always between
    double quotes.  The store reads the token as the name cut to 63
    bytes: as the name itself when it is not empty and has at most 63
    bytes.  The statements that delete, update and insert are sent as
    built and scan to their fixed sequence of tokens, with one token for
    the table name and one for each column name.  The statement of
    create-collection is sent as built and scans to its fixed head with
    one token for the table name; the whole statement scans to its fixed
    sequence, with one token for each column name, when every column of
    the schema has a supported type and no constraints text. *)
Theorem name_is_one_token (kw : string -> bool) (name : string) :
  open_as (quote_ident kw name) [ident_token kw name]
  /\ (name <> "" -> ident_of kw (ident_token kw name) = Some (clip_name name))
  /\ (kept_name name -> ident_of kw (ident_token kw name) = Some name)
  /\ (any_char (fun c => negb (ident_char c)) name = true ->
      ident_token kw name = TQuoted name
      /\ quote_ident kw name
         = String dquote (double_dquotes name ++ String dquote ""))
  /\ (forall id,
         statement_of (delete_content_type_data_body kw (Some name) id)
         = Some (delete_text kw name id)
         /\ scan (delete_text kw name id) = Some (delete_tokens kw name id))
  /\ (forall entries id,
         entries <> [] ->
         statement_of (update_content_type_data_body kw (Some name) id
                         (Some (JObject entries)))
         = Some (update_text kw name id entries)
         /\ scan (update_text kw name id entries)
            = Some (update_tokens kw name id entries))
  /\ (forall entries,
         entries <> [] ->
         statement_of (insert_into_content_type_body kw (Some name)
                         (Some (JObject entries)))
         = Some (insert_text kw name entries)
         /\ scan (insert_text kw name entries) = Some (insert_tokens kw name entries))
  /\ (forall entries,
         entries <> [] -> forallb type_passes entries = true ->
         statement_of (create_content_type_body kw (Some name)
                         (Some (JObject entries)))
         = Some (create_text kw name entries)
         /\ exists defs,
             create_text kw name entries
             = ("CREATE TABLE IF NOT EXISTS " ++ quote_ident kw name
                ++ " (id SERIAL PRIMARY KEY, ") ++ defs
             /\ closed_as ("CREATE TABLE IF NOT EXISTS " ++ quote_ident kw name
                           ++ " (id SERIAL PRIMARY KEY, ")
                          (create_head kw name))
  /\ (forall entries cols,
         entries <> [] -> columns_of entries = Some cols ->
         scan (create_text kw name entries) = Some (create_tokens kw name entries)).
Proof.
  split; [apply ident_open|].
  split; [apply ident_of_clipped|].
  split; [apply ident_of_token|].
  split; [apply Shape.odd_name_is_quoted|].
  split.
  { intros id. rewrite delete_body_eq. split; [reflexivity|].
    apply closed_scan, delete_scans. }
  split.
  { intros entries id Hne. rewrite (update_body_eq kw name id entries Hne).
    split; [reflexivity|]. now apply closed_scan, update_scans. }
  split.
  { intros entries Hne. rewrite (insert_body_eq kw name entries Hne).
    split; [reflexivity|]. now apply closed_scan, insert_scans. }
  split.
  { intros entries Hne Hp. rewrite (create_body_eq kw name entries Hne Hp).
    split; [reflexivity|].
    exists (btrim (terminated (map (column_item kw) entries)) ", " ++ ");"). split.
    - unfold create_text. now rewrite !append_assoc.
    - apply create_head_scans. }
  intros entries cols Hne Hc. exact (create_scans kw name entries cols Hc Hne).
Qed.

Lemma name_is_one_token_witness :
  ident_of Samples.keywords (ident_token Samples.keywords Samples.hostile_name)
  = Some Samples.hostile_name
  /\ (statement_of (delete_content_type_data_body Samples.keywords
                      (Some Samples.hostile_name) (Some 7%Z))
      = Some (delete_text Samples.keywords Samples.hostile_name (Some 7%Z))
      /\ scan (delete_text Samples.keywords Samples.hostile_name (Some 7%Z))
         = Some [TWord "delete"; TWord "from"; TQuoted Samples.hostile_name;
                 TWord "where"; TWord "id"; TSym "="%char; TWord "7"; TSym ";"%char])
  /\ scan (create_text Samples.keywords "t"
             [(Samples.hostile_name, Samples.column "TEXT")])
     = Some (create_tokens Samples.keywords "t"
               [(Samples.hostile_name, Samples.column "TEXT")]).
Proof.
  pose proof (name_is_one_token Samples.keywords Samples.hostile_name)
    as (_ & _ & Hid & _ & Hdel & _).
  pose proof (name_is_one_token Samples.keywords "t")
    as (_ & _ & _ & _ & _ & _ & _ & _ & Hcreate).
  split; [|split].
  - apply Hid. split; [discriminate | reflexivity].
  - exact (Hdel (Some 7%Z)).
  - apply (Hcreate [(Samples.hostile_name, Samples.column "TEXT")]
                   [ {| col_name := Samples.hostile_name; col_type := TEXT;
                        col_not_null := false; col_default := None |} ]);
      [discriminate | reflexivity].
Defined.

(** A name of more than 63 bytes is cut: two such names that agree on
    their first 63 bytes are the same name for the store. *)
Example long_names_are_cut :
  ident_of Samples.keywords
    (ident_token Samples.keywords
       "a123456789012345678901234567890123456789012345678901234567890123456789")
  = Some "a12345678901234567890123456789012345678901234567890123456789012"
  /\ ident_of Samples.keywords
       (ident_token Samples.keywords
          "a12345678901234567890123456789012345678901234567890123456789012zzz")
     = Some "a12345678901234567890123456789012345678901234567890123456789012".
Proof. split; reflexivity. Qed.

End Names.


(** ** Creating a collection *)

Module Creation.
Import Chars Pg Jsonb Scanner Tokens Text TextFacts BuilderFacts ScannerFacts.
Import Store ParserFacts Plain StoreFacts CreateFacts.





(** Two column names of more than 63 bytes that agree on their first 63
    bytes are one name for the store, which refuses the definitions. *)
Example long_column_names_collide :
  create_content_type Samples.keywords (execute Samples.keywords basic_input)
    (Some "notes")
    (Some (JObject
             [("c23456789012345678901234567890123456789012345678901234567890123_a",
               Samples.column "TEXT");
              ("c23456789012345678901234567890123456789012345678901234567890123_b",
               Samples.column "TEXT")])) []
  = (Raised (StoreError "column definitions refused"), []).
Proof. reflexivity. Qed.



(** On a store without the table: the first call creates it, the second
    call leaves it as it is. *)
Example create_then_create :
  exists st1,
    create_content_type Samples.keywords (execute Samples.keywords basic_input)
      (Some "notes") (Some (JObject [("title", Samples.column "TEXT")])) []
    = (Returned "Table notes created successfully (or already exists)", st1)
    /\ find_table "notes" st1
       = Some (new_table [ {| col_name := "title"; col_type := TEXT;
                              col_not_null := false; col_default := None |} ])
    /\ create_content_type Samples.keywords (execute Samples.keywords basic_input)
         (Some "notes") (Some (JObject [("title", Samples.column "TEXT")])) st1
       = (Returned "Table notes created successfully (or already exists)", st1).
Proof. eexists. repeat split. Qed.




End Creation.


(** ** Inserting a record and reading it back *)

Module Insertion.
Import Chars Pg Jsonb Scanner Tokens Text TextFacts BuilderFacts ScannerFacts.
Import Store ParserFacts Plain StoreFacts CreateFacts Further.

Lemma distinct_head x l : distinct (x :: l) = true -> ~ In x l /\ distinct l = true.
Proof.
  cbn [distinct]. intros H. apply andb_prop in H as [H1 H2]. split; [|exact H2].
  intros Hin. apply negb_true_iff in H1.
  assert (E : existsb (String.eqb x) l = true).
  { apply existsb_exists. exists x. split; [exact Hin | apply String.eqb_refl]. }
  congruence.
Qed.

Lemma find_set_table name t t' st :
  find_table name st = Some t -> find_table name (set_table name t' st) = Some t'.
Proof.
  induction st as [|[n t0] st IH]; [discriminate|]. cbn [find_table set_table].
  destruct (n =? name) eqn:E.
  - intros _. cbn [find_table]. now rewrite E.
  - intros H. cbn [find_table]. rewrite E. now apply IH.
Qed.



Lemma assoc_absent {A : Type} k (l : list (string * A)) :
  ~ In k (map fst l) -> assoc k l = None.
Proof.
  induction l as [|[k' a] l IH]; [reflexivity|]. cbn [map fst assoc]. intros H.
  destruct (k' =? k) eqn:E.
  - apply String.eqb_eq in E. subst. exfalso. apply H. now left.
  - apply IH. intros Hin. apply H. now right.
Qed.

Section Executor.

Variable kw : string -> bool.
Variable input : sqltype -> string -> option value.


Lemma convert_entries t entries :
  Forall (fun kv => read_entry input t kv <> None) entries ->
  exists given,
    convert input t (map fst entries) (map (fun kv => jsonb_out (snd kv)) entries)
    = Some given
    /\ Forall2 (read_as input t) entries given.
Proof.
  induction entries as [|kv rest IH]; intros H.
  - exists []. split; [reflexivity | constructor].
  - inversion H as [|? ? Hkv Hrest]; subst.
    destruct (IH Hrest) as (given & Hc & Hf).
    destruct (read_entry input t kv) as [x|] eqn:Hr; [|congruence].
    pose proof Hr as Hr'. unfold read_entry in Hr'.
    destruct (type_of_column t (fst kv)) as [ty|] eqn:Hty; [|discriminate].
    exists ((fst kv, x) :: given). split.
    + cbn [map convert]. now rewrite Hty, Hr', Hc.
    + constructor; [|exact Hf]. split; [reflexivity | exact Hr].
Qed.

Lemma given_names t entries given :
  Forall2 (read_as input t) entries given -> map fst given = map fst entries.
Proof.
  induction 1 as [|kv g entries given [Hk _] _ IH]; [reflexivity|].
  cbn [map]. now rewrite Hk, IH.
Qed.

Lemma assoc_given t entries given kv :
  Forall2 (read_as input t) entries given -> distinct (map fst entries) = true ->
  In kv entries -> assoc (fst kv) given = read_entry input t kv.
Proof.
  induction 1 as [|kv0 [k0 x0] entries given [Hk Hr] Hf IH]; intros Hd Hin; [destruct Hin|].
  cbn [map] in Hd. apply distinct_head in Hd as [Hnot Hd].
  cbn [fst snd] in Hk, Hr. subst k0. cbn [assoc].
  destruct Hin as [<- | Hin].
  - now rewrite String.eqb_refl, Hr.
  - destruct (fst kv0 =? fst kv) eqn:E.
    + apply String.eqb_eq in E. exfalso. apply Hnot. rewrite E. now apply in_map.
    + now apply IH.
Qed.



End Executor.


(** A string stored in a text column comes back as its JSON text, double
    quotes included: the literal of the statement is the quoted JSON
    text, and the text column keeps it as it is. *)
Lemma string_in_text_column :
  exists st' r,
    insert_into_content_type Samples.keywords (execute Samples.keywords basic_input)
      (Some "stats") (Some (JObject [("label", JString "new"); ("views", JNumber 1 0)]))
      Samples.stats_store
    = (Returned true, st')
    /\ lookup st' "stats" 1 = Some r
    /\ field_of r "label"
       = Some (VText (String Chars.dquote ("new" ++ String Chars.dquote ""))).
Proof. eexists. eexists. repeat split. Qed.



(** What the store reads for a record of a string, a number and a
    boolean: the string with its JSON double quotes, the number and the
    boolean as passed. *)
Example inserted_row_fields :
  map (read_entry basic_input Samples.notes_table)
      [("title", JString "new"); ("views", JNumber 100 0); ("active", JBool true)]
  = [Some (VText (String Chars.dquote ("new" ++ String Chars.dquote "")));
     Some (VInt 100); Some (VBool true)].
Proof. reflexivity. Qed.

End Insertion.

(** ** The example queries of readme.md, and the other statements on the store *)

Module Operations.
Import Chars Pg Jsonb Scanner Tokens Text TextFacts BuilderFacts ScannerFacts.
Import Store ParserFacts Plain StoreFacts.

(** The create query of readme.md builds this statement and, on a store
    without the table, creates it. *)
Example readme_create :
  statement_of (create_content_type_body Samples.keywords (Some "blog_posts")
                  (Some Samples.readme_schema))
  = Some ("CREATE TABLE IF NOT EXISTS blog_posts (id SERIAL PRIMARY KEY, "
          ++ "title TEXT NOT NULL, views INTEGER DEFAULT 0, content JSONB NOT NULL);")
  /\ forall input,
      input INTEGER "0" <> None ->
      create_content_type Samples.keywords (execute Samples.keywords input)
        (Some "blog_posts") (Some Samples.readme_schema) []
      = (Returned "Table blog_posts created successfully (or already exists)",
         Samples.readme_store).
Proof.
  split; [reflexivity|]. intros input H.
  unfold create_content_type. cbn [run_body create_content_type_body].
  vm_compute. destruct (input INTEGER "0"); [reflexivity | congruence].
Qed.

(** The insert query of readme.md names a column, [published], that the
    table of the create query does not have: whatever the input functions
    of the store, the statement fails and the function returns false. *)
Example readme_insert (input : sqltype -> string -> option value) :
  insert_into_content_type Samples.keywords (execute Samples.keywords input)
    (Some "blog_posts") (Some Samples.readme_record) Samples.readme_store
  = (Returned false, Samples.readme_store).
Proof.
  vm_compute.
  destruct (input TEXT _); [|reflexivity].
  destruct (input JSONB _); reflexivity.
Qed.

Section Executor.

Variable kw : string -> bool.
Variable input : sqltype -> string -> option value.

Lemma execute_delete tn z st :
  kept_name tn ->
  execute kw input st (delete_text kw tn (Some z)) = exec_delete tn z st.
Proof.
  intros Hn. unfold execute.
  rewrite (closed_scan _ _ (delete_scans kw tn (Some z))).
  now rewrite (parse_delete_tokens kw tn z Hn).
Qed.

Lemma execute_update tn z entries st :
  kept_name tn -> entries <> [] -> Forall (fun kv => kept_name (fst kv)) entries ->
  execute kw input st (update_text kw tn (Some z) entries)
  = exec_update input tn (map (fun kv => (fst kv, jsonb_out (snd kv))) entries) z st.
Proof.
  intros Hn Hne Hk. unfold execute.
  rewrite (closed_scan _ _ (update_scans kw tn (Some z) entries Hne)).
  now rewrite (parse_update_tokens kw tn z entries Hn Hne Hk).
Qed.

(** A delete returns true exactly when the table has a row of that [id]. *)
Lemma delete_on_store tn z st t :
  kept_name tn -> find_table tn st = Some t ->
  exists st',
    delete_content_type_data kw (execute kw input) (Some tn) (Some z) st
    = (Returned (0 <? count_rows t z)%nat, st')
    /\ lookup st' tn z = None.
Proof.
  intros Hn Hf. eexists. unfold delete_content_type_data.
  rewrite delete_body_eq. unfold exception_when_others, run_body.
  rewrite (execute_delete tn z st Hn). unfold exec_delete. rewrite Hf. split.
  - now destruct (0 <? count_rows t z)%nat.
  - unfold lookup. rewrite (Insertion.find_set_table tn t _ st Hf).
    unfold find_row. cbn [tbl_rows].
    induction (tbl_rows t) as [|r rows IH]; [reflexivity|].
    cbn [filter]. destruct (row_id r =? z)%Z eqn:E; cbn [negb]; [exact IH|].
    cbn [find]. now rewrite E.
Qed.

(** The empty table name reaches the store, which refuses the zero-length
    name: the statement fails and the function returns false. *)
Lemma unnamed_table_is_refused id st :
  delete_content_type_data kw (execute kw input) (Some "") id st
  = (Returned false, st).
Proof.
  unfold delete_content_type_data. rewrite delete_body_eq.
  unfold exception_when_others, run_body, execute.
  rewrite (closed_scan _ _ (delete_scans kw "" id)).
  now rewrite parse_delete_unnamed.
Qed.

(** A delete without an [id] builds [WHERE id = ;], which the store
    refuses. *)
Lemma delete_of_null_id_is_refused tn st :
  delete_content_type_data kw (execute kw input) (Some tn) None st
  = (Returned false, st).
Proof.
  unfold delete_content_type_data. rewrite delete_body_eq.
  unfold exception_when_others, run_body, execute.
  rewrite (closed_scan _ _ (delete_scans kw tn None)).
  now rewrite parse_delete_null.
Qed.

End Executor.

End Operations.


(** ** When a statement is sent, and what the store reads in it *)

Module Statements.
Import Chars Pg Jsonb Scanner Tokens Text TextFacts BuilderFacts ScannerFacts.
Import Store ParserFacts Plain Further.

Lemma create_loop_first kw entries defs :
  create_loop kw entries defs
  = match first_unsupported entries with
    | Some t => Err (UnsupportedDataType t)
    | None => Ok (defs ++ terminated (map (column_item kw) entries))
    end.
Proof.
  revert defs. induction entries as [|[k v] rest IH]; intros defs.
  - simpl. now rewrite append_nil_r.
  - cbn [create_loop first_unsupported]. unfold type_passes at 1. cbn [snd].
    destruct (if_true (not_in (get_text v "type") supported_types)); cbn [negb].
    + reflexivity.
    + rewrite IH. destruct (first_unsupported rest); [reflexivity|].
      unfold column_item. cbn [map terminated fst snd]. now assoc_right.
Qed.

Lemma first_unsupported_none entries :
  first_unsupported entries = None -> forallb type_passes entries = true.
Proof.
  induction entries as [|kv rest IH]; [reflexivity|]. cbn [first_unsupported forallb].
  destruct (type_passes kv); [exact IH | discriminate].
Qed.

Lemma create_body_cases (kw : string -> bool) (tn : option string) (schema : option json) :
  create_content_type_body kw tn schema
  = match jsonb_each schema with
    | Err e => Raise e
    | Ok entries =>
        match first_unsupported entries, entries, tn with
        | Some t, _, _ => Raise (UnsupportedDataType t)
        | None, [], _ => Raise SchemaWithoutColumn
        | None, _ :: _, None => Raise NullIdentifier
        | None, _ :: _, Some name =>
            Execute (create_text kw name entries)
                    (fun _ => success_text (quote_ident kw name))
        end
    end.
Proof.
  destruct (jsonb_each schema) as [entries|e] eqn:Hj.
  - destruct (first_unsupported entries) as [t|] eqn:Hf.
    + unfold create_content_type_body. rewrite Hj, create_loop_first, Hf. reflexivity.
    + destruct entries as [|kv rest].
      * unfold create_content_type_body. rewrite Hj. reflexivity.
      * destruct tn as [name|].
        -- destruct schema as [[| | | | |pairs]|]; try discriminate.
           injection Hj as ->.
           apply create_body_eq; [discriminate | now apply first_unsupported_none].
        -- unfold create_content_type_body. rewrite Hj, create_loop_first, Hf.
           cbn [append].
           assert (Hc : btrim (terminated (map (column_item kw) (kv :: rest))) ", " <> "").
           { apply btrim_starts_clean_nonempty. cbn [map terminated].
             unfold column_item. rewrite append_assoc.
             apply starts_clean_app, quote_ident_starts_clean. }
           apply String.eqb_neq in Hc. rewrite Hc. reflexivity.
  - unfold create_content_type_body. now rewrite Hj.
Qed.

(** [create_content_type] stops, in this order, at a schema that is no
    object, at the first column whose type text is not supported, at a
    schema without a column, at a NULL table name; in every other case it
    sends one statement.  When it stops, it raises and the store is the
    one the call started from. *)
Theorem create_stops_in_order
        (kw : string -> bool) (tn : option string) (schema : option json) :
  create_content_type_body kw tn schema
  = match jsonb_each schema with
    | Err e => Raise e
    | Ok entries =>
        match first_unsupported entries, entries, tn with
        | Some t, _, _ => Raise (UnsupportedDataType t)
        | None, [], _ => Raise SchemaWithoutColumn
        | None, _ :: _, None => Raise NullIdentifier
        | None, _ :: _, Some name =>
            Execute (create_text kw name entries)
                    (fun _ => success_text (quote_ident kw name))
        end
    end
  /\ (statement_of (create_content_type_body kw tn schema) = None ->
      forall (store : Type) (execute : store -> string -> exec_result store)
             (st : store),
      exists e, create_content_type kw execute tn schema st = (Raised e, st)).
Proof.
  pose proof (create_body_cases kw tn schema) as H.
  split; [exact H|].
  intros Hs store execute st. unfold create_content_type.
  destruct (create_content_type_body kw tn schema) as [a|e|stmt ret] eqn:Hb.
  - exfalso. clear Hs. rewrite H in Hb.
    destruct (jsonb_each schema) as [entries|]; [|discriminate].
    destruct (first_unsupported entries); [discriminate|].
    destruct entries; [discriminate|]. destruct tn; discriminate.
  - exists e. reflexivity.
  - discriminate.
Qed.

Lemma create_stops_in_order_witness :
  exists e,
    create_content_type Samples.keywords (execute Samples.keywords basic_input)
      (Some "posts") (Some (JObject [("title", Samples.column "TEXT");
                                     ("rank", Samples.column "FLOAT")]))
      Samples.stats_store
    = (Raised e, Samples.stats_store).
Proof.
  apply (proj2 (create_stops_in_order Samples.keywords (Some "posts")
                  (Some (JObject [("title", Samples.column "TEXT");
                                  ("rank", Samples.column "FLOAT")])))).
  reflexivity.
Defined.

Lemma insert_body_cases (kw : string -> bool) (tn : option string) (data : option json) :
  insert_into_content_type_body kw tn data
  = match jsonb_each data with
    | Err e => Raise e
    | Ok [] => Raise DataWithoutColumn
    | Ok (kv :: rest) =>
        match tn with
        | None => Raise NullIdentifier
        | Some name => Execute (insert_text kw name (kv :: rest)) (fun _ => true)
        end
    end.
Proof.
  destruct (jsonb_each data) as [[|kv rest]|e] eqn:Hj.
  - unfold insert_into_content_type_body. now rewrite Hj.
  - destruct tn as [name|].
    + destruct data as [[| | | | |pairs]|]; try discriminate.
      injection Hj as ->. apply insert_body_eq. discriminate.
    + unfold insert_into_content_type_body. rewrite Hj, insert_loop_eq.
      cbn [append].
      assert (Hn : map (name_item kw) (kv :: rest) <> []) by discriminate.
      assert (Hv : map value_item (kv :: rest) <> []) by discriminate.
      pose proof (btrim_terminated_nonempty _ Hn (items_clean _ _ (name_item_clean kw))) as Hn'.
      pose proof (btrim_terminated_nonempty _ Hv (items_clean _ _ value_item_clean)) as Hv'.
      apply String.eqb_neq in Hn', Hv'. rewrite Hn', Hv'. reflexivity.
  - unfold insert_into_content_type_body. now rewrite Hj.
Qed.

(** [insert_into_content_type] sends a statement exactly when the data is
    an object of at least one pair and the table name is not NULL; the
    statement lists the quoted names and the quoted values in the order of
    the pairs, without the trailing separator.  In every other case
    (NULL or empty data, data that is no object, NULL table name) it
    returns false and the store is the one the call started from. *)
Theorem insert_sends_or_declines
        (kw : string -> bool) (tn : option string) (data : option json) :
  insert_into_content_type_body kw tn data
  = match jsonb_each data with
    | Err e => Raise e
    | Ok [] => Raise DataWithoutColumn
    | Ok (kv :: rest) =>
        match tn with
        | None => Raise NullIdentifier
        | Some name => Execute (insert_text kw name (kv :: rest)) (fun _ => true)
        end
    end
  /\ (statement_of (insert_into_content_type_body kw tn data) = None ->
      forall (store : Type) (execute : store -> string -> exec_result store)
             (st : store),
        insert_into_content_type kw execute tn data st = (Returned false, st)).
Proof.
  pose proof (insert_body_cases kw tn data) as H.
  split; [exact H|].
  intros Hs store execute st. unfold insert_into_content_type, exception_when_others.
  destruct (insert_into_content_type_body kw tn data) as [a|e|stmt ret] eqn:Hb.
  - exfalso. clear Hs. rewrite H in Hb.
    destruct (jsonb_each data) as [[|? ?]|]; try discriminate. destruct tn; discriminate.
  - cbn [run_body]. destruct e; try reflexivity.
    exfalso. exact (Outcome.insert_body_not_canceled kw tn data Hb).
  - discriminate.
Qed.

Lemma insert_sends_or_declines_witness :
  insert_into_content_type Samples.keywords (execute Samples.keywords basic_input)
    (Some "stats") (Some (JArray [JNumber 1 0])) Samples.stats_store
  = (Returned false, Samples.stats_store).
Proof.
  apply (proj2 (insert_sends_or_declines Samples.keywords (Some "stats")
                  (Some (JArray [JNumber 1 0])))).
  reflexivity.
Defined.

Lemma update_body_cases (kw : string -> bool) (tn : option string) (id : option Z) (update_data : option json) :
  update_content_type_data_body kw tn id update_data
  = match jsonb_each update_data with
    | Err e => Raise e
    | Ok [] => Return false
    | Ok (kv :: rest) =>
        match tn with
        | None => Raise NullIdentifier
        | Some name =>
            Execute (update_text kw name id (kv :: rest))
                    (fun row_count => (0 <? row_count)%nat)
        end
    end.
Proof.
  destruct (jsonb_each update_data) as [[|kv rest]|e] eqn:Hj.
  - unfold update_content_type_data_body. now rewrite Hj.
  - destruct tn as [name|].
    + destruct update_data as [[| | | | |pairs]|]; try discriminate.
      injection Hj as ->. apply update_body_eq. discriminate.
    + unfold update_content_type_data_body. rewrite Hj, update_loop_eq.
      cbn [append].
      assert (Hs : map (set_item kw) (kv :: rest) <> []) by discriminate.
      pose proof (btrim_terminated_nonempty _ Hs (items_clean _ _ (set_item_clean kw))) as Hs'.
      apply String.eqb_neq in Hs'. rewrite Hs'. reflexivity.
  - unfold update_content_type_data_body. now rewrite Hj.
Qed.

(** [update_content_type_data] sends a statement exactly when the update
    data is an object of at least one pair and the table name is not
    NULL; in every other case it returns false and the store is the one
    the call started from. *)
Theorem update_sends_or_declines
        (kw : string -> bool) (tn : option string) (id : option Z)
        (update_data : option json) :
  update_content_type_data_body kw tn id update_data
  = match jsonb_each update_data with
    | Err e => Raise e
    | Ok [] => Return false
    | Ok (kv :: rest) =>
        match tn with
        | None => Raise NullIdentifier
        | Some name =>
            Execute (update_text kw name id (kv :: rest))
                    (fun row_count => (0 <? row_count)%nat)
        end
    end
  /\ (statement_of (update_content_type_data_body kw tn id update_data) = None ->
      forall (store : Type) (execute : store -> string -> exec_result store)
             (st : store),
        update_content_type_data kw execute tn id update_data st
        = (Returned false, st)).
Proof.
  pose proof (update_body_cases kw tn id update_data) as H.
  split; [exact H|].
  intros Hs store execute st. unfold update_content_type_data, exception_when_others.
  destruct (update_content_type_data_body kw tn id update_data) as [a|e|stmt ret] eqn:Hb.
  - destruct (jsonb_each update_data) as [[|? ?]|]; try discriminate H.
    + injection H as ->. reflexivity.
    + destruct tn; discriminate H.
  - cbn [run_body]. destruct e; try reflexivity.
    exfalso. exact (Outcome.update_body_not_canceled kw tn id update_data Hb).
  - discriminate.
Qed.

Lemma update_sends_or_declines_witness :
  update_content_type_data Samples.keywords (execute Samples.keywords basic_input)
    None (Some 1%Z) (Some (JObject [("views", JNumber 1 0)])) Samples.stats_store
  = (Returned false, Samples.stats_store).
Proof.
  apply (proj2 (update_sends_or_declines Samples.keywords None (Some 1%Z)
                  (Some (JObject [("views", JNumber 1 0)])))).
  reflexivity.
Defined.

End Statements.


(** ** Rows of a table under delete and update *)

Module Rows.
Import Chars Pg Jsonb Scanner Tokens Text TextFacts BuilderFacts ScannerFacts.
Import Store ParserFacts Plain StoreFacts Further.

Lemma table_eta t :
  {| tbl_columns := tbl_columns t; tbl_rows := tbl_rows t;
     tbl_next_id := tbl_next_id t |} = t.
Proof. now destruct t. Qed.

Lemma set_table_same name t st :
  find_table name st = Some t -> set_table name t st = st.
Proof.
  induction st as [|[n t0] st IH]; [reflexivity|]. cbn [find_table set_table].
  destruct (n =? name).
  - now intros [= ->].
  - intros H. now rewrite (IH H).
Qed.

Lemma find_table_set_other name name' t st :
  name' <> name -> find_table name' (set_table name t st) = find_table name' st.
Proof.
  intros Hne. induction st as [|[n t0] st IH]; [reflexivity|]. cbn [set_table].
  destruct (n =? name) eqn:E; cbn [find_table].
  - apply String.eqb_eq in E. subst n.
    apply String.eqb_neq in Hne. rewrite String.eqb_sym in Hne. now rewrite Hne.
  - now rewrite IH.
Qed.

Lemma count_rows_positive t z :
  (0 <? count_rows t z)%nat = true <-> find_row t z <> None.
Proof.
  unfold count_rows, find_row. induction (tbl_rows t) as [|r rows IH]; cbn [filter find].
  - split; [discriminate | congruence].
  - destruct (row_id r =? z)%Z; [|exact IH]. split; [discriminate | reflexivity].
Qed.

Lemma filter_keeps_all (rows : list row) z :
  find (fun r => (row_id r =? z)%Z) rows = None ->
  filter (fun r => negb (row_id r =? z)%Z) rows = rows.
Proof.
  induction rows as [|r rows IH]; [reflexivity|]. cbn [find filter].
  destruct (row_id r =? z)%Z; [discriminate|]. cbn [negb]. intros H. now rewrite (IH H).
Qed.

Lemma find_after_filter (rows : list row) z z' :
  z' <> z ->
  find (fun r => (row_id r =? z')%Z) (filter (fun r => negb (row_id r =? z)%Z) rows)
  = find (fun r => (row_id r =? z')%Z) rows.
Proof.
  intros Hne. induction rows as [|r rows IH]; [reflexivity|]. cbn [filter find].
  destruct (row_id r =? z)%Z eqn:E; cbn [negb].
  - apply Z.eqb_eq in E. rewrite E.
    assert (E' : (z =? z')%Z = false) by (apply Z.eqb_neq; congruence).
    now rewrite E'.
  - cbn [find]. now rewrite IH.
Qed.

Lemma find_own_after_filter (rows : list row) z :
  find (fun r => (row_id r =? z)%Z) (filter (fun r => negb (row_id r =? z)%Z) rows)
  = None.
Proof.
  induction rows as [|r rows IH]; [reflexivity|]. cbn [filter].
  destruct (row_id r =? z)%Z eqn:E; cbn [negb]; [exact IH|]. cbn [find]. now rewrite E.
Qed.

End Rows.


(** ** Delete and update on the store *)

Module Changes.
Import Chars Pg Jsonb Scanner Tokens Text TextFacts BuilderFacts ScannerFacts.
Import Store ParserFacts Plain StoreFacts Further Rows.

Lemma sets_names (entries : list (string * json)) :
  map fst (map (fun kv => (fst kv, jsonb_out (snd kv))) entries) = map fst entries.
Proof. induction entries as [|kv rest IH]; [reflexivity|]. cbn [map fst]. now rewrite IH. Qed.

Lemma sets_values (entries : list (string * json)) :
  map snd (map (fun kv => (fst kv, jsonb_out (snd kv))) entries)
  = map (fun kv => jsonb_out (snd kv)) entries.
Proof. induction entries as [|kv rest IH]; [reflexivity|]. cbn [map snd]. now rewrite IH. Qed.

Lemma update_keeps_id given z r :
  assoc "id" given = None -> row_id (update_row given z r) = row_id r.
Proof.
  intros H. unfold update_row. destruct (row_id r =? z)%Z; [|reflexivity].
  cbn [row_id]. now rewrite H.
Qed.

Lemma update_keeps_ids given z rows :
  assoc "id" given = None -> map row_id (map (update_row given z) rows) = map row_id rows.
Proof.
  intros H. induction rows as [|r rows IH]; [reflexivity|]. cbn [map].
  now rewrite IH, (update_keeps_id given z r H).
Qed.

Lemma find_after_map (f : row -> row) rows z :
  (forall r, row_id (f r) = row_id r) ->
  find (fun r => (row_id r =? z)%Z) (map f rows)
  = option_map f (find (fun r => (row_id r =? z)%Z) rows).
Proof.
  intros Hf. induction rows as [|r rows IH]; [reflexivity|]. cbn [map find].
  rewrite Hf. destruct (row_id r =? z)%Z; [reflexivity | exact IH].
Qed.

Lemma update_leaves_others given z rows :
  find (fun r => (row_id r =? z)%Z) rows = None -> map (update_row given z) rows = rows.
Proof.
  induction rows as [|r rows IH]; [reflexivity|]. cbn [find map]. unfold update_row at 1.
  destruct (row_id r =? z)%Z; [discriminate|]. intros H. now rewrite (IH H).
Qed.

Lemma assoc_updated (given : list (string * value)) c
      (fields : list (string * option value)) :
  assoc c (map (fun f => match assoc (fst f) given with
                         | Some v => (fst f, Some v)
                         | None => f
                         end) fields)
  = match assoc c fields with
    | Some old => Some (match assoc c given with Some v => Some v | None => old end)
    | None => None
    end.
Proof.
  induction fields as [|[k a] fields IH]; [reflexivity|]. cbn [map fst].
  destruct (k =? c) eqn:E.
  - apply String.eqb_eq in E. subst k.
    destruct (assoc c given); cbn [assoc]; now rewrite String.eqb_refl.
  - destruct (assoc k given); cbn [assoc]; rewrite E; exact IH.
Qed.

Section Executor.

Variable kw : string -> bool.
Variable input : sqltype -> string -> option value.

Lemma parse_sets_rest (entries : list (string * json)) (r : list token) :
  entries <> [] -> not_comma r ->
  match parse_sets kw (separated (map (set_tokens kw) entries) ++ r) with
  | Some (_, r') => r' = r
  | None => True
  end.
Proof.
  intros Hne Hr. induction entries as [|x rest IH]; [congruence|].
  destruct rest as [|y rest].
  - cbn [map separated set_tokens app parse_sets].
    destruct (ident_of kw (ident_token kw (fst x))); [|exact I].
    change (token_eqb (TSym "="%char) (sym "=")) with true. cbn [string_of].
    destruct r as [|t r]; [reflexivity|].
    change (token_eqb t (sym ",") = false) in Hr. now rewrite Hr.
  - change (separated (map (set_tokens kw) (x :: y :: rest)) ++ r)%list
      with (ident_token kw (fst x) :: TSym "="%char :: TString (jsonb_out (snd x))
            :: TSym ","%char
            :: (separated (map (set_tokens kw) (y :: rest)) ++ r))%list.
    cbn [parse_sets]. destruct (ident_of kw (ident_token kw (fst x))); [|exact I].
    change (token_eqb (TSym "="%char) (sym "=")) with true. cbn [string_of].
    change (token_eqb (TSym ","%char) (sym ",")) with true. cbv iota.
    assert (IH' := IH ltac:(discriminate)).
    destruct (parse_sets kw _) as [[l r']|]; [exact IH' | exact I].
Qed.

Lemma parse_update_null tn entries :
  entries <> [] -> parse kw (update_tokens kw tn None entries) = None.
Proof.
  intros Hne. unfold update_tokens. cbn [app parse].
  cbn [String.eqb Ascii.eqb Bool.eqb]. unfold parse_update.
  destruct (ident_of kw (ident_token kw tn)); [|reflexivity].
  cbn [token_eqb String.eqb Ascii.eqb Bool.eqb].
  pose proof (parse_sets_rest entries
                ([TWord "where"; TWord "id"; TSym "="%char]
                 ++ id_tokens None ++ [TSym ";"%char])%list Hne eq_refl) as H.
  destruct (parse_sets kw _) as [[sets r']|]; [|reflexivity].
  subst r'. reflexivity.
Qed.

Lemma update_without_id tn data st :
  update_content_type_data kw (execute kw input) tn None data st = (Returned false, st).
Proof.
  unfold update_content_type_data.
  pose proof (Outcome.update_body_not_canceled kw tn None data) as Hc.
  rewrite Statements.update_body_cases in *.
  destruct (jsonb_each data) as [[|kv rest]|e].
  - reflexivity.
  - destruct tn as [name|]; [|reflexivity].
    unfold exception_when_others, run_body, execute.
    rewrite (closed_scan _ _ (update_scans kw name None (kv :: rest) ltac:(discriminate))).
    rewrite parse_update_null by discriminate. reflexivity.
  - unfold exception_when_others, run_body.
    destruct e; try reflexivity. exfalso. now apply Hc.
Qed.

Lemma delete_without_id tn st :
  delete_content_type_data kw (execute kw input) tn None st = (Returned false, st).
Proof.
  destruct tn as [name|]; [|reflexivity].
  apply Operations.delete_of_null_id_is_refused.
Qed.

Lemma delete_of_row tn z st t :
  kept_name tn -> find_table tn st = Some t ->
  delete_content_type_data kw (execute kw input) (Some tn) (Some z) st
  = (Returned (0 <? count_rows t z)%nat,
     set_table tn
       {| tbl_columns := tbl_columns t;
          tbl_rows := filter (fun r => negb (row_id r =? z)%Z) (tbl_rows t);
          tbl_next_id := tbl_next_id t |} st).
Proof.
  intros Hn Hf. unfold delete_content_type_data.
  rewrite delete_body_eq. unfold exception_when_others, run_body.
  rewrite (Operations.execute_delete kw input tn z st Hn). unfold exec_delete. rewrite Hf.
  now destruct (0 <? count_rows t z)%nat.
Qed.

Lemma delete_without_table tn z st :
  kept_name tn -> find_table tn st = None ->
  delete_content_type_data kw (execute kw input) (Some tn) (Some z) st
  = (Returned false, st).
Proof.
  intros Hn Hf. unfold delete_content_type_data.
  rewrite delete_body_eq. unfold exception_when_others, run_body.
  rewrite (Operations.execute_delete kw input tn z st Hn). unfold exec_delete.
  now rewrite Hf.
Qed.

Lemma update_of_row tn z st t entries given :
  kept_name tn -> entries <> [] -> Forall (fun kv => kept_name (fst kv)) entries ->
  find_table tn st = Some t ->
  distinct (map fst entries) = true ->
  convert input t (map fst entries) (map (fun kv => jsonb_out (snd kv)) entries)
  = Some given ->
  assoc "id" given = None ->
  table_ok t ->
  update_content_type_data kw (execute kw input) (Some tn) (Some z)
    (Some (JObject entries)) st
  = (Returned (0 <? count_rows t z)%nat,
     set_table tn
       {| tbl_columns := tbl_columns t;
          tbl_rows := map (update_row given z) (tbl_rows t);
          tbl_next_id := tbl_next_id t |} st).
Proof.
  intros Hn Hne Hk Hf Hd Hc Hid Hok. unfold update_content_type_data.
  rewrite (update_body_eq kw tn (Some z) entries Hne).
  unfold exception_when_others, run_body.
  rewrite (Operations.execute_update kw input tn z entries st Hn Hne Hk).
  unfold exec_update. rewrite Hf, sets_names, sets_values, Hd. cbn [negb].
  rewrite Hc. unfold id_value_ok. rewrite Hid.
  rewrite (update_keeps_ids given z _ Hid). unfold table_ok in Hok. rewrite Hok.
  reflexivity.
Qed.

End Executor.

(** Without an [id] (SQL NULL), [format] leaves [WHERE id = ;] in the
    statement of the update and of the delete; the store refuses it, and the
    function returns false with the store as it was, whatever the table name
    and the data. *)
Theorem null_id_changes_nothing
        (kw : string -> bool) (input : sqltype -> string -> option value)
        (tn : option string) (data : option json) (st : store) :
  update_content_type_data kw (execute kw input) tn None data st = (Returned false, st)
  /\ delete_content_type_data kw (execute kw input) tn None st = (Returned false, st).
Proof. split; [apply update_without_id | apply delete_without_id]. Qed.

(** [delete_content_type_data] on a store whose tables are all as
    [create_content_type] makes them from schemas without constraints
    text, so that no table refers to another, with a table name that is
    not empty and has at most 63 bytes.  For a table that does not exist
    the function returns false and changes nothing.  For a table that
    exists it returns true exactly when the table has a row of that [id];
    afterwards no row of that [id] is left, every other row of the table
    and every other table are as before, and when no row had the [id] the
    store is unchanged. *)
Theorem delete_removes_the_row
        (kw : string -> bool) (input : sqltype -> string -> option value)
        (st : store) (tn : string) (z : Z) :
  kept_name tn ->
  plain_store st ->
  (find_table tn st = None ->
   delete_content_type_data kw (execute kw input) (Some tn) (Some z) st
   = (Returned false, st))
  /\ (forall t, find_table tn st = Some t ->
      exists b st',
        delete_content_type_data kw (execute kw input) (Some tn) (Some z) st
        = (Returned b, st')
        /\ (b = true <-> find_row t z <> None)
        /\ lookup st' tn z = None
        /\ (forall z', z' <> z -> lookup st' tn z' = lookup st tn z')
        /\ (forall tn', tn' <> tn -> find_table tn' st' = find_table tn' st)
        /\ (find_row t z = None -> st' = st)).
Proof.
  intros Hn _. split; [now apply delete_without_table|].
  intros t Hf. eexists. eexists. split; [exact (delete_of_row kw input tn z st t Hn Hf)|].
  split; [apply count_rows_positive|]. split; [|split; [|split]].
  - unfold lookup. rewrite (Insertion.find_set_table tn t _ st Hf).
    unfold find_row. cbn [tbl_rows]. apply find_own_after_filter.
  - intros z' Hz. unfold lookup. rewrite (Insertion.find_set_table tn t _ st Hf), Hf.
    unfold find_row. cbn [tbl_rows]. now apply find_after_filter.
  - intros tn' Ht. now apply find_table_set_other.
  - intros Hnone. unfold find_row in Hnone. rewrite (filter_keeps_all _ _ Hnone).
    rewrite table_eta. now apply set_table_same.
Qed.

Lemma delete_removes_the_row_witness :
  exists b st',
    delete_content_type_data Samples.keywords (execute Samples.keywords basic_input)
      (Some "notes") (Some 1%Z) noted_store
    = (Returned b, st')
    /\ (b = true <-> find_row notes_rows 1 <> None)
    /\ lookup st' "notes" 1 = None
    /\ (forall z', z' <> 1%Z -> lookup st' "notes" z' = lookup noted_store "notes" z')
    /\ (forall tn', tn' <> "notes" -> find_table tn' st' = find_table tn' noted_store)
    /\ (find_row notes_rows 1 = None -> st' = noted_store).
Proof.
  apply (delete_removes_the_row Samples.keywords basic_input noted_store "notes" 1).
  - split; [discriminate | reflexivity].
  - constructor; [|constructor]. exists Samples.notes_entries. reflexivity.
  - reflexivity.
Defined.

(** [update_content_type_data] on a table that is as
    [create_content_type] makes it from a schema without constraints
    text, so that it has no constraint but the primary key on [id].  The
    table name and the column names of the update data are not empty and
    have at most 63 bytes; the update data is an object whose column
    names differ from one another and from [id], and whose values the
    store can read for their columns; the rows of the table have distinct
    ids.  The function returns true exactly when the table has a row of
    that [id].  Afterwards that row has the same [id]; each column of the
    update data that the row has holds what the store read from the
    quoted JSON text, and every other column is as before.  Every other
    row and every other table are as before, and when no row had the [id]
    the store is unchanged. *)
Theorem update_changes_the_row
        (kw : string -> bool) (input : sqltype -> string -> option value)
        (st : store) (tn : string) (t : table) (z : Z)
        (entries : list (string * json)) :
  kept_name tn -> entries <> [] ->
  find_table tn st = Some t ->
  plain_table t ->
  table_ok t ->
  distinct (map fst entries) = true ->
  Forall (fun kv => kept_name (fst kv) /\ fst kv <> "id") entries ->
  Forall (fun kv => read_entry input t kv <> None) entries ->
  exists b st',
    update_content_type_data kw (execute kw input) (Some tn) (Some z)
      (Some (JObject entries)) st
    = (Returned b, st')
    /\ (b = true <-> find_row t z <> None)
    /\ (forall r, find_row t z = Some r ->
        exists r',
          lookup st' tn z = Some r'
          /\ row_id r' = z
          /\ (forall kv, In kv entries -> assoc (fst kv) (row_fields r) <> None ->
              field_of r' (fst kv) = read_entry input t kv)
          /\ (forall c, ~ In c (map fst entries) -> field_of r' c = field_of r c))
    /\ (forall z', z' <> z -> lookup st' tn z' = lookup st tn z')
    /\ (forall tn', tn' <> tn -> find_table tn' st' = find_table tn' st)
    /\ (find_row t z = None -> st' = st).
Proof.
  intros Hn Hne Hf _ Hok Hd Hnames Hread.
  assert (Hk : Forall (fun kv => kept_name (fst kv)) entries).
  { eapply Forall_impl; [|exact Hnames]. now intros kv [H _]. }
  assert (Hid : Forall (fun kv => fst kv <> "id") entries).
  { eapply Forall_impl; [|exact Hnames]. now intros kv [_ H]. }
  destruct (Insertion.convert_entries input t entries Hread) as (given & Hconv & Hg).
  assert (Hnoid : assoc "id" given = None).
  { apply Insertion.assoc_absent. rewrite (Insertion.given_names input t entries given Hg).
    intros Hin. apply in_map_iff in Hin as (kv & Hkv & Hin).
    rewrite Forall_forall in Hid. now apply (Hid kv Hin). }
  eexists. eexists.
  split; [exact (update_of_row kw input tn z st t entries given
                   Hn Hne Hk Hf Hd Hconv Hnoid Hok)|].
  split; [apply count_rows_positive|]. split; [|split; [|split]].
  - intros r Hr. exists (update_row given z r).
    unfold find_row in Hr. destruct (find_some _ _ Hr) as [_ Hz].
    split; [|split; [|split]].
    + unfold lookup. rewrite (Insertion.find_set_table tn t _ st Hf).
      unfold find_row. cbn [tbl_rows].
      rewrite find_after_map by (intros r0; now apply update_keeps_id).
      now rewrite Hr.
    + rewrite (update_keeps_id given z r Hnoid). now apply Z.eqb_eq.
    + intros kv Hin Hhas. unfold field_of, update_row. rewrite Hz. cbn [row_fields].
      rewrite assoc_updated.
      destruct (assoc (fst kv) (row_fields r)) as [old|]; [|congruence].
      rewrite (Insertion.assoc_given input t entries given kv Hg Hd Hin).
      destruct (read_entry input t kv) eqn:E; [reflexivity|].
      rewrite Forall_forall in Hread. now destruct (Hread kv Hin).
    + intros c Hc. unfold field_of, update_row. rewrite Hz. cbn [row_fields].
      rewrite assoc_updated.
      rewrite (Insertion.assoc_absent c given)
        by now rewrite (Insertion.given_names input t entries given Hg).
      now destruct (assoc c (row_fields r)).
  - intros z' Hz. unfold lookup. rewrite (Insertion.find_set_table tn t _ st Hf), Hf.
    unfold find_row. cbn [tbl_rows].
    rewrite find_after_map by (intros r0; now apply update_keeps_id).
    destruct (find _ (tbl_rows t)) as [r0|] eqn:E; [|reflexivity].
    destruct (find_some _ _ E) as [_ Hz0]. cbn [option_map]. f_equal.
    unfold update_row. apply Z.eqb_eq in Hz0.
    assert (E' : (row_id r0 =? z)%Z = false) by (apply Z.eqb_neq; congruence).
    now rewrite E'.
  - intros tn' Ht. now apply find_table_set_other.
  - intros Hnone. unfold find_row in Hnone. rewrite (update_leaves_others _ _ _ Hnone).
    rewrite table_eta. now apply set_table_same.
Qed.

Lemma update_changes_the_row_witness :
  exists b st',
    update_content_type_data Samples.keywords (execute Samples.keywords basic_input)
      (Some "notes") (Some 2%Z)
      (Some (JObject [("views", JNumber 9 0); ("active", JBool false)])) noted_store
    = (Returned b, st')
    /\ (b = true <-> find_row notes_rows 2 <> None)
    /\ (forall r, find_row notes_rows 2 = Some r ->
        exists r',
          lookup st' "notes" 2 = Some r'
          /\ row_id r' = 2%Z
          /\ (forall kv, In kv [("views", JNumber 9 0); ("active", JBool false)] ->
              assoc (fst kv) (row_fields r) <> None ->
              field_of r' (fst kv) = read_entry basic_input notes_rows kv)
          /\ (forall c, ~ In c (map fst [("views", JNumber 9 0); ("active", JBool false)]) ->
              field_of r' c = field_of r c))
    /\ (forall z', z' <> 2%Z -> lookup st' "notes" z' = lookup noted_store "notes" z')
    /\ (forall tn', tn' <> "notes" -> find_table tn' st' = find_table tn' noted_store)
    /\ (find_row notes_rows 2 = None -> st' = noted_store).
Proof.
  apply (update_changes_the_row Samples.keywords basic_input noted_store "notes"
           notes_rows 2 [("views", JNumber 9 0); ("active", JBool false)]).
  - split; [discriminate | reflexivity].
  - discriminate.
  - reflexivity.
  - exists Samples.notes_entries. reflexivity.
  - reflexivity.
  - reflexivity.
  - repeat constructor; discriminate.
  - repeat constructor; discriminate.
Defined.

(** What the store reads in the statements of insert, update and delete.
    For a table name and column names that are not empty and have at most
    63 bytes, and at least one pair, each of [insert_into_content_type],
    [update_content_type_data] and [delete_content_type_data] sends one
    statement; the statement scans, and the store reads it as the
    operation on the table of exactly that name, with exactly the column
    names of the pairs in their order, the JSON text of each value as its
    literal, and exactly the [id] passed (negative ones included). *)
Theorem store_reads_the_statement
        (kw : string -> bool) (tn : string) (entries : list (string * json)) (z : Z) :
  kept_name tn -> entries <> [] -> Forall (fun kv => kept_name (fst kv)) entries ->
  (exists text ts,
      statement_of (insert_into_content_type_body kw (Some tn) (Some (JObject entries)))
      = Some text
      /\ scan text = Some ts
      /\ parse kw ts
         = Some (SInsert tn (map fst entries)
                         (map (fun kv => jsonb_out (snd kv)) entries)))
  /\ (exists text ts,
         statement_of (update_content_type_data_body kw (Some tn) (Some z)
                         (Some (JObject entries)))
         = Some text
         /\ scan text = Some ts
         /\ parse kw ts
            = Some (SUpdate tn (map (fun kv => (fst kv, jsonb_out (snd kv))) entries) z))
  /\ (exists text ts,
         statement_of (delete_content_type_data_body kw (Some tn) (Some z)) = Some text
         /\ scan text = Some ts
         /\ parse kw ts = Some (SDelete tn z)).
Proof.
  intros Hn Hne Hk. split; [|split].
  - exists (insert_text kw tn entries), (insert_tokens kw tn entries). split; [|split].
    + now rewrite (insert_body_eq kw tn entries Hne).
    + exact (closed_scan _ _ (insert_scans kw tn entries Hne)).
    + now apply parse_insert_tokens.
  - exists (update_text kw tn (Some z) entries), (update_tokens kw tn (Some z) entries).
    split; [|split].
    + now rewrite (update_body_eq kw tn (Some z) entries Hne).
    + exact (closed_scan _ _ (update_scans kw tn (Some z) entries Hne)).
    + now apply parse_update_tokens.
  - exists (delete_text kw tn (Some z)), (delete_tokens kw tn (Some z)). split; [|split].
    + now rewrite delete_body_eq.
    + exact (closed_scan _ _ (delete_scans kw tn (Some z))).
    + now apply parse_delete_tokens.
Qed.

Lemma store_reads_the_statement_witness :
  (exists text ts,
      statement_of (insert_into_content_type_body Samples.keywords
                      (Some Samples.hostile_name)
                      (Some (JObject [("n", JNumber (-4) 0); ("order", JString "it's")])))
      = Some text
      /\ scan text = Some ts
      /\ parse Samples.keywords ts
         = Some (SInsert Samples.hostile_name
                   (map fst [("n", JNumber (-4) 0); ("order", JString "it's")])
                   (map (fun kv => jsonb_out (snd kv))
                        [("n", JNumber (-4) 0); ("order", JString "it's")])))
  /\ (exists text ts,
         statement_of (update_content_type_data_body Samples.keywords
                         (Some Samples.hostile_name) (Some (-7)%Z)
                         (Some (JObject [("n", JNumber (-4) 0);
                                         ("order", JString "it's")])))
         = Some text
         /\ scan text = Some ts
         /\ parse Samples.keywords ts
            = Some (SUpdate Samples.hostile_name
                      (map (fun kv => (fst kv, jsonb_out (snd kv)))
                           [("n", JNumber (-4) 0); ("order", JString "it's")])
                      (-7)))
  /\ (exists text ts,
         statement_of (delete_content_type_data_body Samples.keywords
                         (Some Samples.hostile_name) (Some (-7)%Z))
         = Some text
         /\ scan text = Some ts
         /\ parse Samples.keywords ts = Some (SDelete Samples.hostile_name (-7))).
Proof.
  apply (store_reads_the_statement Samples.keywords Samples.hostile_name
           [("n", JNumber (-4) 0); ("order", JString "it's")] (-7)).
  - split; [discriminate | reflexivity].
  - discriminate.
  - repeat constructor; discriminate.
Defined.

End Changes.


(** ** A call that returns false *)

Module Refusals.
Import Chars Pg Jsonb Scanner Tokens Text TextFacts BuilderFacts ScannerFacts.
Import Store ParserFacts Plain StoreFacts Further Rows.

Lemma same_rows_refl st : same_rows st st.
Proof. now intros name. Qed.

Lemma same_rows_with_next name t z st :
  find_table name st = Some t -> same_rows st (set_table name (with_next t z) st).
Proof.
  intros Hf n. destruct (String.eqb_spec n name) as [->|Hne].
  - now rewrite (Insertion.find_set_table name t _ st Hf), Hf.
  - now rewrite find_table_set_other.
Qed.

Lemma count_rows_zero t z : count_rows t z = O -> find_row t z = None.
Proof.
  intros H. destruct (find_row t z) eqn:E; [|reflexivity].
  assert (Hp : (0 <? count_rows t z)%nat = true)
    by (apply count_rows_positive; congruence).
  rewrite H in Hp. discriminate Hp.
Qed.

Section Executor.

Variable kw : string -> bool.
Variable input : sqltype -> string -> option value.

Lemma parse_insert_kind ts s :
  parse_insert kw ts = Some s -> exists name cols vals, s = SInsert name cols vals.
Proof.
  unfold parse_insert.
  repeat match goal with
         | |- context [match ?x with _ => _ end] => destruct x
         end; try discriminate.
  intros [= <-]. eauto.
Qed.

Lemma parse_update_kind ts s :
  parse_update kw ts = Some s -> exists name sets z, s = SUpdate name sets z.
Proof.
  unfold parse_update, option_map.
  repeat match goal with
         | |- context [match ?x with _ => _ end] => destruct x
         end; try discriminate.
  intros [= <-]. eauto.
Qed.

Lemma parse_delete_kind ts s :
  parse_delete kw ts = Some s -> exists name z, s = SDelete name z.
Proof.
  unfold parse_delete, option_map.
  repeat match goal with
         | |- context [match ?x with _ => _ end] => destruct x
         end; try discriminate.
  intros [= <-]. eauto.
Qed.

Lemma exec_insert_rows name cols vals st :
  match exec_insert input name cols vals st with
  | Done _ n => n = 1%nat
  | Failed st' _ => same_rows st st'
  | Canceled _ => False
  end.
Proof.
  unfold exec_insert. destruct (find_table name st) as [t|] eqn:Hf;
    [|apply same_rows_refl].
  destruct (negb (distinct cols)); [apply same_rows_refl|].
  destruct (convert input t cols vals) as [given|]; [|apply same_rows_refl].
  destruct (assoc "id" given) as [[| z | | | |]|]; try apply same_rows_refl.
  - destruct (_ && _); [reflexivity | apply same_rows_refl].
  - destruct (sequence_max <? tbl_next_id t)%Z; [apply same_rows_refl|].
    destruct (_ && _); [reflexivity | now apply same_rows_with_next].
Qed.

Lemma exec_update_rows name sets z st :
  match exec_update input name sets z st with
  | Done st' n => n = O -> st' = st
  | Failed st' _ => st' = st
  | Canceled _ => False
  end.
Proof.
  unfold exec_update. destruct (find_table name st) as [t|] eqn:Hf; [|reflexivity].
  destruct (negb (distinct (map fst sets))); [reflexivity|].
  destruct (convert input t (map fst sets) (map snd sets)) as [given|]; [|reflexivity].
  destruct (_ && _); [|reflexivity].
  intros Hn. apply count_rows_zero in Hn. unfold find_row in Hn.
  rewrite (Changes.update_leaves_others _ _ _ Hn), table_eta.
  now apply set_table_same.
Qed.

Lemma exec_delete_rows name z st :
  match exec_delete name z st with
  | Done st' n => n = O -> st' = st
  | Failed st' _ => st' = st
  | Canceled _ => False
  end.
Proof.
  unfold exec_delete. destruct (find_table name st) as [t|] eqn:Hf; [|reflexivity].
  intros Hn. apply count_rows_zero in Hn. unfold find_row in Hn.
  rewrite (filter_keeps_all _ _ Hn), table_eta.
  now apply set_table_same.
Qed.

Lemma insert_false_rows tn data st :
  fst (insert_into_content_type kw (execute kw input) tn data st) = Returned false ->
  same_rows st (snd (insert_into_content_type kw (execute kw input) tn data st)).
Proof.
  unfold insert_into_content_type. rewrite Statements.insert_body_cases.
  destruct (jsonb_each data) as [[|kv rest]|e].
  - intros _. apply same_rows_refl.
  - destruct tn as [name|]; [|intros _; apply same_rows_refl].
    unfold exception_when_others, run_body, execute.
    rewrite (closed_scan _ _ (insert_scans kw name (kv :: rest) ltac:(discriminate))).
    unfold insert_tokens. cbn [app parse]. cbn [String.eqb Ascii.eqb Bool.eqb].
    destruct (parse_insert kw _) as [s|] eqn:Hp; [|intros _; apply same_rows_refl].
    destruct (parse_insert_kind _ _ Hp) as (n & cols & vals & ->). cbn [exec].
    pose proof (exec_insert_rows n cols vals st) as H.
    destruct (exec_insert input n cols vals st); cbn [fst snd];
      [discriminate | intros _; exact H | destruct H].
  - destruct e; intros H; cbn [exception_when_others run_body fst snd] in *;
      first [apply same_rows_refl | discriminate H].
Qed.

Lemma update_false_same tn id data st :
  fst (update_content_type_data kw (execute kw input) tn id data st) = Returned false ->
  snd (update_content_type_data kw (execute kw input) tn id data st) = st.
Proof.
  unfold update_content_type_data. rewrite Statements.update_body_cases.
  destruct (jsonb_each data) as [[|kv rest]|e].
  - reflexivity.
  - destruct tn as [name|]; [|reflexivity].
    unfold exception_when_others, run_body, execute.
    rewrite (closed_scan _ _ (update_scans kw name id (kv :: rest) ltac:(discriminate))).
    unfold update_tokens. cbn [app parse]. cbn [String.eqb Ascii.eqb Bool.eqb].
    destruct (parse_update kw _) as [s|] eqn:Hp; [|reflexivity].
    destruct (parse_update_kind _ _ Hp) as (n & sets & z & ->). cbn [exec].
    pose proof (exec_update_rows n sets z st) as H.
    destruct (exec_update input n sets z st) as [st' k|st' msg|st']; cbn [fst snd];
      [|intros _; exact H | destruct H].
    intros Hk. apply H. destruct k; [reflexivity | discriminate Hk].
  - destruct e; intros H; cbn [exception_when_others run_body fst snd] in *;
      first [reflexivity | discriminate H].
Qed.

Lemma delete_false_same tn id st :
  fst (delete_content_type_data kw (execute kw input) tn id st) = Returned false ->
  snd (delete_content_type_data kw (execute kw input) tn id st) = st.
Proof.
  destruct tn as [name|]; [|reflexivity].
  unfold delete_content_type_data. rewrite delete_body_eq.
  unfold exception_when_others, run_body, execute.
  rewrite (closed_scan _ _ (delete_scans kw name id)).
  unfold delete_tokens. cbn [app parse]. cbn [String.eqb Ascii.eqb Bool.eqb].
  destruct (parse_delete kw _) as [s|] eqn:Hp; [|reflexivity].
  destruct (parse_delete_kind _ _ Hp) as (n & z & ->). cbn [exec].
  pose proof (exec_delete_rows n z st) as H.
  destruct (exec_delete n z st) as [st' k|st' msg|st']; cbn [fst snd];
    [|intros _; exact H | destruct H].
  intros Hk. apply H. destruct k; [reflexivity | discriminate Hk].
Qed.

End Executor.

(** A call that returns false has changed no row.  Whatever the table
    name, the [id] and the data: when [update_content_type_data] or
    [delete_content_type_data] returns false, the store is the one the
    call started from; when [insert_into_content_type] returns false,
    every table has the rows it had (a value of its sequence may be
    spent). *)
Theorem false_means_no_row_changed
        (kw : string -> bool) (input : sqltype -> string -> option value)
        (st : store) (tn : option string) (id : option Z) (data : option json) :
  (fst (insert_into_content_type kw (execute kw input) tn data st) = Returned false ->
   same_rows st (snd (insert_into_content_type kw (execute kw input) tn data st)))
  /\ (fst (update_content_type_data kw (execute kw input) tn id data st)
      = Returned false ->
      snd (update_content_type_data kw (execute kw input) tn id data st) = st)
  /\ (fst (delete_content_type_data kw (execute kw input) tn id st) = Returned false ->
      snd (delete_content_type_data kw (execute kw input) tn id st) = st).
Proof.
  split; [apply insert_false_rows|]. split; [apply update_false_same|].
  apply delete_false_same.
Qed.

Lemma false_means_no_row_changed_witness :
  snd (update_content_type_data Samples.keywords (execute Samples.keywords basic_input)
         (Some "stats") (Some 5%Z) (Some (JObject [("views", JNumber 1 0)]))
         counted_store)
  = counted_store.
Proof.
  apply (proj1 (proj2 (false_means_no_row_changed Samples.keywords basic_input
                         counted_store (Some "stats") (Some 5%Z)
                         (Some (JObject [("views", JNumber 1 0)]))))).
  reflexivity.
Defined.

End Refusals.


(** ** Users, roles and permissions *)

Module AuthFacts.
Import Auth.

Lemma serial_eta t : {| rows := rows t; next_id := next_id t |} = t.
Proof. now destruct t. Qed.

Lemma keep_sequence_same t : keep_sequence t t = t.
Proof. destruct t as [t|]; [|reflexivity]. cbn [keep_sequence]. now rewrite serial_eta. Qed.

Lemma database_eta db :
  {| users := users db; roles := roles db; permissions := permissions db;
     user_roles := user_roles db; role_permissions := role_permissions db |} = db.
Proof. now destruct db. Qed.

Lemma rollback_same_sequences before after :
  roles after = roles before -> permissions after = permissions before ->
  rollback before after = before.
Proof.
  intros Hr Hp. unfold rollback. rewrite Hr, Hp, !keep_sequence_same.
  apply database_eta.
Qed.

Lemma session_eta s : {| data := data s; notices := notices s |} = s.
Proof. now destruct s. Qed.

(** *** [INSERT ... ON CONFLICT (name) DO NOTHING] *)

Lemma has_name_app n l l' : has_name n (l ++ l') = has_name n l || has_name n l'.
Proof. apply existsb_app. Qed.

Lemma insert_names_rows relation names t :
  exists extra,
    rows (snd (insert_names relation names t)) = (rows t ++ extra)%list
    /\ Forall (fun r => In (named_name r) names /\ has_name (named_name r) (rows t) = false)
              extra
    /\ (fst (insert_names relation names t) = Val tt ->
        Forall (fun n => has_name n (rows (snd (insert_names relation names t))) = true)
               names).
Proof.
  revert t. induction names as [|n rest IH]; intros t.
  - exists []. cbn [insert_names snd fst]. rewrite app_nil_r. repeat split; constructor.
  - cbn [insert_names]. destruct (serial_max <? next_id t)%Z.
    { exists []. cbn [snd fst]. rewrite app_nil_r.
      split; [reflexivity|]. split; [constructor | discriminate]. }
    destruct (existsb (fun r => named_name r =? n) (rows t)) eqn:En.
    + destruct (IH {| rows := rows t; next_id := next_id t + 1 |})
        as (extra & Hrows & Hextra & Hall).
      cbn [rows] in Hrows, Hextra. exists extra. split; [exact Hrows|]. split.
      * eapply Forall_impl; [|exact Hextra]. cbn beta. intros r [Hin Hno].
        split; [now right | exact Hno].
      * intros Hok. constructor; [|now apply Hall].
        rewrite Hrows, has_name_app. unfold has_name at 1. now rewrite En.
    + destruct (existsb (fun r => (named_id r =? next_id t)%Z) (rows t)).
      { exists []. cbn [snd fst rows]. rewrite app_nil_r.
        split; [reflexivity|]. split; [constructor | discriminate]. }
      destruct (IH {| rows := (rows t ++ [ {| named_id := next_id t; named_name := n |} ])%list;
                      next_id := next_id t + 1 |})
        as (extra & Hrows & Hextra & Hall).
      cbn [rows] in Hrows, Hextra.
      exists ({| named_id := next_id t; named_name := n |} :: extra). split; [|split].
      * rewrite Hrows, <- app_assoc. reflexivity.
      * constructor.
        -- cbn [named_name]. split; [now left | exact En].
        -- eapply Forall_impl; [|exact Hextra]. cbn beta. intros r [Hin Hno].
           split; [now right|]. rewrite has_name_app in Hno.
           now apply orb_false_iff in Hno as [Hno _].
      * intros Hok. constructor; [|now apply Hall].
        rewrite Hrows, !has_name_app. cbn [has_name existsb named_name].
        rewrite String.eqb_refl. cbn [orb]. now rewrite orb_true_r.
Qed.




(** *** [initialize_database] *)

Lemma bind_run {A B : Type} (m : M A) (k : A -> M B) s :
  bind m k s
  = match m s with
    | (Val a, s') => k a s'
    | (Exc e, s') => (Exc e, s')
    end.
Proof. reflexivity. Qed.

Lemma insert_on_conflict_run relation get set names s t :
  get (data s) = Some t ->
  insert_on_conflict_do_nothing relation get set names s
  = (fst (insert_names relation names t),
     {| data := set (snd (insert_names relation names t)) (data s);
        notices := notices s |}).
Proof.
  intros H. unfold insert_on_conflict_do_nothing, from, get_db, ret, raise, put_db, bind.
  cbv beta iota. rewrite H. destruct (insert_names relation names t) as [[[]|e] t']; reflexivity.
Qed.

Lemma tables_are_created s :
  (create_table_if_not_exists "users" users set_users [] ;;
   create_table_if_not_exists "roles" roles set_roles empty_serial ;;
   create_table_if_not_exists "permissions" permissions set_permissions empty_serial ;;
   create_table_if_not_exists "user_roles" user_roles set_user_roles [] ;;
   create_table_if_not_exists "role_permissions" role_permissions
     set_role_permissions [] ;;
   ret tt)%sql s
  = (Val tt, {| data := created (data s);
                notices := (notices s ++ skipped (data s))%list |}).
Proof.
  destruct s as [[[us|] [r|] [p|] [ur|] [rp|]] ns];
    cbv [create_table_if_not_exists bind get_db put_db raise_notice ret skipped
         exists_notice created data notices users roles permissions user_roles
         role_permissions set_users set_roles set_permissions set_user_roles
         set_role_permissions listed or_empty];
    cbn [app]; rewrite <- ?app_assoc; cbn [app]; rewrite ?app_nil_r; reflexivity.
Qed.

Lemma initialize_database_body_eq s :
  initialize_database_body s
  = let db := created (data s) in
    match insert_names "roles" default_roles (or_empty (roles (data s))) with
    | (Exc e, tr) =>
        (Exc e, {| data := set_roles tr db;
                   notices := (notices s ++ skipped (data s))%list |})
    | (Val _, tr) =>
        match insert_names "permissions" default_permissions
                (or_empty (permissions (data s))) with
        | (Exc e, tp) =>
            (Exc e, {| data := set_permissions tp (set_roles tr db);
                       notices := (notices s ++ skipped (data s))%list |})
        | (Val _, tp) =>
            (Val true, {| data := set_permissions tp (set_roles tr db);
                          notices := (notices s ++ skipped (data s))%list |})
        end
    end.
Proof.
  pose proof (tables_are_created s) as H.
  unfold initialize_database_body. unfold bind at 1 2 3 4 5 in H. unfold bind at 1 2 3 4 5.
  destruct (create_table_if_not_exists "users" users set_users [] s) as [[[]|e] s1];
    [|discriminate H].
  destruct (create_table_if_not_exists "roles" roles set_roles empty_serial s1)
    as [[[]|e] s2]; [|discriminate H].
  destruct (create_table_if_not_exists "permissions" permissions set_permissions
              empty_serial s2) as [[[]|e] s3]; [|discriminate H].
  destruct (create_table_if_not_exists "user_roles" user_roles set_user_roles [] s3)
    as [[[]|e] s4]; [|discriminate H].
  destruct (create_table_if_not_exists "role_permissions" role_permissions
              set_role_permissions [] s4) as [[[]|e] s5]; [|discriminate H].
  unfold ret in H. injection H as ->.
  rewrite bind_run.
  rewrite (insert_on_conflict_run "roles" roles set_roles default_roles _
             (or_empty (roles (data s)))) by reflexivity.
  cbn [data notices].
  destruct (insert_names "roles" default_roles (or_empty (roles (data s))))
    as [[[]|e] tr]; cbn [fst snd]; [|reflexivity].
  rewrite bind_run.
  rewrite (insert_on_conflict_run "permissions" permissions set_permissions
             default_permissions _ (or_empty (permissions (data s)))) by reflexivity.
  cbn [data notices].
  destruct (insert_names "permissions" default_permissions
              (or_empty (permissions (data s)))) as [[[]|e] tp]; reflexivity.
Qed.

Lemma rows_or_empty t : rows (or_empty t) = rows_of t.
Proof. now destruct t. Qed.

(** A run of [initialize_database] that returns true leaves the five
    tables in place, with both default roles and the three default
    permissions among their rows.  Nothing that was there is lost or
    changed: the users and the two mapping tables have the rows they had,
    and the rows added to [roles] and [permissions] are default names that
    were missing.  The notices sent are those of the server for the
    tables that were there already, one for each, in the order of the
    five statements. *)
Theorem initialize_database_provides (s : session) :
  fst (initialize_database s) = true ->
  let db := data s in
  let db' := data (snd (initialize_database s)) in
  initialized db'
  /\ Forall (fun n => has_name n (rows_of (roles db')) = true) default_roles
  /\ Forall (fun n => has_name n (rows_of (permissions db')) = true) default_permissions
  /\ (exists extra,
         rows_of (roles db') = (rows_of (roles db) ++ extra)%list
         /\ Forall (fun r => In (named_name r) default_roles
                             /\ has_name (named_name r) (rows_of (roles db)) = false)
                   extra)
  /\ (exists extra,
         rows_of (permissions db') = (rows_of (permissions db) ++ extra)%list
         /\ Forall (fun r => In (named_name r) default_permissions
                             /\ has_name (named_name r) (rows_of (permissions db)) = false)
                   extra)
  /\ listed (users db') = listed (users db)
  /\ listed (user_roles db') = listed (user_roles db)
  /\ listed (role_permissions db') = listed (role_permissions db)
  /\ notices (snd (initialize_database s)) = (notices s ++ skipped db)%list.
Proof.
  unfold initialize_database, exception_when_others.
  rewrite initialize_database_body_eq. cbv zeta.
  destruct (insert_names_rows "roles" default_roles (or_empty (roles (data s))))
    as (er & Hr & Her & Hrall).
  destruct (insert_names_rows "permissions" default_permissions
              (or_empty (permissions (data s)))) as (ep & Hp & Hep & Hpall).
  rewrite rows_or_empty in Hr, Her, Hp, Hep.
  destruct (insert_names "roles" default_roles (or_empty (roles (data s))))
    as [[[]|e] tr]; [|discriminate].
  destruct (insert_names "permissions" default_permissions
              (or_empty (permissions (data s)))) as [[[]|e] tp]; [|discriminate].
  cbn [fst snd] in *. intros _.
  cbn [data notices set_permissions set_roles created users roles permissions
       user_roles role_permissions rows_of listed].
  split; [repeat split; discriminate|].
  split; [now apply Hrall|]. split; [now apply Hpall|].
  split; [now exists er|]. split; [now exists ep|]. repeat split.
Qed.

Lemma initialize_database_provides_witness :
  let db := no_tables in
  let db' := data (snd (initialize_database {| data := no_tables; notices := [] |})) in
  initialized db'
  /\ Forall (fun n => has_name n (rows_of (roles db')) = true) default_roles
  /\ Forall (fun n => has_name n (rows_of (permissions db')) = true) default_permissions
  /\ (exists extra,
         rows_of (roles db') = (rows_of (roles db) ++ extra)%list
         /\ Forall (fun r => In (named_name r) default_roles
                             /\ has_name (named_name r) (rows_of (roles db)) = false)
                   extra)
  /\ (exists extra,
         rows_of (permissions db') = (rows_of (permissions db) ++ extra)%list
         /\ Forall (fun r => In (named_name r) default_permissions
                             /\ has_name (named_name r) (rows_of (permissions db)) = false)
                   extra)
  /\ listed (users db') = listed (users db)
  /\ listed (user_roles db') = listed (user_roles db)
  /\ listed (role_permissions db') = listed (role_permissions db)
  /\ notices (snd (initialize_database {| data := no_tables; notices := [] |}))
     = ([] ++ skipped no_tables)%list.
Proof.
  apply (initialize_database_provides {| data := no_tables; notices := [] |}).
  reflexivity.
Defined.

(** A run of [initialize_database] that returns false has left the
    database as it found it: the tables that were there, with the rows
    they had, and no table that was missing.  It has sent the notices of
    the server for the tables that were there already, and after them one
    error notice. *)
Theorem initialize_database_failure (s : session) :
  fst (initialize_database s) = false ->
  let db := data s in
  let db' := data (snd (initialize_database s)) in
  users db' = users db
  /\ option_map rows (roles db') = option_map rows (roles db)
  /\ option_map rows (permissions db') = option_map rows (permissions db)
  /\ user_roles db' = user_roles db
  /\ role_permissions db' = role_permissions db
  /\ exists e, notices (snd (initialize_database s))
               = (notices s ++ skipped db ++ [ErrorNotice e])%list.
Proof.
  unfold initialize_database, exception_when_others.
  rewrite initialize_database_body_eq. cbv zeta.
  assert (Hk : forall b a, option_map rows (keep_sequence b (Some a)) = option_map rows b).
  { intros [b|] a; reflexivity. }
  destruct (insert_names "roles" default_roles (or_empty (roles (data s))))
    as [[[]|e] tr].
  - destruct (insert_names "permissions" default_permissions
                (or_empty (permissions (data s)))) as [[[]|e] tp]; [discriminate|].
    intros _. cbn [fst snd data notices rollback users roles permissions user_roles
                   role_permissions set_permissions set_roles created].
    rewrite !Hk. repeat split. exists e. now rewrite app_assoc.
  - intros _. cbn [fst snd data notices rollback users roles permissions user_roles
                   role_permissions set_permissions set_roles created].
    rewrite !Hk. repeat split. exists e. now rewrite app_assoc.
Qed.

Lemma initialize_database_failure_witness :
  let db := stale_roles in
  let db' := data (snd (initialize_database {| data := stale_roles; notices := [] |})) in
  users db' = users db
  /\ option_map rows (roles db') = option_map rows (roles db)
  /\ option_map rows (permissions db') = option_map rows (permissions db)
  /\ user_roles db' = user_roles db
  /\ role_permissions db' = role_permissions db
  /\ exists e, notices (snd (initialize_database {| data := stale_roles; notices := [] |}))
               = ([] ++ skipped stale_roles ++ [ErrorNotice e])%list.
Proof.
  apply (initialize_database_failure {| data := stale_roles; notices := [] |}).
  reflexivity.
Defined.

(** A second run finds the five tables and sends the five notices of the
    server. *)
Example second_run_notices :
  notices (snd (initialize_database
                  (snd (initialize_database {| data := no_tables; notices := [] |}))))
  = [AlreadyExists "users"; AlreadyExists "roles"; AlreadyExists "permissions";
     AlreadyExists "user_roles"; AlreadyExists "role_permissions"].
Proof. reflexivity. Qed.




(** *** Registration *)

Ltac run_statements_in H :=
  cbv [exception_when_others crypt_call select_role_id select_user insert_user
       insert_user_role delete_user_roles from get_db put_db ret raise raise_notice
       bind rollback keep_sequence set_users set_user_roles
       data notices users roles permissions user_roles role_permissions
       option_map rows next_id] in H.

Ltac step_in H :=
  run_statements_in H;
  match type of H with
  | context [match ?x with _ => _ end] =>
      lazymatch x with
      | context [match _ with _ => _ end] => fail
      | _ => destruct x eqn:?
      end
  end.

Ltac split_in H := repeat (step_in H); run_statements_in H.

(** [register_super_admin] registers the user or changes nothing.  When it
    returns true, the email and the password were not NULL, [users] has
    one more row, with the given email, the hash [crypt] made of the
    password and the salt, and the new [id], and [user_roles] has one more
    pair, that [id] with the [id] of the first role named exactly
    [Super Admin].  When it returns false, the database is the one the
    call started from. *)
Theorem register_super_admin_all_or_nothing
        (crypt : string -> string -> option string)
        (p_email p_password : option string) (salt : string) (new_id : uuid)
        (now : Z) (s : session) :
  let r := register_super_admin crypt p_email p_password salt new_id now s in
  if fst r
  then exists e p h us t urs role,
      p_email = Some e /\ p_password = Some p /\ crypt p salt = Some h
      /\ users (data s) = Some us /\ roles (data s) = Some t
      /\ user_roles (data s) = Some urs
      /\ find (fun r => named_name r =? "Super Admin") (rows t) = Some role
      /\ data (snd r)
         = set_user_roles (urs ++ [(new_id, named_id role)])%list
             (set_users (us ++ [ {| user_id := new_id; user_email := e;
                                    password_hash := h;
                                    created_at := Some now |} ])%list (data s))
      /\ notices (snd r) = notices s
  else data (snd r) = data s.
Proof.
  cbv zeta.
  remember (register_super_admin crypt p_email p_password salt new_id now s) as r eqn:Hr.
  destruct s as [[us [[rs rn]|] [[ps pn]|] ur rp] ns];
    unfold register_super_admin, register_super_admin_body, named_exactly in Hr;
    run_statements_in Hr; split_in Hr; subst r; cbn [fst snd data notices];
    try reflexivity;
    do 7 eexists; repeat split; first [reflexivity | eassumption].
Qed.

(** [register_user] inserts the user before it looks for the role, and
    leaves through RETURN, not through an error, when no role matches.  So
    it has three outcomes.  It returns true, with one more row in [users]
    and one more pair in [user_roles], the role being the first whose name
    equals the given one under [LOWER].  Or it returns false with the
    database as it was.  Or it returns false with the notice [Role not
    found] and the user stored all the same, without a role: this is the
    outcome whenever the user can be inserted and no role matches. *)
Theorem register_user_outcomes
        (crypt : string -> string -> option string) (lower : string -> string)
        (p_email p_password p_role : option string) (salt : string) (new_id : uuid)
        (now : Z) (s : session) :
  let r := register_user crypt lower p_email p_password p_role salt new_id now s in
  let stored e h us :=
    set_users (us ++ [ {| user_id := new_id; user_email := e; password_hash := h;
                          created_at := Some now |} ])%list (data s) in
  if fst r
  then exists e p h us t urs role,
      p_email = Some e /\ p_password = Some p /\ crypt p salt = Some h
      /\ users (data s) = Some us /\ roles (data s) = Some t
      /\ user_roles (data s) = Some urs
      /\ find (fun r => named_alike lower p_role (named_name r)) (rows t) = Some role
      /\ data (snd r)
         = set_user_roles (urs ++ [(new_id, named_id role)])%list (stored e h us)
      /\ notices (snd r) = notices s
  else data (snd r) = data s
       \/ exists e p h us t,
           p_email = Some e /\ p_password = Some p /\ crypt p salt = Some h
           /\ users (data s) = Some us /\ roles (data s) = Some t
           /\ find (fun r => named_alike lower p_role (named_name r)) (rows t) = None
           /\ data (snd r) = stored e h us
           /\ notices (snd r) = (notices s ++ [Notice "Role not found"])%list.
Proof.
  cbv zeta.
  remember (register_user crypt lower p_email p_password p_role salt new_id now s)
    as r eqn:Hr.
  destruct s as [[us [[rs rn]|] [[ps pn]|] ur rp] ns];
    unfold register_user, register_user_body in Hr;
    run_statements_in Hr; split_in Hr; subst r; cbn [fst snd data notices];
    try (left; reflexivity);
    try (right; do 5 eexists; repeat split; first [reflexivity | eassumption]);
    do 7 eexists; repeat split; first [reflexivity | eassumption].
Qed.

Ltac run_statements :=
  cbv [exception_when_others crypt_call select_role_id select_user insert_user
       insert_user_role delete_user_roles from get_db put_db ret raise raise_notice
       bind rollback keep_sequence set_users set_user_roles
       data notices users roles permissions user_roles role_permissions
       option_map rows next_id].

Lemma find_app_fresh {A : Type} (f : A -> bool) l x :
  existsb f l = false -> f x = true -> find f (l ++ [x]) = Some x.
Proof.
  induction l as [|y l IH]; cbn [existsb find app]; intros Hl Hx.
  - now rewrite Hx.
  - apply orb_false_iff in Hl as [Hy Hl]. rewrite Hy. now apply IH.
Qed.

Section Registered.

Variable crypt : string -> string -> option string.
Variable lower : string -> string.

Lemma register_user_without_role_run e p p_role salt new_id now s us t h :
  users (data s) = Some us -> roles (data s) = Some t ->
  crypt p salt = Some h ->
  existsb (fun u => (user_id u =? new_id)%N) us = false ->
  existsb (fun u => user_email u =? e) us = false ->
  find (fun r => named_alike lower p_role (named_name r)) (rows t) = None ->
  register_user crypt lower (Some e) (Some p) p_role salt new_id now s
  = (false,
     {| data := set_users (us ++ [ {| user_id := new_id; user_email := e;
                                      password_hash := h;
                                      created_at := Some now |} ])%list (data s);
        notices := (notices s ++ [Notice "Role not found"])%list |}).
Proof.
  destruct s as [[us0 r0 ps ur rp] ns]. cbn [data users roles].
  intros -> -> Hc Hid He Hf. destruct t as [rs rn]. cbn [rows] in Hf.
  unfold register_user, register_user_body. run_statements.
  rewrite Hc. run_statements. rewrite Hid, He. run_statements. rewrite Hf.
  reflexivity.
Qed.

Lemma email_is_taken e p_password p_role salt new_id now s us :
  users (data s) = Some us ->
  existsb (fun u => user_email u =? e) us = true ->
  fst (register_user crypt lower (Some e) p_password p_role salt new_id now s) = false
  /\ data (snd (register_user crypt lower (Some e) p_password p_role salt new_id now s))
     = data s.
Proof.
  intros Hu He.
  remember (register_user crypt lower (Some e) p_password p_role salt new_id now s)
    as r eqn:Hr.
  destruct s as [[us0 [[rs rn]|] [[ps pn]|] ur rp] ns]; cbn [data users] in Hu; subst us0;
    unfold register_user, register_user_body in Hr;
    run_statements_in Hr; split_in Hr; subst r; cbn [fst snd data];
    try (split; reflexivity); congruence.
Qed.

Lemma authenticate_stored e p s us u :
  users (data s) = Some us ->
  find (fun u => user_email u =? e) us = Some u ->
  crypt p (password_hash u) = Some (password_hash u) ->
  authenticate_user crypt (Some e) (Some p) s = (Some true, s).
Proof.
  destruct s as [[us0 r0 ps ur rp] ns]. cbn [data users]. intros -> Hf Hc.
  unfold authenticate_user, authenticate_user_body. run_statements.
  rewrite Hf. run_statements. rewrite Hc. run_statements.
  now rewrite String.eqb_refl.
Qed.

End Registered.

(** A user registered under a role that does not exist is stored all the
    same.  When the user can be inserted (the table is there, the email
    and the new [id] are not in use, the password is hashed) and no role
    matches, [register_user] returns false, yet afterwards [users] holds
    the user: every later [register_user] for that email returns false
    and changes nothing, and the user authenticates with the password,
    provided [crypt] of the password under the stored hash gives the
    stored hash again. *)
Theorem unknown_role_leaves_the_user
        (crypt : string -> string -> option string) (lower : string -> string)
        (e p : string) (p_role : option string) (salt : string) (new_id : uuid)
        (now : Z) (s : session) (us : list user) (t : serial_table) (h : string) :
  users (data s) = Some us -> roles (data s) = Some t ->
  crypt p salt = Some h ->
  existsb (fun u => (user_id u =? new_id)%N) us = false ->
  existsb (fun u => user_email u =? e) us = false ->
  find (fun r => named_alike lower p_role (named_name r)) (rows t) = None ->
  let r := register_user crypt lower (Some e) (Some p) p_role salt new_id now s in
  fst r = false
  /\ users (data (snd r))
     = Some (us ++ [ {| user_id := new_id; user_email := e; password_hash := h;
                        created_at := Some now |} ])%list
  /\ user_roles (data (snd r)) = user_roles (data s)
  /\ (forall p_password' p_role' salt' new_id' now',
         let r' := register_user crypt lower (Some e) p_password' p_role' salt' new_id'
                     now' (snd r) in
         fst r' = false /\ data (snd r') = data (snd r))
  /\ (crypt p h = Some h ->
      fst (authenticate_user crypt (Some e) (Some p) (snd r)) = Some true).
Proof.
  intros Hu Hr Hc Hid He Hf. cbv zeta.
  rewrite (register_user_without_role_run crypt lower e p p_role salt new_id now s us t h
             Hu Hr Hc Hid He Hf).
  cbn [fst snd data set_users users user_roles].
  split; [reflexivity|]. split; [reflexivity|]. split; [reflexivity|]. split.
  - intros p_password' p_role' salt' new_id' now'.
    eapply email_is_taken; [reflexivity|].
    rewrite existsb_app. cbn [existsb user_email].
    now rewrite String.eqb_refl, orb_true_r.
  - intros Hh.
    rewrite (authenticate_stored crypt e p _
               (us ++ [ {| user_id := new_id; user_email := e; password_hash := h;
                           created_at := Some now |} ])%list
               {| user_id := new_id; user_email := e; password_hash := h;
                  created_at := Some now |});
      [reflexivity | reflexivity | | exact Hh].
    apply find_app_fresh; [exact He|]. cbn [user_email]. apply String.eqb_refl.
Qed.

Lemma unknown_role_leaves_the_user_witness :
  let r := register_user sample_crypt (fun n => n) (Some "user@example.com")
             (Some "UserPassword") (Some "Editor") "bf" 9%N 5%Z sample_session in
  fst r = false
  /\ users (data (snd r))
     = Some (listed (users sample_database)
             ++ [ {| user_id := 9%N; user_email := "user@example.com";
                     password_hash := "bfUserPassword";
                     created_at := Some 5%Z |} ])%list
  /\ user_roles (data (snd r)) = user_roles (data sample_session)
  /\ (forall p_password' p_role' salt' new_id' now',
         let r' := register_user sample_crypt (fun n => n) (Some "user@example.com")
                     p_password' p_role' salt' new_id' now' (snd r) in
         fst r' = false /\ data (snd r') = data (snd r))
  /\ (sample_crypt "UserPassword" "bfUserPassword" = Some "bfUserPassword" ->
      fst (authenticate_user sample_crypt (Some "user@example.com")
             (Some "UserPassword") (snd r)) = Some true).
Proof.
  apply (unknown_role_leaves_the_user sample_crypt (fun n => n) "user@example.com"
           "UserPassword" (Some "Editor") "bf" 9%N 5%Z sample_session
           (listed (users sample_database))
           {| rows := [ {| named_id := 1%Z; named_name := "Super Admin" |};
                        {| named_id := 2%Z; named_name := "Content Admin" |} ];
              next_id := 3%Z |}
           "bfUserPassword"); reflexivity.
Defined.

(** *** The roles of a user *)

Lemma filter_unique_id (rs : list named) role :
  NoDup (map named_id rs) -> In role rs ->
  filter (fun r => (named_id r =? named_id role)%Z) rs = [role].
Proof.
  induction rs as [|r rs IH]; [intros _ []|]. cbn [map filter].
  intros Hnd Hin. inversion Hnd as [|? ? Hnot Hnd']; subst.
  assert (Hrest : forall x, In x rs -> (named_id x =? named_id r)%Z = false).
  { intros x Hx. apply Z.eqb_neq. intros E. apply Hnot. rewrite <- E. now apply in_map. }
  destruct Hin as [-> | Hin].
  - rewrite Z.eqb_refl. f_equal.
    clear IH Hnd Hnd' Hnot. induction rs as [|x rs IH]; [reflexivity|].
    cbn [filter]. rewrite (Hrest x (or_introl eq_refl)).
    apply IH. intros y Hy. apply Hrest. now right.
  - assert (E : (named_id r =? named_id role)%Z = false).
    { rewrite Z.eqb_sym. now apply Hrest. }
    rewrite E. now apply IH.
Qed.

Lemma no_user_no_roles (g : user -> list string) us e :
  existsb (fun u => user_email u =? e) us = false ->
  flat_map (fun u => if user_email u =? e then g u else []) us = [].
Proof.
  induction us as [|u us IH]; [reflexivity|]. cbn [existsb flat_map].
  intros H. apply orb_false_iff in H as [Hu H]. rewrite Hu. now apply IH.
Qed.

Lemma only_user_has_roles (g : user -> list string) us e u :
  NoDup (map user_email us) ->
  find (fun u => user_email u =? e) us = Some u ->
  flat_map (fun u => if user_email u =? e then g u else []) us = g u.
Proof.
  induction us as [|x us IH]; [discriminate|]. cbn [map find flat_map].
  intros Hnd Hf. inversion Hnd as [|? ? Hnot Hnd']; subst.
  destruct (user_email x =? e) eqn:E.
  - injection Hf as ->. apply String.eqb_eq in E.
    rewrite no_user_no_roles; [apply app_nil_r|].
    destruct (existsb (fun u0 => user_email u0 =? e) us) eqn:Hex; [|reflexivity].
    apply existsb_exists in Hex as (y & Hy & Ey). apply String.eqb_eq in Ey.
    exfalso. apply Hnot. rewrite E, <- Ey. now apply in_map.
  - now apply IH.
Qed.

Lemma no_pair_no_roles (g : uuid * Z -> list string) (urs : list (uuid * Z)) (uid : uuid) :
  existsb (fun ur => (fst ur =? uid)%N) urs = false ->
  flat_map (fun ur => if (fst ur =? uid)%N then g ur else []) urs = [].
Proof.
  induction urs as [|ur urs IH]; [reflexivity|]. cbn [existsb flat_map].
  intros H. apply orb_false_iff in H as [Hu H]. rewrite Hu. now apply IH.
Qed.

Lemma filtered_has_no_pair (urs : list (uuid * Z)) (uid : uuid) :
  existsb (fun ur => (fst ur =? uid)%N)
          (filter (fun ur => negb (fst ur =? uid)%N) urs) = false.
Proof.
  induction urs as [|ur urs IH]; [reflexivity|]. cbn [filter].
  destruct (@fst N Z ur =? uid)%N eqn:E; cbn [negb]; [exact IH|].
  cbn [existsb]. now rewrite E.
Qed.

Lemma other_pairs_stay (g : uuid * Z -> list string) (urs : list (uuid * Z))
      (uid uid' : uuid) (rid : Z) :
  uid' <> uid ->
  flat_map (fun ur => if (fst ur =? uid')%N then g ur else [])
           (filter (fun ur => negb (fst ur =? uid)%N) urs ++ [(uid, rid)])
  = flat_map (fun ur => if (fst ur =? uid')%N then g ur else []) urs.
Proof.
  intros Hne. rewrite flat_map_app. cbn [flat_map fst].
  assert (E : (uid =? uid')%N = false) by (apply N.eqb_neq; congruence).
  rewrite E, app_nil_r.
  induction urs as [|ur urs IH]; [reflexivity|]. cbn [filter flat_map].
  destruct (@fst N Z ur =? uid)%N eqn:Eu; cbn [negb].
  - apply N.eqb_eq in Eu. rewrite Eu, E. exact IH.
  - cbn [flat_map]. now rewrite IH.
Qed.

Lemma flat_map_agree {A B : Type} (f g : A -> list B) l :
  (forall a, In a l -> f a = g a) -> flat_map f l = flat_map g l.
Proof.
  induction l as [|a l IH]; [reflexivity|]. intros H. cbn [flat_map].
  rewrite (H a (or_introl eq_refl)), IH; [reflexivity|].
  intros b Hb. apply H. now right.
Qed.

Lemma found_is_member {A : Type} (f : A -> bool) l x :
  find f l = Some x -> In x l /\ f x = true.
Proof. apply find_some. Qed.

Lemma same_id_same_user us (a b : user) :
  NoDup (map user_id us) -> In a us -> In b us -> user_id a = user_id b -> a = b.
Proof.
  induction us as [|x us IH]; [intros _ []|]. cbn [map].
  intros Hnd Ha Hb E. inversion Hnd as [|? ? Hnot Hnd']; subst.
  destruct Ha as [-> | Ha], Hb as [-> | Hb]; auto.
  - exfalso. apply Hnot. rewrite E. now apply in_map.
  - exfalso. apply Hnot. rewrite <- E. now apply in_map.
Qed.

Lemma roles_of_one us urs rs e u role :
  NoDup (map user_email us) -> NoDup (map named_id rs) ->
  find (fun u => user_email u =? e) us = Some u ->
  In role rs ->
  existsb (fun ur => (fst ur =? user_id u)%N) urs = false ->
  roles_of us (urs ++ [(user_id u, named_id role)]) rs e = [named_name role].
Proof.
  intros Hemails Hids Hf Hin Hfree. unfold roles_of.
  rewrite (only_user_has_roles _ us e u Hemails Hf).
  rewrite flat_map_app, (no_pair_no_roles _ urs _ Hfree).
  cbn [flat_map fst snd app]. rewrite N.eqb_refl, app_nil_r.
  now rewrite (filter_unique_id rs role Hids Hin).
Qed.

Lemma found_role_exists (f : named -> bool) rs role :
  find f rs = Some role ->
  existsb (fun r => (named_id r =? named_id role)%Z) rs = true.
Proof.
  intros H. apply existsb_exists. exists role.
  split; [exact (proj1 (find_some _ _ H)) | apply Z.eqb_refl].
Qed.

Lemma found_user_exists (f : user -> bool) us u :
  find f us = Some u ->
  existsb (fun x => (user_id x =? user_id u)%N) us = true.
Proof.
  intros H. apply existsb_exists. exists u.
  split; [exact (proj1 (find_some _ _ H)) | apply N.eqb_refl].
Qed.

Lemma no_pair_no_same_pair (urs : list (uuid * Z)) (uid : uuid) (rid : Z) :
  existsb (fun ur => (fst ur =? uid)%N) urs = false ->
  existsb (same_pair uid rid) urs = false.
Proof.
  induction urs as [|ur urs IH]; [reflexivity|]. cbn [existsb]. intros H.
  apply orb_false_iff in H as [Hu H]. rewrite (IH H), orb_false_r.
  apply andb_false_iff. left. exact Hu.
Qed.

Section SignIn.

Variable crypt : string -> string -> option string.
Variable lower : string -> string.

Lemma register_user_run e p p_role salt new_id now s us t urs h role :
  users (data s) = Some us -> roles (data s) = Some t ->
  user_roles (data s) = Some urs ->
  crypt p salt = Some h ->
  existsb (fun u => (user_id u =? new_id)%N) us = false ->
  existsb (fun u => user_email u =? e) us = false ->
  find (fun r => named_alike lower p_role (named_name r)) (rows t) = Some role ->
  existsb (same_pair new_id (named_id role)) urs = false ->
  register_user crypt lower (Some e) (Some p) p_role salt new_id now s
  = (true,
     {| data :=
          set_user_roles (urs ++ [(new_id, named_id role)])%list
            (set_users (us ++ [ {| user_id := new_id; user_email := e;
                                   password_hash := h;
                                   created_at := Some now |} ])%list (data s));
        notices := notices s |}).
Proof.
  destruct s as [[us0 r0 ps ur rp] ns]. cbn [data users roles user_roles].
  intros -> -> -> Hc Hid He Hf Hp. destruct t as [rs rn]. cbn [rows] in Hf.
  unfold register_user, register_user_body. run_statements.
  rewrite Hc. run_statements. rewrite Hid, He. run_statements. rewrite Hf.
  run_statements. rewrite Hp. unfold has_user, has_role. run_statements.
  rewrite existsb_app. cbn [existsb user_id]. rewrite N.eqb_refl, orb_true_r.
  cbn [negb]. rewrite (found_role_exists _ _ _ Hf). reflexivity.
Qed.

Lemma authenticate_found e p_password s us u :
  users (data s) = Some us ->
  find (fun u => user_email u =? e) us = Some u ->
  fst (authenticate_user crypt (Some e) p_password s)
  = match p_password with
    | None => None
    | Some p =>
        match crypt p (password_hash u) with
        | Some h => Some (password_hash u =? h)
        | None => Some false
        end
    end.
Proof.
  destruct s as [[us0 r0 ps ur rp] ns]. cbn [data users]. intros -> Hf.
  unfold authenticate_user, authenticate_user_body. run_statements.
  rewrite Hf. run_statements. destruct p_password as [p|]; [|reflexivity].
  destruct (crypt p (password_hash u)); reflexivity.
Qed.

End SignIn.

(** A user registered with [register_user] signs in and has the role.
    The tables are there, the email and the new [id] are not in use, no
    pair of [user_roles] names the new [id], the ids of [roles] differ from
    one another, and a role matches; [crypt] of the password under the
    hash it made gives that hash again.  Then [register_user] returns
    true; afterwards [authenticate_user] returns true for the password,
    false for a password that [crypt] turns into another hash, and NULL
    for a NULL password; and [get_user_role] returns the name of the role
    found, as the table has it. *)
Theorem registered_user_signs_in
        (crypt : string -> string -> option string) (lower : string -> string)
        (e p : string) (p_role : option string) (salt : string) (new_id : uuid)
        (now : Z) (s : session) (us : list user) (t : serial_table)
        (urs : list (uuid * Z)) (h : string) (role : named) :
  users (data s) = Some us -> roles (data s) = Some t ->
  user_roles (data s) = Some urs ->
  crypt p salt = Some h -> crypt p h = Some h ->
  existsb (fun u => (user_id u =? new_id)%N) us = false ->
  existsb (fun u => user_email u =? e) us = false ->
  existsb (fun ur => (fst ur =? new_id)%N) urs = false ->
  NoDup (map named_id (rows t)) ->
  find (fun r => named_alike lower p_role (named_name r)) (rows t) = Some role ->
  let r := register_user crypt lower (Some e) (Some p) p_role salt new_id now s in
  fst r = true
  /\ fst (authenticate_user crypt (Some e) (Some p) (snd r)) = Some true
  /\ (forall q h', crypt q h = Some h' -> h' <> h ->
                   fst (authenticate_user crypt (Some e) (Some q) (snd r)) = Some false)
  /\ fst (authenticate_user crypt (Some e) None (snd r)) = None
  /\ fst (get_user_role (Some e) (snd r)) = Val [named_name role].
Proof.
  intros Hu Hr Hur Hc Hh Hid He Hfree Hids Hf. cbv zeta.
  rewrite (register_user_run crypt lower e p p_role salt new_id now s us t urs h role
             Hu Hr Hur Hc Hid He Hf (no_pair_no_same_pair urs new_id _ Hfree)).
  cbn [fst snd].
  set (u := {| user_id := new_id; user_email := e; password_hash := h;
               created_at := Some now |}).
  assert (Hfound : find (fun x => user_email x =? e) (us ++ [u]) = Some u).
  { apply find_app_fresh; [exact He | apply String.eqb_refl]. }
  split; [reflexivity|]. split; [|split; [|split]].
  - match goal with
    | |- context [authenticate_user _ _ _ ?s'] =>
        rewrite (authenticate_found crypt e (Some p) s' (us ++ [u])%list u eq_refl Hfound)
    end.
    cbn [password_hash u]. now rewrite Hh, String.eqb_refl.
  - intros q h' Hq Hne.
    match goal with
    | |- context [authenticate_user _ _ _ ?s'] =>
        rewrite (authenticate_found crypt e (Some q) s' (us ++ [u])%list u eq_refl Hfound)
    end.
    cbn [password_hash u]. rewrite Hq. f_equal. apply String.eqb_neq. congruence.
  - match goal with
    | |- context [authenticate_user _ _ _ ?s'] =>
        now rewrite (authenticate_found crypt e None s' (us ++ [u])%list u eq_refl Hfound)
    end.
  - unfold get_user_role. run_statements.
    cbn [set_user_roles set_users users user_roles roles].
    destruct s as [[us0 r0 ps ur rp] ns]. cbn [data users roles user_roles] in *.
    subst r0. cbn [fst]. f_equal. unfold roles_of.
    rewrite flat_map_app, (no_user_no_roles _ us e He). cbn [flat_map app user_email u].
    rewrite String.eqb_refl, app_nil_r.
    rewrite flat_map_app, (no_pair_no_roles _ urs _ Hfree).
    cbn [flat_map fst snd app user_id]. rewrite N.eqb_refl, app_nil_r.
    change (let (rows0, _) := t in rows0) with (rows t).
    now rewrite (filter_unique_id _ role Hids (proj1 (find_some _ _ Hf))).
Qed.

Lemma registered_user_signs_in_witness :
  let r := register_user sample_crypt (fun n => n) (Some "user@example.com")
             (Some "UserPassword") (Some "Content Admin") "bf" 9%N 5%Z sample_session in
  fst r = true
  /\ fst (authenticate_user sample_crypt (Some "user@example.com")
            (Some "UserPassword") (snd r)) = Some true
  /\ (forall q h', sample_crypt q "bfUserPassword" = Some h' -> h' <> "bfUserPassword" ->
                   fst (authenticate_user sample_crypt (Some "user@example.com")
                          (Some q) (snd r)) = Some false)
  /\ fst (authenticate_user sample_crypt (Some "user@example.com") None (snd r)) = None
  /\ fst (get_user_role (Some "user@example.com") (snd r))
     = Val [named_name {| named_id := 2%Z; named_name := "Content Admin" |}].
Proof.
  apply (registered_user_signs_in sample_crypt (fun n => n) "user@example.com"
           "UserPassword" (Some "Content Admin") "bf" 9%N 5%Z sample_session
           (listed (users sample_database))
           {| rows := [ {| named_id := 1%Z; named_name := "Super Admin" |};
                        {| named_id := 2%Z; named_name := "Content Admin" |} ];
              next_id := 3%Z |}
           [(7%N, 1%Z)] "bfUserPassword"
           {| named_id := 2%Z; named_name := "Content Admin" |});
    try reflexivity.
  cbn [rows map named_id]. repeat constructor; cbn [In]; intros H; intuition discriminate.
Defined.

(** *** [assign_role_to_user] *)

Lemma assign_role_run e p_role s us t urs u role :
  users (data s) = Some us -> roles (data s) = Some t ->
  user_roles (data s) = Some urs ->
  find (fun u => user_email u =? e) us = Some u ->
  find (fun r => named_exactly p_role (named_name r)) (rows t) = Some role ->
  assign_role_to_user (Some e) p_role s
  = (Val true,
     {| data :=
          set_user_roles
            (filter (fun ur => negb (fst ur =? user_id u)%N) urs
             ++ [(user_id u, named_id role)])%list (data s);
        notices := notices s |}).
Proof.
  destruct s as [[us0 r0 ps ur rp] ns]. cbn [data users roles user_roles].
  intros -> -> -> Hu Hf. destruct t as [rs rn]. cbn [rows] in Hf.
  unfold assign_role_to_user. run_statements. rewrite Hu. run_statements.
  rewrite Hf. run_statements.
  rewrite (no_pair_no_same_pair _ _ _ (filtered_has_no_pair urs (user_id u))).
  unfold has_user, has_role. run_statements.
  rewrite (found_user_exists _ _ _ Hu), (found_role_exists _ _ _ Hf). reflexivity.
Qed.

(** [assign_role_to_user] has no EXCEPTION clause, yet it changes the
    database only when it returns true: it then has replaced the pairs of
    the first user of that email by one pair, with the first role of
    exactly that name.  When it returns false or ends with an error, the
    database and the notices are as before. *)
Theorem assign_role_all_or_nothing
        (p_email p_role : option string) (s : session) :
  let r := assign_role_to_user p_email p_role s in
  match fst r with
  | Val true =>
      exists e us t urs u role,
        p_email = Some e
        /\ users (data s) = Some us /\ roles (data s) = Some t
        /\ user_roles (data s) = Some urs
        /\ find (fun u => user_email u =? e) us = Some u
        /\ find (fun r => named_exactly p_role (named_name r)) (rows t) = Some role
        /\ data (snd r)
           = set_user_roles
               (filter (fun ur => negb (fst ur =? user_id u)%N) urs
                ++ [(user_id u, named_id role)])%list (data s)
        /\ notices (snd r) = notices s
  | _ => snd r = s
  end.
Proof.
  cbv zeta. remember (assign_role_to_user p_email p_role s) as r eqn:Hr.
  destruct s as [[us [[rs rn]|] [[ps pn]|] ur rp] ns];
    unfold assign_role_to_user in Hr;
    run_statements_in Hr; split_in Hr; subst r; cbn [fst snd data notices];
    try reflexivity;
    try (exfalso;
         match goal with
         | H : existsb (same_pair _ _) (filter _ _) = true |- _ =>
             rewrite no_pair_no_same_pair in H by apply filtered_has_no_pair;
             discriminate H
         end);
    try (exfalso;
         match goal with
         | Hf : find _ ?l = Some ?u,
           H : negb (has_user _ (user_id ?u)) = true |- _ =>
             unfold has_user in H; cbn [users] in H;
             rewrite (found_user_exists _ _ _ Hf) in H; discriminate H
         end);
    try (exfalso;
         match goal with
         | Hf : find _ ?l = Some ?n,
           H : negb (has_role _ (named_id ?n)) = true |- _ =>
             unfold has_role in H; cbn [roles rows] in H;
             rewrite (found_role_exists _ _ _ Hf) in H; discriminate H
         end);
    do 6 eexists; repeat split; first [reflexivity | eassumption].
Qed.

(** After [assign_role_to_user] the user has exactly the role assigned.
    The tables are there, no two users share an [id] or an email, no two
    roles share an [id], a user has the email and a role has exactly the
    name.  Then the function returns true, [get_user_role] returns that
    one name for the email, whatever roles the user had before, and
    returns for every other email what it returned before. *)
Theorem assign_role_replaces_roles
        (e name : string) (s : session) (us : list user) (t : serial_table)
        (urs : list (uuid * Z)) (u : user) (role : named) :
  users (data s) = Some us -> roles (data s) = Some t ->
  user_roles (data s) = Some urs ->
  keys_unique us (rows t) ->
  find (fun u => user_email u =? e) us = Some u ->
  find (fun r => named_exactly (Some name) (named_name r)) (rows t) = Some role ->
  let r := assign_role_to_user (Some e) (Some name) s in
  fst r = Val true
  /\ fst (get_user_role (Some e) (snd r)) = Val [name]
  /\ forall e', e' <> e ->
                fst (get_user_role (Some e') (snd r)) = fst (get_user_role (Some e') s).
Proof.
  intros Hu Hr Hur (Huid & Hemail & Hrid) Hfu Hfr. cbv zeta.
  rewrite (assign_role_run e (Some name) s us t urs u role Hu Hr Hur Hfu Hfr).
  cbn [fst snd]. split; [reflexivity|].
  destruct s as [[us0 r0 ps ur rp] ns]. cbn [data users roles user_roles] in *.
  subst us0 r0 ur. unfold get_user_role. run_statements. cbn [fst].
  change (let (rows0, _) := t in rows0) with (rows t).
  destruct (find_some _ _ Hfr) as [Hin Hname]. cbn [named_exactly] in Hname.
  apply String.eqb_eq in Hname. split.
  - f_equal. rewrite <- Hname.
    apply roles_of_one; try assumption. apply filtered_has_no_pair.
  - intros e' Hne. f_equal. unfold roles_of.
    apply flat_map_agree. intros u' Hu'.
    destruct (user_email u' =? e') eqn:E; [|reflexivity].
    apply other_pairs_stay. intros Heq.
    assert (u' = u).
    { apply (same_id_same_user us); try assumption.
      exact (proj1 (find_some _ _ Hfu)). }
    subst u'. apply String.eqb_eq in E.
    destruct (find_some _ _ Hfu) as [_ Ee]. apply String.eqb_eq in Ee. congruence.
Qed.

Lemma assign_role_replaces_roles_witness :
  let r := assign_role_to_user (Some "admin@example.com") (Some "Content Admin")
             sample_session in
  fst r = Val true
  /\ fst (get_user_role (Some "admin@example.com") (snd r)) = Val ["Content Admin"]
  /\ forall e', e' <> "admin@example.com" ->
                fst (get_user_role (Some e') (snd r))
                = fst (get_user_role (Some e') sample_session).
Proof.
  apply (assign_role_replaces_roles "admin@example.com" "Content Admin" sample_session
           (listed (users sample_database))
           {| rows := [ {| named_id := 1%Z; named_name := "Super Admin" |};
                        {| named_id := 2%Z; named_name := "Content Admin" |} ];
              next_id := 3%Z |}
           [(7%N, 1%Z)]
           {| user_id := 7%N; user_email := "admin@example.com";
              password_hash := "bfSuperSecurePassword"; created_at := Some 0%Z |}
           {| named_id := 2%Z; named_name := "Content Admin" |});
    try reflexivity.
  unfold keys_unique. cbn [rows map named_id user_id user_email listed users
                           sample_database].
  repeat split; repeat constructor; cbn [In]; intros H; intuition discriminate.
Defined.

(** *** [authenticate_user] *)

(** [authenticate_user] never changes the database, and it returns true
    only for an email that a user has and a password, not NULL, that
    [crypt] turns under the stored hash into that hash.  It returns NULL,
    not false, only where the user is found and the password is NULL. *)
Theorem authenticate_user_is_sound
        (crypt : string -> string -> option string)
        (p_email p_password : option string) (s : session) :
  let r := authenticate_user crypt p_email p_password s in
  data (snd r) = data s
  /\ match fst r with
     | Some true =>
         exists e p us u,
           p_email = Some e /\ p_password = Some p
           /\ users (data s) = Some us
           /\ find (fun u => user_email u =? e) us = Some u
           /\ crypt p (password_hash u) = Some (password_hash u)
     | Some false => True
     | None =>
         exists e us u,
           p_email = Some e /\ p_password = None
           /\ users (data s) = Some us
           /\ find (fun u => user_email u =? e) us = Some u
     end.
Proof.
  cbv zeta. remember (authenticate_user crypt p_email p_password s) as r eqn:Hr.
  destruct s as [[us [[rs rn]|] [[ps pn]|] ur rp] ns];
    unfold authenticate_user, authenticate_user_body in Hr;
    run_statements_in Hr; split_in Hr; subst r; cbn [fst snd data notices];
    (split; [reflexivity|]); try exact I;
    try (do 3 eexists; repeat split; first [reflexivity | eassumption]);
    match goal with
    | |- if ?b then _ else _ => destruct b eqn:Heq
    end; try exact I;
    apply String.eqb_eq in Heq;
    do 4 eexists; repeat split; try reflexivity; try eassumption; congruence.
Qed.

(** *** From an initialized database to a super admin *)






(** *** Examples *)

(** Before [initialize_database], registering fails on the missing table
    and changes nothing. *)
Example register_before_initialize :
  register_super_admin sample_crypt (Some "abhisek@example.com")
    (Some "SuperSecurePassword") "bf" 1%N 0%Z {| data := no_tables; notices := [] |}
  = (false, {| data := no_tables;
               notices := [ErrorNotice (UndefinedTable "roles")] |}).
Proof. reflexivity. Qed.

(** A NULL password for a known email gives NULL, not false. *)
Example authenticate_without_password :
  authenticate_user sample_crypt (Some "admin@example.com") None sample_session
  = (None, sample_session).
Proof. reflexivity. Qed.

(** [assign_role_to_user] compares the role name as it is, where
    [register_user] compares under [LOWER]. *)
Example assign_role_is_case_sensitive :
  assign_role_to_user (Some "admin@example.com") (Some "content admin") sample_session
  = (Val false, sample_session).
Proof. reflexivity. Qed.

End AuthFacts.
